(** * simple-timer: a Rocq model of [timer.hpp]

    The header measures the wall-clock duration of one call and presents it
    in a unit and a numeric type of the caller's choice.  This development
    embeds

    - the unit catalogue ([timer::picoseconds] .. [timer::millennia]) and the
      integer-tick units of [std::chrono] the demo program uses,
    - [std::chrono::duration_cast] and the arithmetic conversions of C++ it
      is built from, over binary64 floating point,
    - [TimeView::as], [TimeResult::getDuration], [getDurationCount] and
      [getDurationView],
    - the class [Timer] (constructor, destructor, access of its members) and
      the two overloads of [timer::time], the value-returning one for
      result types that are objects and for result types that are
      references,
    - [TimeView::count], the conversion operator of the view and
      [TimeView::unwrap], and the displays that the demo derives from the
      counts,

    and proves the properties of the specification about them, then what
    the code shows besides: where its behaviour is undefined and where it
    is not, the sign and the accuracy of a measured Duration, and how the
    views order, bound and round the counts. *)

From Stdlib Require Import ZArith QArith Qround Qpower Qabs Lia Lqa Bool List String Floats.
From stdpp Require Import base list.
Import ListNotations.

Local Open Scope Z_scope.

(** ** Binary64 floating point

    [double] is the kernel's binary64 type: its operations are the IEEE 754
    ones, rounding to nearest, ties to even.  [Prim2SF] reads a [double] as
    sign, mantissa and exponent. *)

Definition double := float.

(** The rational value of a finite [spec_float]; zero for the others. *)
Definition SF2Q (x : spec_float) : Q :=
  match x with
  | S754_finite s m e => inject_Z (cond_Zopp s (Zpos m)) * Qpower 2 e
  | _ => 0%Q
  end.

Definition is_finite_SF (x : spec_float) : bool :=
  match x with
  | S754_zero _ | S754_finite _ _ _ => true
  | _ => false
  end.

Definition isfinite (x : double) : bool := is_finite_SF (Prim2SF x).

(** The rational value of a finite double. *)
Definition double_value (x : double) : Q := SF2Q (Prim2SF x).

(** Conversion of an integer to [double] (C++ [conv.fpint]): exact when the
    integer is representable, the nearest double otherwise. *)
Definition Z_to_double (z : Z) : double :=
  SF2Prim (binary_normalize prec emax z 0 false).

(** Truncation of a finite [spec_float]: the fractional part is discarded. *)
Definition SF_trunc (x : spec_float) : option Z :=
  match x with
  | S754_zero _ => Some 0
  | S754_finite s m e =>
      Some (cond_Zopp s (match e with
                         | Z0 => Zpos m
                         | Zpos p => Zpos m * 2 ^ Zpos p
                         | Zneg p => Zpos m / 2 ^ Zpos p
                         end))
  | S754_infinity _ | S754_nan => None
  end.

(** ** Arithmetic types and [static_cast] between them *)

(** The integer types other than [bool]: the fixed-width ones. *)
Inductive integer_type :=
| int8_t | int16_t | int32_t | int64_t
| uint8_t | uint16_t | uint32_t | uint64_t.

Definition int_min (t : integer_type) : Z :=
  match t with
  | int8_t => - 2 ^ 7 | int16_t => - 2 ^ 15
  | int32_t => - 2 ^ 31 | int64_t => - 2 ^ 63
  | _ => 0
  end.

Definition int_max (t : integer_type) : Z :=
  match t with
  | int8_t => 2 ^ 7 - 1 | int16_t => 2 ^ 15 - 1
  | int32_t => 2 ^ 31 - 1 | int64_t => 2 ^ 63 - 1
  | uint8_t => 2 ^ 8 - 1 | uint16_t => 2 ^ 16 - 1
  | uint32_t => 2 ^ 32 - 1 | uint64_t => 2 ^ 64 - 1
  end.

Definition in_range (t : integer_type) (z : Z) : bool :=
  (int_min t <=? z) && (z <=? int_max t).

(** [static_cast<integer>(double)] (C++ [conv.fpint]): the value is
    truncated; the behaviour is undefined ([None]) when the truncated value
    is not representable, which includes infinities and NaN. *)
Definition double_to_int (t : integer_type) (x : double) : option Z :=
  match SF_trunc (Prim2SF x) with
  | Some z => if in_range t z then Some z else None
  | None => None
  end.

(** [static_cast<integer>(integer)]: the value modulo 2^N (C++20
    [conv.integral]); the identity on a representable value. *)
Definition int_wrap (t : integer_type) (z : Z) : Z :=
  let width := int_max t - int_min t + 1 in
  (z - int_min t) mod width + int_min t.

(** Rounding of a binary64 value to binary32 ([float]), as a [spec_float]
    of precision 24 and exponent bound 128. *)
Definition double_to_float32 (x : double) : spec_float :=
  match Prim2SF x with
  | S754_finite s m e => binary_round 24 128 s m e
  | y => y
  end.

(** ** [std::ratio] *)

Module ratio.

(** [std::ratio<Num, Denom>]: [num] and [den] are the fraction in lowest
    terms, the sign on [num]. *)
Record t := make { num : Z; den : Z }.

Definition ratio (Num Denom : Z) : t :=
  let g := Z.gcd Num Denom in
  {| num := Z.sgn Denom * Num / g; den := Z.abs Denom / g |}.

(** [std::ratio_divide<R1, R2>] *)
Definition ratio_divide (R1 R2 : t) : t :=
  ratio (num R1 * den R2) (den R1 * num R2).

(** The fraction as a rational: seconds per unit for a period. *)
Definition to_Q (R : t) : Q := Qmake (num R) (Z.to_pos (den R)).

End ratio.

Definition obind {A B} (o : option A) (f : A -> option B) : option B :=
  match o with
  | Some a => f a
  | None => None
  end.

Notation "'let?' x := o 'in' k" := (obind o (fun x => k))
  (at level 10, x name, o at level 100, k at level 200).

(** ** [std::chrono] *)

Module chrono.

(** The representation types of the durations in the header and the demo:
    [double] for the [timer::] units, and the signed 64-bit integer that
    libstdc++ and libc++ (LP64) give the [std::chrono::] units. *)
Inductive rep_type := rep_int64 | rep_double.

Definition rep_value (r : rep_type) : Type :=
  match r with
  | rep_int64 => Z
  | rep_double => double
  end.

(** A specialisation [std::chrono::duration<Rep, Period>]. *)
Record duration_type := { Rep : rep_type; Period : ratio.t }.

(** A value of [std::chrono::duration<Rep, Period>]: its tick count. *)
Record duration (T : duration_type) := Build_duration { count : rep_value (Rep T) }.
Arguments Build_duration {T} _.
Arguments count {T} _.

(** [std::common_type<ToRep, FromRep, intmax_t>]: [double] as soon as one
    side is [double]. *)
Definition common_rep (a b : rep_type) : rep_type :=
  match a, b with
  | rep_int64, rep_int64 => rep_int64
  | _, _ => rep_double
  end.

(** [static_cast<To>(c)] between representation types ([None]: undefined
    behaviour, a [double] whose truncation is no [int64_t]). *)
Definition rep_cast (a b : rep_type) : rep_value a -> option (rep_value b) :=
  match a, b with
  | rep_int64, rep_int64 => fun z => Some z
  | rep_int64, rep_double => fun z => Some (Z_to_double z)
  | rep_double, rep_int64 => fun x => double_to_int int64_t x
  | rep_double, rep_double => fun x => Some x
  end.

(** A signed 64-bit result; overflow of signed arithmetic is undefined. *)
Definition checked_int64 (z : Z) : option Z :=
  if in_range int64_t z then Some z else None.

(** [static_cast<CR>(c)] of a constant of type [intmax_t]. *)
Definition rep_const (r : rep_type) (c : Z) : rep_value r :=
  match r with
  | rep_int64 => c
  | rep_double => Z_to_double c
  end.

(** [x * y] and [x / y] in the type [CR]. *)
Definition rep_mul (r : rep_type) : rep_value r -> rep_value r -> option (rep_value r) :=
  match r with
  | rep_int64 => fun x y => checked_int64 (x * y)
  | rep_double => fun x y => Some (x * y)%float
  end.

Definition rep_div (r : rep_type) : rep_value r -> rep_value r -> option (rep_value r) :=
  match r with
  | rep_int64 => fun x y => if y =? 0 then None else checked_int64 (Z.quot x y)
  | rep_double => fun x y => Some (x / y)%float
  end.

(** [std::chrono::duration_cast<ToDuration>(d)] ([time.duration.cast]):
    with [CF = ratio_divide<Period, ToDuration::period>] and
    [CR = common_type<ToDuration::rep, Rep, intmax_t>],
    - [CF::num == 1] and [CF::den == 1]: [static_cast<ToRep>(d.count())];
    - [CF::den == 1]: [static_cast<ToRep>(static_cast<CR>(d.count()) *
      static_cast<CR>(CF::num))];
    - [CF::num == 1]: the same with a division by [CF::den];
    - otherwise the multiplication, then the division. *)
Definition duration_cast (To : duration_type) {From : duration_type}
    (d : duration From) : option (duration To) :=
  let CF := ratio.ratio_divide (Period From) (Period To) in
  let CR := common_rep (Rep To) (Rep From) in
  let num := ratio.num CF in
  let den := ratio.den CF in
  option_map Build_duration
    (if (num =? 1) && (den =? 1) then
       rep_cast (Rep From) (Rep To) (count d)
     else
       let? x := rep_cast (Rep From) CR (count d) in
       let? y := (if den =? 1 then rep_mul CR x (rep_const CR num)
                  else if num =? 1 then rep_div CR x (rep_const CR den)
                  else let? p := rep_mul CR x (rep_const CR num) in
                       rep_div CR p (rep_const CR den)) in
       rep_cast CR (Rep To) y).

Definition rep_type_eqb (a b : rep_type) : bool :=
  match a, b with
  | rep_int64, rep_int64 | rep_double, rep_double => true
  | _, _ => false
  end.

(** [std::is_same_v] on two specialisations of [duration]. *)
Definition duration_type_eqb (A B : duration_type) : bool :=
  rep_type_eqb (Rep A) (Rep B)
  && (ratio.num (Period A) =? ratio.num (Period B))
  && (ratio.den (Period A) =? ratio.den (Period B)).

(** The integer-tick units. *)
Definition nanoseconds := {| Rep := rep_int64; Period := ratio.ratio 1 1000000000 |}.
Definition microseconds := {| Rep := rep_int64; Period := ratio.ratio 1 1000000 |}.
Definition milliseconds := {| Rep := rep_int64; Period := ratio.ratio 1 1000 |}.
Definition seconds := {| Rep := rep_int64; Period := ratio.ratio 1 1 |}.
Definition minutes := {| Rep := rep_int64; Period := ratio.ratio 60 1 |}.
Definition hours := {| Rep := rep_int64; Period := ratio.ratio 3600 1 |}.

(** [std::chrono::steady_clock::duration]: nanoseconds in libstdc++ and
    libc++. *)
Definition steady_clock_duration := nanoseconds.

End chrono.

(** ** The types a caller can name as the target of [TimeView::as] *)

Inductive cpp_type :=
| ty_bool
| ty_int (t : integer_type)
| ty_float
| ty_double
| ty_duration (T : chrono.duration_type)
| ty_other.

(** [std::is_floating_point_v], [std::is_integral_v] ([bool] is an integral
    type) and [std::is_same_v<_, duration<..>>]. *)
Definition is_floating_point_v (R : cpp_type) : bool :=
  match R with ty_float | ty_double => true | _ => false end.

Definition is_integral_v (R : cpp_type) : bool :=
  match R with ty_bool | ty_int _ => true | _ => false end.

Definition is_same_v (R : cpp_type) (T : chrono.duration_type) : bool :=
  match R with ty_duration T' => chrono.duration_type_eqb T' T | _ => false end.

Inductive cpp_value :=
| v_bool (b : bool)
| v_int (t : integer_type) (z : Z)
| v_float (x : spec_float)
| v_double (x : double)
| v_duration (T : chrono.duration_type) (d : chrono.duration T).

(** [static_cast<R>(c)] of a tick count to an arithmetic type [R]
    ([conv.bool], [conv.integral], [conv.double], [conv.fpint]). *)
Definition static_cast (R : cpp_type) {r : chrono.rep_type}
  : chrono.rep_value r -> option cpp_value :=
  match r with
  | chrono.rep_int64 => fun z =>
      match R with
      | ty_bool => Some (v_bool (negb (z =? 0)))
      | ty_int t => Some (v_int t (int_wrap t z))
      | ty_float => Some (v_float (binary_normalize 24 128 z 0 false))
      | ty_double => Some (v_double (Z_to_double z))
      | _ => None
      end
  | chrono.rep_double => fun x =>
      match R with
      | ty_bool => Some (v_bool (negb (x =? 0)%float))
      | ty_int t => option_map (v_int t) (double_to_int t x)
      | ty_float => Some (v_float (double_to_float32 x))
      | ty_double => Some (v_double x)
      | _ => None
      end
  end.

(** What instantiating a template gives: code, or a build failure (a failed
    [static_assert], no viable constructor). *)
Inductive instantiation (A : Type) :=
| compiles (a : A)
| ill_formed.
Arguments compiles {A} _.
Arguments ill_formed {A}.

(** ** Class declarations: special member functions and access

    What a class definition declares, and what the language then declares
    implicitly ([class.default.ctor], [class.copy.ctor], [class.access]). *)

Module cpp_class.






(** Where a use of a member stands: in a member of the class, or in the
    function (or the specialisation of the function template) named. *)
Inductive context :=
| in_member
| in_function (name : string).












End cpp_class.

(** ** Reference binding

    Initialisation of a reference to [cv1 T] by an expression of type
    [cv2 T] ([dcl.init.ref]): the reference must be at least as
    cv-qualified as the expression; an lvalue reference to non-const takes
    an lvalue, an rvalue reference takes an xvalue or a prvalue. *)

Module cpp_reference.

Inductive value_category := lvalue | xvalue | prvalue.

(** The value category and the constness of an expression of type [cv T]. *)
Record expression := { category : value_category; is_const : bool }.

(** [cv T&] and [cv T&&] *)
Inductive reference :=
| lvalue_reference (const : bool)
| rvalue_reference (const : bool).

(** A non-static data member named in a member function: an lvalue,
    const in a [const] member function ([expr.prim.id], [class.this]). *)
Definition data_member (in_const_function : bool) : expression :=
  {| category := lvalue; is_const := in_const_function |}.

(** [std::move(e)]: an xvalue of the type of [e], cv-qualifiers kept. *)
Definition std_move (e : expression) : expression :=
  {| category := xvalue; is_const := is_const e |}.

Definition is_lvalue (e : expression) : bool :=
  match category e with lvalue => true | _ => false end.

Definition binds (r : reference) (e : expression) : bool :=
  match r with
  | lvalue_reference const => implb (is_const e) const && (const || is_lvalue e)
  | rvalue_reference const => implb (is_const e) const && negb (is_lvalue e)
  end.

End cpp_reference.

(** ** Namespace [timer] *)

Module timer.

Import chrono (Rep, Period, rep_double, rep_int64).

Definition picoseconds := {| Rep := rep_double; Period := ratio.ratio 1 1000000000000 |}.
Definition nanoseconds := {| Rep := rep_double; Period := ratio.ratio 1 1000000000 |}.
Definition microseconds := {| Rep := rep_double; Period := ratio.ratio 1 1000000 |}.
Definition milliseconds := {| Rep := rep_double; Period := ratio.ratio 1 1000 |}.
Definition seconds := {| Rep := rep_double; Period := ratio.ratio 1 1 |}.
Definition minutes := {| Rep := rep_double; Period := ratio.ratio 60 1 |}.
Definition hours := {| Rep := rep_double; Period := ratio.ratio 3600 1 |}.
Definition days := {| Rep := rep_double; Period := ratio.ratio 86400 1 |}.
Definition weeks := {| Rep := rep_double; Period := ratio.ratio 604800 1 |}.
Definition years := {| Rep := rep_double; Period := ratio.ratio 31556952 1 |}.
Definition decades := {| Rep := rep_double; Period := ratio.ratio 315569520 1 |}.
Definition centuries := {| Rep := rep_double; Period := ratio.ratio 3155695200 1 |}.
Definition millennia := {| Rep := rep_double; Period := ratio.ratio 31556952000 1 |}.

(** [using Duration = std::chrono::duration<double, std::ratio<1, 1>>];
    it is also the default [std::chrono::duration<double>] of the
    accessors. *)
Definition Duration_t := {| Rep := rep_double; Period := ratio.ratio 1 1 |}.
Definition Duration := chrono.duration Duration_t.

(** [struct TimeView<ReturnDuration>] *)
Module TimeView.
Record t (ReturnDuration : chrono.duration_type) :=
  make { duration : chrono.duration ReturnDuration }.
Arguments make {ReturnDuration} _.
Arguments duration {ReturnDuration} _.

(** [decltype(auto) count() const] *)
Definition count {ReturnDuration} (self : t ReturnDuration) :=
  chrono.count (duration self).

(** [template<typename Rep> constexpr Rep as() const] *)
Definition as_ (Rep : cpp_type) {ReturnDuration} (self : t ReturnDuration)
  : instantiation (option cpp_value) :=
  if is_same_v Rep ReturnDuration then
    compiles (Some (v_duration ReturnDuration (duration self)))
  else if is_floating_point_v Rep || is_integral_v Rep then
    compiles (static_cast Rep (chrono.count (duration self)))
  else
    ill_formed. (* static_assert(false, "Invalid type for as() function") *)

(** [operator ReturnDuration() const] *)
Definition to_ReturnDuration {ReturnDuration} (self : t ReturnDuration) :=
  duration self.

(** [ReturnDuration &&unwrap() const { return std::move(duration); }]:
    the returned reference, of type [ReturnDuration&&], is initialised by
    [std::move] of the member, named in a [const] member function. *)
Definition unwrap {ReturnDuration} (self : t ReturnDuration)
  : instantiation (chrono.duration ReturnDuration) :=
  if cpp_reference.binds (cpp_reference.rvalue_reference false)
       (cpp_reference.std_move (cpp_reference.data_member true))
  then compiles (duration self)
  else ill_formed.
End TimeView.

(** [template<typename T> struct TimeResult] *)
Module TimeResult.
Record t (T : Type) := make { functionResult : T; duration : Duration }.
Arguments make {T} _ _.
Arguments functionResult {T} _.
Arguments duration {T} _.

(** [template<typename ReturnDuration> ReturnDuration getDuration() const] *)
Definition getDuration (ReturnDuration : chrono.duration_type) {T} (self : t T)
  : option (chrono.duration ReturnDuration) :=
  chrono.duration_cast ReturnDuration (duration self).

Definition getDurationCount (ReturnDuration : chrono.duration_type) {T} (self : t T) :=
  option_map chrono.count (getDuration ReturnDuration self).

Definition getDurationView (ReturnDuration : chrono.duration_type) {T} (self : t T)
  : option (TimeView.t ReturnDuration) :=
  option_map TimeView.make (getDuration ReturnDuration self).
End TimeResult.

(** [template<> struct TimeResult<void>] *)
Module TimeResult_void.
Record t := make { duration : Duration }.

Definition getDuration (ReturnDuration : chrono.duration_type) (self : t)
  : option (chrono.duration ReturnDuration) :=
  chrono.duration_cast ReturnDuration (duration self).

Definition getDurationCount (ReturnDuration : chrono.duration_type) (self : t) :=
  option_map chrono.count (getDuration ReturnDuration self).

Definition getDurationView (ReturnDuration : chrono.duration_type) (self : t)
  : option (TimeView.t ReturnDuration) :=
  option_map TimeView.make (getDuration ReturnDuration self).
End TimeResult_void.

(** *** The measured region: [Timer] and [time] *)

Section Measurement.

(** The world outside the header: the clocks, the MPI runtime and
    whatever the timed callable reads and writes. *)
Variable World : Type.

(** What a callable can throw. *)
Variable exception : Type.

(** [Clock::now()] for [Clock = std::chrono::steady_clock]: the ticks
    since the clock's epoch, and the world after the read. *)
Variable Clock_now : World -> Z * World.

(** [MPI_Wtime()]: seconds since an epoch of the MPI runtime. *)
Variable MPI_Wtime : World -> double * World.

(** The macro [BUILD_WITH_MPI_FLAG]. *)
Variable BUILD_WITH_MPI_FLAG : bool.

(** [using TimePoint = std::chrono::time_point<Clock, Duration>] *)
Record TimePoint := Build_TimePoint { time_since_epoch : Duration }.

(** [operator-] on two time points *)
Definition TimePoint_sub (a b : TimePoint) : Duration :=
  chrono.Build_duration (T := Duration_t)
    (chrono.count (time_since_epoch a) - chrono.count (time_since_epoch b))%float.

(** A [Duration*]: the index of a slot of automatic storage. *)
Definition pointer := nat.

(** What the run of a measurement does, in order. *)
Inductive event :=
| ev_clock (tp : TimePoint)
| ev_call
| ev_return
| ev_raise (e : exception)
| ev_store (p : pointer) (d : Duration)
| ev_move_construct
| ev_copy_construct.

(** The machine state: the world, the [Duration] objects of automatic
    storage ([None]: default-initialised, no value yet) and the events
    so far. *)
Record state := Build_state {
  world : World;
  stack : list (option Duration);
  trace : list event
}.

(** How an evaluation ends: with a value, with an exception in flight,
    or without a defined result (undefined behaviour, [std::terminate]). *)
Inductive result (A : Type) :=
| returned (a : A)
| raised (e : exception)
| undefined.
Arguments returned {A} _.
Arguments raised {A} _.
Arguments undefined {A}.

Definition M (A : Type) := state -> result A * state.

Definition ret {A} (a : A) : M A := fun s => (returned a, s).

Definition bind {A B} (m : M A) (k : A -> M B) : M B :=
  fun s =>
    match m s with
    | (returned a, s') => k a s'
    | (raised e, s') => (raised e, s')
    | (undefined, s') => (undefined, s')
    end.

Notation "'do' x <- m ; k" := (bind m (fun x => k))
  (at level 10, x name, m at level 100, k at level 200).

Definition emit (e : event) : M unit :=
  fun s => (returned tt, Build_state (world s) (stack s) (trace s ++ [e])).

(** The end of a scope: [cleanup] (destructors) runs when [body]
    returns and, while the stack unwinds to a handler, when it raises; the
    outcome of [body] stands.  A destructor that does not return ends the
    program. *)
Definition scope_exit {A} (cleanup : M unit) (body : M A) : M A :=
  fun s =>
    match body s with
    | (undefined, s') => (undefined, s')
    | (r, s') =>
        match cleanup s' with
        | (returned _, s'') => (r, s'')
        | (_, s'') => (undefined, s'')
        end
    end.

(** A local [Duration] object: storage for the time of [body]. *)
Definition local {A} (init : option Duration) (body : pointer -> M A) : M A :=
  fun s =>
    let p := length (stack s) in
    scope_exit
      (fun s' => (returned tt,
                  Build_state (world s') (take p (stack s')) (trace s')))
      (body p)
      (Build_state (world s) (stack s ++ [init]) (trace s)).

(** [*p = d] *)
Definition store (p : pointer) (d : Duration) : M unit :=
  fun s =>
    match stack s !! p with
    | Some _ =>
        (returned tt,
         Build_state (world s) (<[p := Some d]> (stack s))
           (trace s ++ [ev_store p d]))
    | None => (undefined, s)
    end.

(** The value of [*p] *)
Definition load (p : pointer) : M Duration :=
  fun s =>
    match stack s !! p with
    | Some (Some d) => (returned d, s)
    | _ => (undefined, s)
    end.

(** [TimePoint(Duration(MPI_Wtime()))] *)
Definition time_point_of_MPI_Wtime : M TimePoint :=
  fun s =>
    let (t, w) := MPI_Wtime (world s) in
    (returned (Build_TimePoint (chrono.Build_duration (T := Duration_t) t)),
     Build_state w (stack s) (trace s)).

(** [std::chrono::time_point_cast<Duration>(Clock::now())] *)
Definition time_point_cast_Clock_now : M TimePoint :=
  fun s =>
    let (ticks, w) := Clock_now (world s) in
    match chrono.duration_cast Duration_t
            (chrono.Build_duration (T := chrono.steady_clock_duration) ticks) with
    | Some d => (returned (Build_TimePoint d), Build_state w (stack s) (trace s))
    | None => (undefined, Build_state w (stack s) (trace s))
    end.

(** [class Timer] *)
Record Timer := Build_Timer {
  m_StartTimePoint : TimePoint;
  m_TimeReference : pointer
}.

(** [explicit Timer(Duration *duration)] *)
Definition Timer_Timer (duration : pointer) : M Timer :=
  do start <-
    (if BUILD_WITH_MPI_FLAG then time_point_of_MPI_Wtime
     else time_point_cast_Clock_now);
  do _ <- emit (ev_clock start);
  ret (Build_Timer start duration).

(** [~Timer()] *)
Definition Timer_destroy (self : Timer) : M unit :=
  do endTimePoint <-
    (if BUILD_WITH_MPI_FLAG then time_point_of_MPI_Wtime
     else time_point_cast_Clock_now);
  do _ <- emit (ev_clock endTimePoint);
  store (m_TimeReference self)
    (TimePoint_sub endTimePoint (m_StartTimePoint self)).

(** How a call of the callable ends. *)
Inductive outcome (T : Type) :=
| returns (v : T)
| throws (e : exception).
Arguments returns {T} _.
Arguments throws {T} _.

(** A zero-argument callable with result type [T]. *)
Definition callable (T : Type) := World -> outcome T * World.

(** [toTime()] *)
Definition invoke {T} (toTime : callable T) : M T :=
  do _ <- emit ev_call;
  fun s =>
    match toTime (world s) with
    | (returns v, w) =>
        (returned v, Build_state w (stack s) (trace s ++ [ev_return]))
    | (throws e, w) =>
        (raised e, Build_state w (stack s) (trace s ++ [ev_raise e]))
    end.

(** The constructors of [T] that take a [T]: the code of each, run on the
    source object, gives the value of the new object or raises, and can
    act on the world as any call can. *)
Record constructors (T : Type) := {
  move_constructor : option (T -> callable T);
  copy_constructor : option (T -> callable T)
}.
Arguments move_constructor {T} _.
Arguments copy_constructor {T} _.

(** One run of a constructor on the source [x], logged as [ev]. *)
Definition run_constructor {T} (ev : event) (ctor : T -> callable T) (x : T) : M T :=
  do _ <- emit ev;
  fun s =>
    match ctor x (world s) with
    | (returns v, w) => (returned v, Build_state w (stack s) (trace s))
    | (throws e, w) => (raised e, Build_state w (stack s) (trace s))
    end.

(** Initialisation of a [T] from the rvalue
    [static_cast<ResultType &&>(result)]: overload resolution takes
    the move constructor, and the copy constructor when [T] has none. *)
Definition construct_from_rvalue {T} (ops : constructors T)
  : instantiation (T -> M T) :=
  match move_constructor ops, copy_constructor ops with
  | Some move, _ => compiles (run_constructor ev_move_construct move)
  | None, Some copy => compiles (run_constructor ev_copy_construct copy)
  | None, None => ill_formed
  end.

(** The measured region, [Timer timer(duration); toTime();] in a block of
    its own: the destructor of [timer] runs when the block is left, by
    return or by a failure. *)
Definition measured_region {T} (toTime : callable T) (duration : pointer) : M T :=
  do timer <- Timer_Timer duration;
  scope_exit (Timer_destroy timer) (invoke toTime).

(** [template<typename FuncToTime>
     NonVoidTimeResult<FuncToTime> time(FuncToTime toTime)], for a
    [ResultType] that is an object type: the members of the record are
    initialised in order, [functionResult] from the rvalue [result], then
    [duration] from the local.  ([time_reference] below is the same
    function for a [ResultType] that is a reference.) *)
Definition time {ResultType} (ops : constructors ResultType)
    (toTime : callable ResultType)
  : instantiation (M (TimeResult.t ResultType)) :=
  match construct_from_rvalue ops with
  | ill_formed => ill_formed
  | compiles construct =>
      compiles
        (local None (fun duration =>
           do result <- measured_region toTime duration;
           do functionResult <- construct result;
           do d <- load duration;
           ret (TimeResult.make functionResult d)))
  end.

(** [template<typename FuncToTime>
     VoidTimeResult<FuncToTime> time(FuncToTime toTime)] *)
Definition time_void (toTime : callable unit) : M TimeResult_void.t :=
  local (Some (chrono.Build_duration (T := Duration_t) 0%float))
    (fun result_duration =>
       do _ <- measured_region toTime result_duration;
       do d <- load result_duration;
       ret (TimeResult_void.make d)).

(** ** [time] on a callable that returns a reference

    When [std::invoke_result_t<FuncToTime>] is a reference to [T], the
    lambda of [time], which has no trailing return type, still returns a
    [T]: its return type is deduced as for [auto], without the reference.
    The object it returns is initialised from the referent inside the
    measured region, before [timer] is destroyed.  The call of the lambda
    is a prvalue: [ResultType result = ...] binds the reference [result]
    to the temporary the prvalue is materialised in, an automatic object
    of [time], and [static_cast<ResultType &&>(result)] binds the
    reference member of the record to that same temporary. *)

(** Initialisation of the object the lambda returns from the glvalue
    [toTime()]: from an xvalue that is not const as from any rvalue, from
    an lvalue or a const xvalue by the copy constructor. *)
Definition construct_from_reference {T} (ResultType : cpp_reference.reference)
    (ops : constructors T) : instantiation (T -> M T) :=
  match ResultType with
  | cpp_reference.rvalue_reference false => construct_from_rvalue ops
  | _ =>
      match copy_constructor ops with
      | Some copy => compiles (run_constructor ev_copy_construct copy)
      | None => ill_formed
      end
  end.

(** The call of the lambda, a prvalue of type [T]. *)
Definition lambda_call : cpp_reference.expression :=
  {| cpp_reference.category := cpp_reference.prvalue;
     cpp_reference.is_const := false |}.

(** [static_cast<ResultType &&>(result)]: by reference collapsing an
    lvalue when [ResultType] is an lvalue reference, an xvalue when it
    is an rvalue reference, const as the reference is. *)
Definition cast_of_result (ResultType : cpp_reference.reference)
  : cpp_reference.expression :=
  match ResultType with
  | cpp_reference.lvalue_reference const =>
      {| cpp_reference.category := cpp_reference.lvalue;
         cpp_reference.is_const := const |}
  | cpp_reference.rvalue_reference const =>
      {| cpp_reference.category := cpp_reference.xvalue;
         cpp_reference.is_const := const |}
  end.

(** The machine state together with the temporaries of type [T] in
    automatic storage. *)
Record frame (T : Type) := Build_frame {
  machine : state;
  temporaries : list T
}.
Arguments Build_frame {T} _ _.
Arguments machine {T} _.
Arguments temporaries {T} _.

(** A reference to a [T]: the index of the temporary it is bound to. *)
Definition reference_to_temporary := nat.

Definition MT (T A : Type) := frame T -> result A * frame T.

Definition lift {T A} (m : M A) : MT T A :=
  fun f =>
    let (r, s) := m (machine f) in
    (r, Build_frame s (temporaries f)).

Definition ret_frame {T A} (a : A) : MT T A := fun f => (returned a, f).

Definition bind_frame {T A B} (m : MT T A) (k : A -> MT T B) : MT T B :=
  fun f =>
    match m f with
    | (returned a, f') => k a f'
    | (raised e, f') => (raised e, f')
    | (undefined, f') => (undefined, f')
    end.

(** The end of a scope whose cleanup only releases storage. *)
Definition release {T A} (cleanup : frame T -> frame T) (body : MT T A) : MT T A :=
  fun f =>
    match body f with
    | (undefined, f') => (undefined, f')
    | (r, f') => (r, cleanup f')
    end.

(** A local [Duration] object, for the time of [body]. *)
Definition local_frame {T A} (init : option Duration)
    (body : pointer -> MT T A) : MT T A :=
  fun f =>
    let p := length (stack (machine f)) in
    release
      (fun f' =>
         Build_frame
           (Build_state (world (machine f')) (take p (stack (machine f')))
              (trace (machine f')))
           (temporaries f'))
      (body p)
      (Build_frame
         (Build_state (world (machine f)) (stack (machine f) ++ [init])
            (trace (machine f)))
         (temporaries f)).

(** The temporary a prvalue of value [x] is materialised in, with the
    lifetime of the reference it is bound to: the time of [body]. *)
Definition temporary {T A} (x : T)
    (body : reference_to_temporary -> MT T A) : MT T A :=
  fun f =>
    let r := length (temporaries f) in
    release
      (fun f' => Build_frame (machine f') (take r (temporaries f')))
      (body r)
      (Build_frame (machine f) (temporaries f ++ [x])).

(** The value of the object a reference designates; there is none when
    the lifetime of the object has ended. *)
Definition read {T} (r : reference_to_temporary) : MT T T :=
  fun f =>
    match temporaries f !! r with
    | Some x => (returned x, f)
    | None => (undefined, f)
    end.

(** [time] with [ResultType] a reference to [T]; [toTime] gives the value
    of the object its result refers to. *)
Definition time_reference {T} (ResultType : cpp_reference.reference)
    (ops : constructors T) (toTime : callable T)
  : instantiation (MT T (TimeResult.t reference_to_temporary)) :=
  match construct_from_reference ResultType ops with
  | ill_formed => ill_formed
  | compiles construct =>
      if cpp_reference.binds ResultType lambda_call
         && cpp_reference.binds ResultType (cast_of_result ResultType)
      then
        compiles
          (local_frame None (fun duration =>
             bind_frame
               (lift (do timer <- Timer_Timer duration;
                      scope_exit (Timer_destroy timer)
                        (do referent <- invoke toTime;
                         construct referent)))
               (fun returned_object =>
                  temporary returned_object (fun result =>
                    bind_frame (lift (load duration)) (fun d =>
                      ret_frame (TimeResult.make result d))))))
      else ill_formed
  end.

End Measurement.

Arguments Build_state {World exception} _ _ _.
Arguments world {World exception} _.
Arguments stack {World exception} _.
Arguments trace {World exception} _.
Arguments ev_clock {exception} _.
Arguments ev_call {exception}.
Arguments ev_return {exception}.
Arguments ev_raise {exception} _.
Arguments ev_store {exception} _ _.
Arguments ev_move_construct {exception}.
Arguments ev_copy_construct {exception}.
Arguments returned {exception A} _.
Arguments raised {exception A} _.
Arguments undefined {exception A}.
Arguments returns {exception T} _.
Arguments throws {exception T} _.
Arguments constructors {World exception} T.
Arguments Build_constructors {World exception T} _ _.
Arguments move_constructor {World exception T} _.
Arguments copy_constructor {World exception T} _.
Arguments run_constructor {World exception T} _ _ _.
Arguments construct_from_rvalue {World exception T} _.
Arguments measured_region {World exception} _ _ _ {T} _ _.
Arguments time {World exception} _ _ _ {ResultType} _ _.
Arguments construct_from_reference {World exception T} _ _.
Arguments frame World exception T : clear implicits.
Arguments Build_frame {World exception T} _ _.
Arguments machine {World exception T} _.
Arguments temporaries {World exception T} _.
Arguments read {World exception T} _ _.
Arguments time_reference {World exception} _ _ _ {T} _ _ _.
Arguments time_void {World exception} _ _ _ _ _.


(** The declaration of [class Timer]: a public user-provided destructor,
    one private constructor [explicit Timer(Duration* duration)], two
    private data members (a [TimePoint] and a pointer to [Duration], both
    copyable), and the two overloads of [time] as friends.  It declares no
    copy or move member. *)


End timer.

(** ** The demo program ([main.cpp])

    A world for the callables of the demo: the steady clock in
    nanoseconds, the MPI wall clock in seconds, how late the scheduler
    wakes a sleeping thread, and the next number of the generator. *)

Module demo.

Record World := Build_World {
  steady_ns : Z;
  wtime : double;
  lateness : Z;
  next_random : Z
}.

Definition Clock_now (w : World) : Z * World := (steady_ns w, w).

Definition MPI_Wtime (w : World) : double * World := (wtime w, w).

(** [std::this_thread::sleep_for]: at least the time asked for. *)
Definition sleep_for (ns : Z) (w : World) : World :=
  {| steady_ns := steady_ns w + ns + lateness w;
     wtime := (wtime w + Z_to_double (ns + lateness w) / 1e9)%float;
     lateness := lateness w;
     next_random := next_random w |}.

(** [void doLongTask()] *)
Definition doLongTask : timer.callable World string unit :=
  fun w => (timer.returns tt, sleep_for 750000000 w).

(** [int doLongTaskWithReturn()] *)
Definition doLongTaskWithReturn : timer.callable World string Z :=
  fun w => (timer.returns (next_random w), sleep_for 1000000000 w).

(** A callable that raises after a millisecond. *)
Definition failingTask : timer.callable World string Z :=
  fun w => (timer.throws "failure"%string, sleep_for 1000000 w).

(** [int]: initialisation from an rvalue copies the value. *)
Definition int_constructors : @timer.constructors World string Z :=
  {| timer.move_constructor := Some (fun x w => (timer.returns x, w));
     timer.copy_constructor := Some (fun x w => (timer.returns x, w)) |}.

(** One second after the epoch of both clocks, on a machine that wakes
    sleepers 123 ns late. *)
Definition initial_world : World :=
  {| steady_ns := 1000000000; wtime := 1%float; lateness := 123; next_random := 42 |}.

Definition initial_state : timer.state World string :=
  timer.Build_state initial_world [] [].

End demo.

(** * Notions of the specification *)

(** The scale of a unit: seconds per unit. *)
Definition scale (U : chrono.duration_type) : Q := ratio.to_Q (chrono.Period U).

(** The precision-preserving catalogue and the integer-tick catalogue. *)
Definition precision_preserving_catalogue : list chrono.duration_type :=
  [ timer.picoseconds; timer.nanoseconds; timer.microseconds; timer.milliseconds;
    timer.seconds; timer.minutes; timer.hours; timer.days; timer.weeks;
    timer.years; timer.decades; timer.centuries; timer.millennia ].

Definition integer_tick_catalogue : list chrono.duration_type :=
  [ chrono.nanoseconds; chrono.microseconds; chrono.milliseconds;
    chrono.seconds; chrono.minutes; chrono.hours ].

(** A measurement record that holds the Duration of [D] seconds. *)
Definition record_of (D : double) : timer.TimeResult_void.t :=
  timer.TimeResult_void.make (chrono.Build_duration (T := timer.Duration_t) D).

(** The target types [as<R>()] accepts on a view over [U]. *)
Definition as_accepts (R : cpp_type) (U : chrono.duration_type) : bool :=
  is_same_v R U || is_floating_point_v R || is_integral_v R.

(** [record.getDurationView<U>().as<R>()]: what the build gives and, when
    it compiles, the value ([None] when a conversion on the way has no
    defined result). *)
Definition view_as (R : cpp_type) (U : chrono.duration_type) (D : double)
  : instantiation (option cpp_value) :=
  match timer.TimeResult_void.getDurationView U (record_of D) with
  | Some view => timer.TimeView.as_ R view
  | None => if as_accepts R U then compiles None else ill_formed
  end.

(** Truncation of a rational toward zero. *)
Definition Qtruncate (q : Q) : Z :=
  if Qle_bool 0 q then Qfloor q else Qceiling q.

(** The precision-preserving unit of the same scale as [U]. *)
Definition precise_twin (U : chrono.duration_type) : chrono.duration_type :=
  {| chrono.Rep := chrono.rep_double; chrono.Period := chrono.Period U |}.

(** The count of [D] seconds in the unit [U], computed in [double] as the
    accessors of the record compute it. *)
Definition double_count (U : chrono.duration_type) (D : double) : option double :=
  timer.TimeResult_void.getDurationCount (precise_twin U) (record_of D).

Section MeasurementNotions.

Context {World exception : Type}.
Variable Clock_now : World -> Z * World.
Variable MPI_Wtime : World -> double * World.
Variable BUILD_WITH_MPI_FLAG : bool.

(** The time point the configured clock shows in world [w], and the world
    after the read: [MPI_Wtime()] seconds with the flag, the ticks of the
    steady clock divided by 1e9 in [double] without. *)
Definition clock_reading (w : World) : timer.TimePoint * World :=
  if BUILD_WITH_MPI_FLAG then
    let (t, w') := MPI_Wtime w in
    (timer.Build_TimePoint (chrono.Build_duration (T := timer.Duration_t) t), w')
  else
    let (ticks, w') := Clock_now w in
    (timer.Build_TimePoint
       (chrono.Build_duration (T := timer.Duration_t)
          (Z_to_double ticks / 1e9)%float), w').

(** The event that ends a call. *)
Definition exit_event {T} (o : timer.outcome exception T) : timer.event exception :=
  match o with
  | timer.returns _ => timer.ev_return
  | timer.throws e => timer.ev_raise e
  end.

(** The constructor that initialises a [T] from an rvalue: the move
    constructor of a type that has one, its copy constructor otherwise. *)
Definition selected_constructor {T} (ops : timer.constructors (World := World) (exception := exception) T)
  : option (T -> timer.callable World exception T) :=
  match timer.move_constructor ops with
  | Some move => Some move
  | None => timer.copy_constructor ops
  end.

(** End minus start: the binary64 difference of the two time points, a
    Duration in seconds. *)
Definition elapsed_between (t0 t1 : timer.TimePoint) : timer.Duration :=
  chrono.Build_duration (T := timer.Duration_t)
    (chrono.count (timer.time_since_epoch t1)
     - chrono.count (timer.time_since_epoch t0))%float.

(** The events of one measurement whose slot is [p]. *)
Definition measurement_events {T} (p : timer.pointer) (t0 t1 : timer.TimePoint)
    (o : timer.outcome exception T) : list (timer.event exception) :=
  [timer.ev_clock t0; timer.ev_call; exit_event o; timer.ev_clock t1;
   timer.ev_store p (elapsed_between t0 t1)].

End MeasurementNotions.

(** The clock readings of the demo in steady-clock mode. *)
Definition demo_time_point (ticks : Z) : timer.TimePoint :=
  timer.Build_TimePoint
    (chrono.Build_duration (T := timer.Duration_t) (Z_to_double ticks / 1e9)%float).

(** The clock readings of the demo in MPI mode. *)
Definition demo_wtime (w : demo.World) : timer.TimePoint :=
  timer.Build_TimePoint (chrono.Build_duration (T := timer.Duration_t) (demo.wtime w)).

(** [std::string]: the copy constructor and the move constructor give
    the new object the value of the source. *)
Definition std_string_constructors
  : @timer.constructors demo.World string string :=
  {| timer.move_constructor := Some (fun x w => (timer.returns x, w));
     timer.copy_constructor := Some (fun x w => (timer.returns x, w)) |}.

(** A callable that returns a reference to a [std::string] of the
    caller, as [[&]() -> const std::string & { return name; }] does. *)
Definition reference_to_name : timer.callable demo.World string string :=
  fun w => (timer.returns "the name of a measurement"%string, w).

(** A callable that returns a reference to an [int] of the caller, as
    [[&]() -> int & { return answer; }] does. *)
Definition reference_to_answer : timer.callable demo.World string Z :=
  fun w => (timer.returns 42, w).

(** A duration type with a floating and with an integer representation. *)
Definition floating (P : ratio.t) : chrono.duration_type :=
  {| chrono.Rep := chrono.rep_double; chrono.Period := P |}.

Definition integer_tick (P : ratio.t) : chrono.duration_type :=
  {| chrono.Rep := chrono.rep_int64; chrono.Period := P |}.

(** The Durations between 2^-980 and 2^980 seconds in magnitude. *)
Definition in_normal_range (D : double) : bool :=
  (0x1p-980 <=? abs D)%float && (abs D <=? 0x1p+980)%float.

(** The Durations no conversion of the catalogue overflows or underflows
    on: zero, and those of the range above. *)
Definition in_conversion_range (D : double) : bool :=
  is_zero D || in_normal_range D.

(** A duration that is not NaN and not negative (a zero of either sign,
    a positive number or plus infinity). *)
Definition is_nonnegative (d : timer.Duration) : bool := (0 <=? chrono.count d)%float.

(** The relative error of two roundings to nearest. *)
Definition two_roundings : Q := (1 # 2 ^ 52) + (1 # 2 ^ 106).

(** [r.getDurationView<U>().as<double>()] *)
Definition as_double (U : chrono.duration_type) (D : double) : option double :=
  match view_as ty_double U D with
  | compiles (Some (v_double c)) => Some c
  | _ => None
  end.

(** [... getDurationView<timer::microseconds>().as<double>() / 1'000'000.0],
    [... getDurationView<timer::milliseconds>().as<double>() / 1000.0] and
    [... getDurationView<timer::microseconds>().as<double>() / 1000.0] *)
Definition seconds_from_microseconds (D : double) : option double :=
  option_map (fun c => (c / 1000000)%float) (as_double timer.microseconds D).

Definition seconds_from_milliseconds (D : double) : option double :=
  option_map (fun c => (c / 1000)%float) (as_double timer.milliseconds D).

Definition milliseconds_from_microseconds (D : double) : option double :=
  option_map (fun c => (c / 1000)%float) (as_double timer.microseconds D).

(** ** Notions of the proofs *)

(** The arithmetic of [duration_cast] from seconds in [double] to the
    period [P]: a multiplication by [CF::num], a division by [CF::den]. *)
Definition scaled (P : ratio.t) (x : double) : double :=
  let CF := ratio.ratio_divide (chrono.Period timer.Duration_t) P in
  let num := ratio.num CF in
  let den := ratio.den CF in
  if (num =? 1) && (den =? 1) then x
  else if den =? 1 then (x * Z_to_double num)%float
  else if num =? 1 then (x / Z_to_double den)%float
  else (x * Z_to_double num / Z_to_double den)%float.

(** The sign of a float that has one. *)
Definition sign_is (negative : bool) (x : spec_float) : Prop :=
  match x with
  | S754_finite s _ _ => s = negative
  | _ => True
  end.

(** The exact quantity the rounding step of binary64 works on is a
    fraction [a / b] of two integers, in units of a power of two. *)

(** [rec] locates [a / b]: its mantissa is the integer part, and its round
    and sticky bits say where the fraction lies in the unit interval. *)
Definition locates (a b : Z) (rec : shr_record) : Prop :=
  let m := shr_m rec in
  let t := 2 * (a - m * b) in
  0 <= m /\ m * b <= a < (m + 1) * b /\
  match shr_r rec, shr_s rec with
  | false, false => t = 0
  | false, true => 0 < t < b
  | true, false => t = b
  | true, true => b < t
  end.

(** The sign of a float that is not NaN. *)
Definition has_sign (negative : bool) (x : spec_float) : Prop :=
  match x with
  | S754_zero s | S754_infinity s | S754_finite s _ _ => s = negative
  | S754_nan => False
  end.

(** The magnitude of a finite float. *)
Definition magnitude (m : positive) (e : Z) : Q := inject_Z (Zpos m) * 2 ^ e.

(** [F] is a binary64 value nearest to the positive [v] (a mantissa [m1]
    of 53 bits in the binade of [v], [2 ^ k] the unit in its last place),
    the even mantissa when [v] is halfway between two. *)
Definition nearest53 (v F : Q) : Prop :=
  exists k m1 : Z,
    2 ^ 52 <= m1 <= 2 ^ 53
    /\ (F == inject_Z m1 * 2 ^ k
        /\ inject_Z (2 ^ 52) * 2 ^ k <= v
        /\ v < inject_Z (2 ^ 53) * 2 ^ k
        /\ - 2 ^ k <= 2 * (v - F) <= 2 ^ k
        /\ ((2 * (v - F) == 2 ^ k \/ 2 * (F - v) == 2 ^ k) -> Z.even m1 = true))%Q.

(** Zero, or finite with an exponent well inside the range of binary64. *)
Definition in_exponent_range (x : spec_float) : Prop :=
  match x with
  | S754_zero _ => True
  | S754_finite _ m e => Zdigits2 (Zpos m) <= 53 /\ -1021 <= e <= 969
  | _ => False
  end.

(** * Properties *)

(** ** The measured region *)

Section MeasurementFacts.

Context {World exception : Type}.
Variable Clock_now : World -> Z * World.
Variable MPI_Wtime : World -> double * World.
Variable BUILD_WITH_MPI_FLAG : bool.

Abbreviation state := (timer.state World exception).
Abbreviation reading := (clock_reading Clock_now MPI_Wtime BUILD_WITH_MPI_FLAG).
Abbreviation Timer_Timer := (timer.Timer_Timer World exception Clock_now MPI_Wtime BUILD_WITH_MPI_FLAG).
Abbreviation Timer_destroy := (timer.Timer_destroy World exception Clock_now MPI_Wtime BUILD_WITH_MPI_FLAG).

Lemma steady_time_point (ticks : Z) :
  chrono.duration_cast timer.Duration_t
    (chrono.Build_duration (T := chrono.steady_clock_duration) ticks)
  = Some (chrono.Build_duration (T := timer.Duration_t) (Z_to_double ticks / 1e9)%float).
Proof. reflexivity. Qed.

(** Construction reads the clock once and touches nothing else. *)
Lemma Timer_Timer_run (p : timer.pointer) (s : state) t0 w1 :
  reading (timer.world s) = (t0, w1) ->
  Timer_Timer p s
  = (timer.returned (timer.Build_Timer t0 p),
     timer.Build_state w1 (timer.stack s) (timer.trace s ++ [timer.ev_clock t0])).
Proof.
  unfold clock_reading, timer.Timer_Timer, timer.bind, timer.emit, timer.ret.
  destruct BUILD_WITH_MPI_FLAG.
  - unfold timer.time_point_of_MPI_Wtime.
    destruct (MPI_Wtime (timer.world s)) as [t w]. intros [= <- <-]. reflexivity.
  - unfold timer.time_point_cast_Clock_now.
    destruct (Clock_now (timer.world s)) as [n w]. rewrite steady_time_point.
    intros [= <- <-]. reflexivity.
Qed.

(** Destruction reads the clock once and stores end minus start through
    the pointer taken at construction. *)
Lemma Timer_destroy_run (self : timer.Timer) (s : state) t1 w3 slot :
  reading (timer.world s) = (t1, w3) ->
  timer.stack s !! timer.m_TimeReference self = Some slot ->
  let d := timer.TimePoint_sub t1 (timer.m_StartTimePoint self) in
  Timer_destroy self s
  = (timer.returned tt,
     timer.Build_state w3
       (<[timer.m_TimeReference self := Some d]> (timer.stack s))
       (timer.trace s ++ [timer.ev_clock t1; timer.ev_store (timer.m_TimeReference self) d])).
Proof.
  intros Hr Hs d. subst d. revert Hr.
  unfold clock_reading, timer.Timer_destroy, timer.bind, timer.emit, timer.store.
  destruct BUILD_WITH_MPI_FLAG.
  - unfold timer.time_point_of_MPI_Wtime.
    destruct (MPI_Wtime (timer.world s)) as [t w]. intros [= <- <-].
    cbn. rewrite Hs, <- app_assoc. reflexivity.
  - unfold timer.time_point_cast_Clock_now.
    destruct (Clock_now (timer.world s)) as [n w]. rewrite steady_time_point.
    intros [= <- <-]. cbn. rewrite Hs, <- app_assoc. reflexivity.
Qed.

(** The call itself: the callable runs in the world it is given. *)
Lemma invoke_run {T} (toTime : timer.callable World exception T) (s : state) o w2 :
  toTime (timer.world s) = (o, w2) ->
  timer.invoke World exception toTime s
  = (match o with
     | timer.returns v => timer.returned v
     | timer.throws e => timer.raised e
     end,
     timer.Build_state w2 (timer.stack s)
       (timer.trace s ++ [timer.ev_call; exit_event o])).
Proof.
  intros H. unfold timer.invoke, timer.bind, timer.emit. cbn. rewrite H.
  destruct o; cbn; rewrite <- app_assoc; reflexivity.
Qed.

(** The measured region [{ Timer timer(p); toTime(); }] on an existing
    slot [p]: on both exit paths the slot holds end minus start when the
    region is left. *)
Lemma measured_region_run {T} (toTime : timer.callable World exception T)
    (p : timer.pointer) (s : state) slot t0 w1 o w2 t1 w3 :
  timer.stack s !! p = Some slot ->
  reading (timer.world s) = (t0, w1) ->
  toTime w1 = (o, w2) ->
  reading w2 = (t1, w3) ->
  timer.measured_region Clock_now MPI_Wtime BUILD_WITH_MPI_FLAG toTime p s
  = (match o with
     | timer.returns v => timer.returned v
     | timer.throws e => timer.raised e
     end,
     timer.Build_state w3
       (<[p := Some (elapsed_between t0 t1)]> (timer.stack s))
       (timer.trace s ++ measurement_events p t0 t1 o)).
Proof.
  intros Hs H0 Hf H1. unfold timer.measured_region. unfold timer.bind at 1.
  rewrite (Timer_Timer_run p s t0 w1 H0).
  unfold timer.scope_exit.
  rewrite (invoke_run toTime _ o w2) by exact Hf. cbn [timer.world timer.stack timer.trace].
  set (s2 := timer.Build_state w2 _ _).
  pose proof (Timer_destroy_run (timer.Build_Timer t0 p) s2 t1 w3 slot H1 Hs) as Hd.
  cbn [timer.m_TimeReference timer.m_StartTimePoint] in Hd.
  destruct o; rewrite Hd; subst s2; cbn [timer.world timer.stack timer.trace];
    rewrite <- !app_assoc; reflexivity.
Qed.

Lemma new_slot_lookup (l : list (option timer.Duration)) init :
  (l ++ [init]) !! length l = Some init.
Proof. apply list_lookup_middle. reflexivity. Qed.

Lemma new_slot_insert (l : list (option timer.Duration)) init x :
  <[length l := x]> (l ++ [init]) = l ++ [x].
Proof.
  replace (length l) with (length l + 0)%nat by lia.
  rewrite insert_app_r. reflexivity.
Qed.

(** The measured region on the slot a [local] has just pushed. *)
Lemma measured_region_on_new_slot {T} (toTime : timer.callable World exception T)
    (s : state) init t0 w1 o w2 t1 w3 :
  reading (timer.world s) = (t0, w1) ->
  toTime w1 = (o, w2) ->
  reading w2 = (t1, w3) ->
  timer.measured_region Clock_now MPI_Wtime BUILD_WITH_MPI_FLAG toTime
    (length (timer.stack s))
    (timer.Build_state (timer.world s) (timer.stack s ++ [init]) (timer.trace s))
  = (match o with
     | timer.returns v => timer.returned v
     | timer.throws e => timer.raised e
     end,
     timer.Build_state w3 (timer.stack s ++ [Some (elapsed_between t0 t1)])
       (timer.trace s ++ measurement_events (length (timer.stack s)) t0 t1 o)).
Proof.
  intros H0 Hf H1.
  rewrite (measured_region_run toTime (length (timer.stack s))
             (timer.Build_state (timer.world s) (timer.stack s ++ [init]) (timer.trace s))
             init t0 w1 o w2 t1 w3 (new_slot_lookup _ _) H0 Hf H1).
  cbn [timer.world timer.stack timer.trace]. rewrite new_slot_insert. reflexivity.
Qed.

(** A complete run of the void overload. *)
Lemma time_void_run (toTime : timer.callable World exception unit)
    (s : state) t0 w1 o w2 t1 w3 :
  reading (timer.world s) = (t0, w1) ->
  toTime w1 = (o, w2) ->
  reading w2 = (t1, w3) ->
  timer.time_void Clock_now MPI_Wtime BUILD_WITH_MPI_FLAG toTime s
  = (match o with
     | timer.returns _ =>
         timer.returned (timer.TimeResult_void.make (elapsed_between t0 t1))
     | timer.throws e => timer.raised e
     end,
     timer.Build_state w3 (timer.stack s)
       (timer.trace s ++ measurement_events (length (timer.stack s)) t0 t1 o)).
Proof.
  intros H0 Hf H1.
  unfold timer.time_void, timer.local. unfold timer.scope_exit at 1.
  unfold timer.bind at 1.
  rewrite (measured_region_on_new_slot toTime s _ t0 w1 o w2 t1 w3 H0 Hf H1).
  destruct o as [[]|e]; unfold timer.bind, timer.load, timer.ret;
    cbn [timer.world timer.stack timer.trace];
    rewrite ?new_slot_lookup; cbn [timer.world timer.stack timer.trace];
    rewrite take_app_length; reflexivity.
Qed.

(** A complete run of the value-returning overload, for a type whose
    rvalue initialisation runs the constructor [ctor] and logs [ev]: the
    constructor runs in the world the destructor left, and an exception
    of the constructor leaves [time] in place of the record. *)
Lemma time_run {ResultType} (ops : timer.constructors ResultType)
    (ctor : ResultType -> timer.callable World exception ResultType)
    (ev : timer.event exception)
    (toTime : timer.callable World exception ResultType)
    (s : state) t0 w1 o w2 t1 w3 :
  timer.construct_from_rvalue ops = compiles (timer.run_constructor ev ctor) ->
  reading (timer.world s) = (t0, w1) ->
  toTime w1 = (o, w2) ->
  reading w2 = (t1, w3) ->
  exists m,
    timer.time Clock_now MPI_Wtime BUILD_WITH_MPI_FLAG ops toTime = compiles m /\
    m s
    = match o with
      | timer.returns v =>
          (match fst (ctor v w3) with
           | timer.returns x =>
               timer.returned (timer.TimeResult.make x (elapsed_between t0 t1))
           | timer.throws e => timer.raised e
           end,
           timer.Build_state (snd (ctor v w3)) (timer.stack s)
             (timer.trace s ++ measurement_events (length (timer.stack s)) t0 t1 o ++ [ev]))
      | timer.throws e =>
          (timer.raised e,
           timer.Build_state w3 (timer.stack s)
             (timer.trace s ++ measurement_events (length (timer.stack s)) t0 t1 o))
      end.
Proof.
  intros Hc H0 Hf H1. unfold timer.time. rewrite Hc.
  eexists. split; [reflexivity|].
  unfold timer.local. unfold timer.scope_exit at 1.
  unfold timer.bind at 1.
  rewrite (measured_region_on_new_slot toTime s _ t0 w1 o w2 t1 w3 H0 Hf H1).
  destruct o as [v|e].
  - unfold timer.bind, timer.run_constructor, timer.bind, timer.emit, timer.load, timer.ret.
    cbn [timer.world timer.stack timer.trace].
    destruct (ctor v w3) as [[x|e] w4]; cbn [fst snd timer.world timer.stack timer.trace];
      rewrite ?new_slot_lookup; cbn [timer.world timer.stack timer.trace];
      rewrite take_app_length, <- ?app_assoc; reflexivity.
  - cbn [timer.world timer.stack timer.trace].
    rewrite take_app_length. reflexivity.
Qed.

(** Overload resolution for the initialisation from an rvalue: the move
    constructor when the type declares one, the copy constructor
    otherwise. *)
Lemma construct_from_rvalue_cases {T} (ops : timer.constructors T) c :
  timer.construct_from_rvalue (World := World) (exception := exception) ops
  = compiles c ->
  exists ev ctor,
    c = timer.run_constructor ev ctor
    /\ ((timer.move_constructor ops = Some ctor /\ ev = timer.ev_move_construct)
        \/ (timer.move_constructor ops = None
            /\ timer.copy_constructor ops = Some ctor
            /\ ev = timer.ev_copy_construct)).
Proof.
  unfold timer.construct_from_rvalue.
  destruct (timer.move_constructor ops) as [mv|];
    [|destruct (timer.copy_constructor ops) as [cp|]]; intros [= <-].
  - exists timer.ev_move_construct, mv. auto.
  - exists timer.ev_copy_construct, cp. auto.
Qed.

Lemma time_compiles {T} (ops : timer.constructors T)
    (toTime : timer.callable World exception T) m :
  timer.time Clock_now MPI_Wtime BUILD_WITH_MPI_FLAG ops toTime = compiles m ->
  exists c, timer.construct_from_rvalue ops = compiles c.
Proof.
  unfold timer.time.
  destruct (timer.construct_from_rvalue ops) as [c|]; [eauto|discriminate].
Qed.

(** The value-returning overload, whenever it compiles. *)
Lemma time_run_selected {ResultType} (ops : timer.constructors ResultType)
    (toTime : timer.callable World exception ResultType) m
    (s : state) t0 w1 o w2 t1 w3 :
  timer.time Clock_now MPI_Wtime BUILD_WITH_MPI_FLAG ops toTime = compiles m ->
  reading (timer.world s) = (t0, w1) ->
  toTime w1 = (o, w2) ->
  reading w2 = (t1, w3) ->
  exists ev ctor,
    ((timer.move_constructor ops = Some ctor /\ ev = timer.ev_move_construct)
     \/ (timer.move_constructor ops = None
         /\ timer.copy_constructor ops = Some ctor
         /\ ev = timer.ev_copy_construct))
    /\ m s
       = match o with
         | timer.returns v =>
             (match fst (ctor v w3) with
              | timer.returns x =>
                  timer.returned (timer.TimeResult.make x (elapsed_between t0 t1))
              | timer.throws e => timer.raised e
              end,
              timer.Build_state (snd (ctor v w3)) (timer.stack s)
                (timer.trace s
                   ++ measurement_events (length (timer.stack s)) t0 t1 o ++ [ev]))
         | timer.throws e =>
             (timer.raised e,
              timer.Build_state w3 (timer.stack s)
                (timer.trace s ++ measurement_events (length (timer.stack s)) t0 t1 o))
         end.
Proof.
  intros Hm H0 Hf H1.
  destruct (time_compiles ops toTime m Hm) as [c Hc].
  destruct (construct_from_rvalue_cases ops c Hc) as (ev & ctor & -> & Hsel).
  destruct (time_run ops ctor ev toTime s t0 w1 o w2 t1 w3 Hc H0 Hf H1)
    as (m' & Hm' & Hrun).
  rewrite Hm in Hm'. injection Hm' as <-.
  exists ev, ctor. split; [exact Hsel | exact Hrun].
Qed.

(** The constructor that initialises the object the lambda returns. *)
Lemma construct_from_reference_cases {T} (ResultType : cpp_reference.reference)
    (ops : timer.constructors T) c :
  timer.construct_from_reference (World := World) (exception := exception)
    ResultType ops = compiles c ->
  exists ev ctor,
    c = timer.run_constructor ev ctor
    /\ ((ResultType = cpp_reference.rvalue_reference false
         /\ timer.move_constructor ops = Some ctor
         /\ ev = timer.ev_move_construct)
        \/ ((ResultType <> cpp_reference.rvalue_reference false
             \/ timer.move_constructor ops = None)
            /\ timer.copy_constructor ops = Some ctor
            /\ ev = timer.ev_copy_construct)).
Proof.
  unfold timer.construct_from_reference, timer.construct_from_rvalue.
  destruct ResultType as [[|]|[|]];
    destruct (timer.move_constructor ops) as [mv|];
    destruct (timer.copy_constructor ops) as [cp|]; intros [= <-];
    eexists; eexists; (split; [reflexivity|]);
    first [ left; repeat split; reflexivity
          | right; split;
            [first [left; discriminate | right; reflexivity] | split; reflexivity] ].
Qed.

(** A complete run of [time] on a callable that returns a reference the
    local [result] can be bound to. *)
Lemma time_reference_run {T} (ResultType : cpp_reference.reference)
    (ops : timer.constructors T)
    (ev : timer.event exception) (ctor : T -> timer.callable World exception T)
    (toTime : timer.callable World exception T)
    (f : timer.frame World exception T) t0 w1 o w2 :
  timer.construct_from_reference ResultType ops
  = compiles (timer.run_constructor ev ctor) ->
  ResultType <> cpp_reference.lvalue_reference false ->
  reading (timer.world (timer.machine f))
  = (t0, w1) ->
  toTime w1 = (o, w2) ->
  let slot := length (timer.stack (timer.machine f)) in
  exists m,
    timer.time_reference Clock_now MPI_Wtime BUILD_WITH_MPI_FLAG ResultType ops toTime
    = compiles m
    /\ m f
       = match o with
         | timer.throws e =>
             let (t1, w3) := reading w2 in
             (timer.raised e,
              timer.Build_frame
                (timer.Build_state w3 (timer.stack (timer.machine f))
                   (timer.trace (timer.machine f) ++
                      [timer.ev_clock t0; timer.ev_call; timer.ev_raise e;
                       timer.ev_clock t1;
                       timer.ev_store slot (elapsed_between t0 t1)]))
                (timer.temporaries f))
         | timer.returns v =>
             let (t1, w3) :=
               reading (snd (ctor v w2)) in
             (match fst (ctor v w2) with
              | timer.returns x =>
                  timer.returned
                    (timer.TimeResult.make (length (timer.temporaries f))
                       (elapsed_between t0 t1))
              | timer.throws e => timer.raised e
              end,
              timer.Build_frame
                (timer.Build_state w3 (timer.stack (timer.machine f))
                   (timer.trace (timer.machine f) ++
                      [timer.ev_clock t0; timer.ev_call; timer.ev_return; ev;
                       timer.ev_clock t1;
                       timer.ev_store slot (elapsed_between t0 t1)]))
                (timer.temporaries f))
         end.
Proof.
  intros Hc Hr H0 Hf slot. subst slot. unfold timer.time_reference. rewrite Hc.
  assert (Hb : cpp_reference.binds ResultType timer.lambda_call
               && cpp_reference.binds ResultType (timer.cast_of_result ResultType)
               = true).
  { destruct ResultType as [[|]|[|]]; try reflexivity. contradiction Hr. reflexivity. }
  rewrite Hb. eexists. split; [reflexivity|].
  unfold timer.local_frame, timer.release. unfold timer.bind_frame at 1.
  unfold timer.lift at 1. cbn [timer.machine timer.temporaries].
  set (p := length (timer.stack (timer.machine f))).
  set (s1 := timer.Build_state (timer.world (timer.machine f)) _ _).
  unfold timer.bind at 1.
  rewrite (Timer_Timer_run p s1 t0 w1 H0).
  unfold timer.scope_exit. unfold timer.bind at 1.
  rewrite (invoke_run toTime _ o w2) by exact Hf.
  subst s1. cbn [timer.world timer.stack timer.trace].
  destruct o as [v|e].
  - unfold timer.run_constructor, timer.bind, timer.emit.
    cbn [timer.world timer.stack timer.trace].
    destruct (ctor v w2) as [oc w2'] eqn:Hctor. cbn [fst snd].
    destruct (reading w2') as [t1 w3] eqn:H1.
    set (s2 := timer.Build_state w2' _ _).
    pose proof (Timer_destroy_run
                  (timer.Build_Timer t0 p) s2 t1 w3 None H1 (new_slot_lookup _ _)) as Hd.
    cbn [timer.m_TimeReference timer.m_StartTimePoint] in Hd.
    destruct oc as [x|e]; rewrite Hd; subst s2;
      cbn [timer.world timer.stack timer.trace timer.machine timer.temporaries].
    + unfold timer.temporary, timer.release, timer.bind_frame, timer.lift, timer.load,
        timer.ret_frame.
      cbn [timer.world timer.stack timer.trace timer.machine timer.temporaries].
      subst p. rewrite new_slot_insert, new_slot_lookup.
      cbn [timer.world timer.stack timer.trace timer.machine timer.temporaries].
      rewrite !take_app_length, <- !app_assoc. reflexivity.
    + subst p. rewrite new_slot_insert.
      rewrite !take_app_length, <- !app_assoc. reflexivity.
  - destruct (reading w2) as [t1 w3] eqn:H1.
    set (s2 := timer.Build_state w2 _ _).
    pose proof (Timer_destroy_run
                  (timer.Build_Timer t0 p) s2 t1 w3 None H1 (new_slot_lookup _ _)) as Hd.
    cbn [timer.m_TimeReference timer.m_StartTimePoint] in Hd.
    rewrite Hd. subst s2 p.
    cbn [timer.world timer.stack timer.trace timer.machine timer.temporaries].
    rewrite new_slot_insert, !take_app_length, <- !app_assoc. reflexivity.
Qed.

(** [time] on a callable that returns a reference, whenever it compiles:
    the reference is not a [T&], and one constructor initialises the
    object the lambda returns. *)
Lemma time_reference_compiles {T} (ResultType : cpp_reference.reference)
    (ops : timer.constructors T) (toTime : timer.callable World exception T) m :
  timer.time_reference Clock_now MPI_Wtime BUILD_WITH_MPI_FLAG ResultType ops toTime
  = compiles m ->
  ResultType <> cpp_reference.lvalue_reference false
  /\ exists ev ctor,
       timer.construct_from_reference ResultType ops
       = compiles (timer.run_constructor ev ctor)
       /\ ((ResultType = cpp_reference.rvalue_reference false
            /\ timer.move_constructor ops = Some ctor
            /\ ev = timer.ev_move_construct)
           \/ ((ResultType <> cpp_reference.rvalue_reference false
                \/ timer.move_constructor ops = None)
               /\ timer.copy_constructor ops = Some ctor
               /\ ev = timer.ev_copy_construct)).
Proof.
  intros Hm. split.
  - intros ->. revert Hm. unfold timer.time_reference.
    destruct (timer.construct_from_reference _ ops); discriminate.
  - assert (Hc : exists c, timer.construct_from_reference (World := World)
                             (exception := exception) ResultType ops = compiles c).
    { revert Hm. unfold timer.time_reference.
      destruct (timer.construct_from_reference ResultType ops); [eauto|discriminate]. }
    destruct Hc as [c Hc].
    destruct (construct_from_reference_cases ResultType ops c Hc) as (ev & ctor & -> & Hsel).
    eauto.
Qed.


(** C6. When the callable raises, [time] does not catch: the same failure
    leaves [time], in either overload, so no record is returned; before
    that the destructor has read the clock and written end minus start,
    the binary64 difference of the two time points, into the slot, which
    holds that Duration when the measured region is left and dies with
    [time]'s frame.  The same holds for a callable whose result type is a
    reference. *)
Theorem time_propagates_failure (s : state) t0 w1 w2 t1 w3 (e : exception) :
  reading (timer.world s) = (t0, w1) ->
  reading w2 = (t1, w3) ->
  let elapsed :=
    chrono.Build_duration (T := timer.Duration_t)
      (chrono.count (timer.time_since_epoch t1)
       - chrono.count (timer.time_since_epoch t0))%float in
  let slot := length (timer.stack s) in
  let events :=
    [timer.ev_clock t0; timer.ev_call; timer.ev_raise e; timer.ev_clock t1;
     timer.ev_store slot elapsed] in
  (forall T (toTime : timer.callable World exception T) init,
      toTime w1 = (timer.throws e, w2) ->
      timer.measured_region Clock_now MPI_Wtime BUILD_WITH_MPI_FLAG toTime slot
        (timer.Build_state (timer.world s) (timer.stack s ++ [init]) (timer.trace s))
      = (timer.raised e,
         timer.Build_state w3 (timer.stack s ++ [Some elapsed])
           (timer.trace s ++ events)))
  /\
  (forall (toTime : timer.callable World exception unit),
      toTime w1 = (timer.throws e, w2) ->
      timer.time_void Clock_now MPI_Wtime BUILD_WITH_MPI_FLAG toTime s
      = (timer.raised e,
         timer.Build_state w3 (timer.stack s) (timer.trace s ++ events)))
  /\
  (forall ResultType (ops : timer.constructors ResultType)
          (toTime : timer.callable World exception ResultType) m,
      timer.time Clock_now MPI_Wtime BUILD_WITH_MPI_FLAG ops toTime = compiles m ->
      toTime w1 = (timer.throws e, w2) ->
      m s = (timer.raised e,
             timer.Build_state w3 (timer.stack s) (timer.trace s ++ events)))
  /\
  (forall T (ResultType : cpp_reference.reference) (ops : timer.constructors T)
          (toTime : timer.callable World exception T) m temporaries,
      timer.time_reference Clock_now MPI_Wtime BUILD_WITH_MPI_FLAG ResultType ops toTime
      = compiles m ->
      toTime w1 = (timer.throws e, w2) ->
      m (timer.Build_frame s temporaries)
      = (timer.raised e,
         timer.Build_frame
           (timer.Build_state w3 (timer.stack s) (timer.trace s ++ events))
           temporaries)).
Proof.
  intros H0 H1 elapsed slot events. split; [|split; [|split]].
  - intros T toTime init Hf.
    exact (measured_region_on_new_slot toTime s init t0 w1 _ w2 t1 w3 H0 Hf H1).
  - intros toTime Hf.
    exact (time_void_run toTime s t0 w1 _ w2 t1 w3 H0 Hf H1).
  - intros T ops toTime m Hm Hf.
    destruct (time_run_selected ops toTime m s t0 w1 _ w2 t1 w3 Hm H0 Hf H1)
      as (ev & ctor & _ & Hrun).
    exact Hrun.
  - intros T ResultType ops toTime m temps Hm Hf.
    destruct (time_reference_compiles ResultType ops toTime m Hm)
      as (Hr & ev & ctor & Hc & _).
    destruct (time_reference_run ResultType ops ev ctor toTime
                (timer.Build_frame s temps) t0 w1 _ w2 Hc Hr H0 Hf)
      as (m' & Hm' & Hrun).
    rewrite Hm in Hm'. injection Hm' as <-. rewrite Hrun, H1. reflexivity.
Qed.


End MeasurementFacts.

(** C7 fails for a callable that returns a reference.  With the result
    type [const std::string &], [time] compiles and returns a record, and
    the captured result of the record refers to a temporary of [time]
    that is gone when the caller has the record: reading it has no
    defined value, where the claim has the string the callable returned.
    With the result type [int &], [time] does not compile. *)
Lemma captured_reference_dangles :
  let f0 := timer.Build_frame demo.initial_state [] in
  reference_to_name (timer.world demo.initial_state)
  = (timer.returns "the name of a measurement"%string, demo.initial_world)
  /\ (exists m record f1,
         timer.time_reference demo.Clock_now demo.MPI_Wtime false
           (cpp_reference.lvalue_reference true) std_string_constructors
           reference_to_name = compiles m
         /\ m f0 = (timer.returned record, f1)
         /\ timer.temporaries f1 = []
         /\ timer.read (timer.TimeResult.functionResult record) f1
            = (timer.undefined, f1))
  /\ timer.time_reference demo.Clock_now demo.MPI_Wtime false
       (cpp_reference.lvalue_reference false) demo.int_constructors
       reference_to_answer = ill_formed.
Proof.
  intros f0. split; [reflexivity|]. split; [|reflexivity].
  assert (H0 : clock_reading demo.Clock_now demo.MPI_Wtime false
                 (timer.world (timer.machine f0))
               = (demo_time_point 1000000000, demo.initial_world)) by reflexivity.
  destruct (time_reference_run demo.Clock_now demo.MPI_Wtime false
              (cpp_reference.lvalue_reference true) std_string_constructors
              timer.ev_copy_construct (fun x w => (timer.returns x, w))
              reference_to_name f0 _ _
              (timer.returns "the name of a measurement"%string) demo.initial_world
              eq_refl ltac:(discriminate) H0 eq_refl) as (m & Hm & Hrun).
  assert (H1 : clock_reading demo.Clock_now demo.MPI_Wtime false demo.initial_world
               = (demo_time_point 1000000000, demo.initial_world)) by reflexivity.
  cbn [fst snd] in Hrun. rewrite H1 in Hrun.
  exists m. eexists. eexists. split; [exact Hm|]. split; [exact Hrun|].
  split; reflexivity.
Qed.


(** A callable that raises, under [time] in MPI mode. *)
Lemma time_propagates_failure_witness :
  let w2 := demo.sleep_for 1000000 demo.initial_world in
  let elapsed := elapsed_between (demo_wtime demo.initial_world) (demo_wtime w2) in
  clock_reading demo.Clock_now demo.MPI_Wtime true (timer.world demo.initial_state)
  = (demo_wtime demo.initial_world, demo.initial_world)
  /\ clock_reading demo.Clock_now demo.MPI_Wtime true w2 = (demo_wtime w2, w2)
  /\ demo.failingTask demo.initial_world = (timer.throws "failure"%string, w2)
  /\ exists m,
       timer.time demo.Clock_now demo.MPI_Wtime true demo.int_constructors
         demo.failingTask = compiles m
       /\ m demo.initial_state
          = (timer.raised "failure"%string,
             timer.Build_state w2 []
               [timer.ev_clock (demo_wtime demo.initial_world); timer.ev_call;
                timer.ev_raise "failure"%string; timer.ev_clock (demo_wtime w2);
                timer.ev_store 0%nat elapsed]).
Proof.
  intros w2 elapsed.
  split; [reflexivity|]. split; [reflexivity|]. split; [reflexivity|].
  eexists. split; [reflexivity|].
  exact (proj1 (proj2 (proj2
                  (time_propagates_failure demo.Clock_now demo.MPI_Wtime true
                     demo.initial_state (demo_wtime demo.initial_world)
                     demo.initial_world w2 (demo_wtime w2) w2 "failure"%string
                     eq_refl eq_refl)))
           Z demo.int_constructors demo.failingTask _ eq_refl eq_refl).
Defined.


(** ** The unit catalogue *)

(** C2, as written, fails: the scale of [timer::decades] is not
    315 695 520 seconds. *)
Lemma decades_scale_as_written_fails :
  ~ (scale timer.decades == 315695520
     /\ scale timer.decades == 10 * scale timer.years)%Q.
Proof. intros [H _]. vm_compute in H. discriminate H. Qed.

(** C2 (amended). The scale of [timer::decades] is 315 569 520 seconds per
    unit, ten times the scale of [timer::years], 31 556 952 seconds. *)
Theorem decades_scale :
  (scale timer.decades == 315569520
   /\ scale timer.years == 31556952
   /\ scale timer.decades == 10 * scale timer.years)%Q.
Proof. repeat split. Qed.

(** C3, as written, fails: the scales of [timer::centuries] and
    [timer::millennia] are 100 and 1000 times the scale of [timer::years]. *)
Lemma centuries_millennia_as_written_fails :
  ~ (~ scale timer.centuries == 100 * scale timer.years
     /\ ~ scale timer.millennia == 1000 * scale timer.years)%Q.
Proof. intros [H _]. apply H. reflexivity. Qed.

(** C3 (amended). The scales of [timer::centuries] (3 155 695 200 s) and
    [timer::millennia] (31 556 952 000 s) are exactly 100 and 1000 times
    the scale of [timer::years], that is 10 and 100 times the scale of
    [timer::decades]. *)
Theorem centuries_millennia_scale :
  (scale timer.centuries == 3155695200
   /\ scale timer.millennia == 31556952000
   /\ scale timer.centuries == 100 * scale timer.years
   /\ scale timer.millennia == 1000 * scale timer.years
   /\ scale timer.centuries == 10 * scale timer.decades
   /\ scale timer.millennia == 100 * scale timer.decades)%Q.
Proof. repeat split. Qed.

(** ** The class [Timer] *)




(** ** Conversion of a [double] to an integer *)

Lemma Qpower_2_pos (p : positive) : (2 ^ Zpos p == inject_Z (2 ^ Zpos p))%Q.
Proof. rewrite Zpower_Qpower by lia. reflexivity. Qed.

(** The value of a finite float as a fraction. *)
Lemma SF2Q_finite (s : bool) (m : positive) (e : Z) :
  (SF2Q (S754_finite s m e)
   == match e with
      | Z0 => inject_Z (cond_Zopp s (Zpos m))
      | Zpos p => inject_Z (cond_Zopp s (Zpos m) * 2 ^ Zpos p)
      | Zneg p => cond_Zopp s (Zpos m) # Pos.pow 2 p
      end)%Q.
Proof.
  unfold SF2Q. destruct e as [|p|p].
  - cbn [Qpower]. ring.
  - rewrite Qpower_2_pos, inject_Z_mult. reflexivity.
  - change (2 ^ Zneg p)%Q with (/ 2 ^ Zpos p)%Q. rewrite Qpower_2_pos.
    rewrite <- Pos2Z.inj_pow.
    unfold Qeq, Qmult, Qinv, inject_Z. cbn [Qnum Qden]. lia.
Qed.

Lemma Qtruncate_opp (q : Q) : (0 < q)%Q -> Qtruncate (- q) = (- Qtruncate q)%Z.
Proof.
  intros Hq. unfold Qtruncate.
  destruct (Qle_bool 0 q) eqn:H1; [|rewrite <- not_true_iff_false, Qle_bool_iff in H1;
                                    exfalso; apply H1, Qlt_le_weak, Hq].
  destruct (Qle_bool 0 (- q)) eqn:H2.
  - rewrite Qle_bool_iff in H2. exfalso.
    apply (Qlt_irrefl 0). apply Qlt_le_trans with q; [exact Hq|].
    apply Qopp_le_compat in H2. rewrite Qopp_involutive in H2. exact H2.
  - unfold Qceiling. rewrite Qopp_involutive. reflexivity.
Qed.

(** Discarding the fractional part of a finite float is truncation of
    its value toward zero. *)
Lemma SF_trunc_value (x : spec_float) :
  is_finite_SF x = true -> SF_trunc x = Some (Qtruncate (SF2Q x)).
Proof.
  destruct x as [s| |  |s m e]; try discriminate; intros _.
  - reflexivity.
  - cbn [SF_trunc]. f_equal.
    assert (Hpos : forall e', (0 < SF2Q (S754_finite false m e'))%Q).
    { intros e'. unfold SF2Q. cbn [cond_Zopp].
      apply Qmult_lt_0_compat; [reflexivity | apply Qpower_0_lt; reflexivity]. }
    assert (Hfalse :
      match e with
      | Z0 => Zpos m
      | Zpos p => Zpos m * 2 ^ Zpos p
      | Zneg p => Zpos m / 2 ^ Zpos p
      end = Qtruncate (SF2Q (S754_finite false m e))).
    { unfold Qtruncate.
      destruct (Qle_bool 0 (SF2Q (S754_finite false m e))) eqn:H;
        [|rewrite <- not_true_iff_false, Qle_bool_iff in H; exfalso;
          apply H, Qlt_le_weak, Hpos].
      rewrite (Qfloor_comp _ _ (SF2Q_finite false m e)). cbn [cond_Zopp].
      destruct e as [|p|p].
      - symmetry. apply Qfloor_Z.
      - symmetry. apply Qfloor_Z.
      - unfold Qfloor. rewrite Pos2Z.inj_pow. reflexivity. }
    destruct s; cbn [cond_Zopp]; [|exact Hfalse].
    rewrite Hfalse.
    replace (SF2Q (S754_finite true m e)) with (- SF2Q (S754_finite false m e))%Q.
    + symmetry. apply Qtruncate_opp, Hpos.
    + unfold SF2Q, Qopp, Qmult, inject_Z. cbn [cond_Zopp Qnum Qden]. f_equal. lia.
Qed.

Lemma double_to_int_truncates (t : integer_type) (x : double) :
  isfinite x = true ->
  double_to_int t x
  = if in_range t (Qtruncate (double_value x))
    then Some (Qtruncate (double_value x)) else None.
Proof.
  intros H. unfold double_to_int, double_value.
  rewrite (SF_trunc_value _ H). reflexivity.
Qed.

Lemma double_to_int_not_finite (t : integer_type) (x : double) :
  isfinite x = false -> double_to_int t x = None.
Proof.
  unfold double_to_int, isfinite.
  destruct (Prim2SF x); cbn; congruence.
Qed.

Lemma int_wrap_in_range (t : integer_type) (z : Z) :
  in_range t z = true -> int_wrap t z = z.
Proof.
  unfold in_range, int_wrap. rewrite andb_true_iff, !Z.leb_le. intros [H1 H2].
  rewrite Z.mod_small; [lia|].
  destruct t; cbn in *; lia.
Qed.

Lemma duration_type_eqb_refl (T : chrono.duration_type) :
  chrono.duration_type_eqb T T = true.
Proof.
  unfold chrono.duration_type_eqb. rewrite !Z.eqb_refl.
  destruct (chrono.Rep T); reflexivity.
Qed.

(** ** [TimeView::as] *)

(** C5, as written, fails for an integral target: [bool] is an integral
    type and [as<bool>()] of half a second is [true], where truncation
    toward zero gives 0; and [as<int32_t>()] of one second in picoseconds
    has no defined result, the truncated count 10^12 being no [int32_t]. *)
Lemma as_integral_as_written_fails :
  (view_as ty_bool timer.seconds 0.5%float = compiles (Some (v_bool true))
   /\ double_count timer.seconds 0.5%float = Some 0.5%float
   /\ Qtruncate (double_value 0.5%float) = 0)
  /\ (view_as (ty_int int32_t) timer.picoseconds 1%float = compiles None
      /\ double_count timer.picoseconds 1%float = Some 1000000000000%float
      /\ Qtruncate (double_value 1000000000000%float) = 1000000000000
      /\ int_max int32_t = 2147483647).
Proof. repeat split. Qed.

(** C5 (amended). [as<R>()] of a view over a duration-in-unit-U:
    - [R] the view's own duration type: the duration, unchanged;
    - [R] a floating-point type: the count converted to [R] (the count
      itself for [double] over a floating count, rounded to binary32 for
      [float], the nearest [double] of an integer tick);
    - [R] an integer type other than [bool], over a floating count: the count
      truncated toward zero when the count is finite and the truncated
      value is representable in [R], and no defined result otherwise;
    - [R = bool] over a floating count: whether the count is not zero;
    - [R] an integer type over an integer tick: the tick, when [R] can
      represent it;
    - any other [R]: rejected at build time. *)
Theorem TimeView_as_cases :
  (forall RD (view : timer.TimeView.t RD),
      timer.TimeView.as_ (ty_duration RD) view
      = compiles (Some (v_duration RD (timer.TimeView.duration view))))
  /\ (forall P (view : timer.TimeView.t (floating P)),
         timer.TimeView.as_ ty_double view
         = compiles (Some (v_double (timer.TimeView.count view)))
         /\ timer.TimeView.as_ ty_float view
            = compiles (Some (v_float (double_to_float32 (timer.TimeView.count view)))))
  /\ (forall P (view : timer.TimeView.t (integer_tick P)),
         timer.TimeView.as_ ty_double view
         = compiles (Some (v_double (Z_to_double (timer.TimeView.count view))))
         /\ timer.TimeView.as_ ty_float view
            = compiles (Some (v_float (binary_normalize 24 128
                                         (timer.TimeView.count view) 0 false))))
  /\ (forall P (view : timer.TimeView.t (floating P)) (t : integer_type),
         let truncated := Qtruncate (double_value (timer.TimeView.count view)) in
         timer.TimeView.as_ (ty_int t) view
         = compiles (if isfinite (timer.TimeView.count view) && in_range t truncated
                     then Some (v_int t truncated) else None))
  /\ (forall P (view : timer.TimeView.t (floating P)),
         timer.TimeView.as_ ty_bool view
         = compiles (Some (v_bool (negb (timer.TimeView.count view =? 0)%float))))
  /\ (forall P (view : timer.TimeView.t (integer_tick P)) (t : integer_type),
         in_range t (timer.TimeView.count view) = true ->
         timer.TimeView.as_ (ty_int t) view
         = compiles (Some (v_int t (timer.TimeView.count view))))
  /\ (forall RD (view : timer.TimeView.t RD) (R : cpp_type),
         is_same_v R RD = false ->
         is_floating_point_v R = false ->
         is_integral_v R = false ->
         timer.TimeView.as_ R view = ill_formed).
Proof.
  repeat apply conj.
  - intros RD view. unfold timer.TimeView.as_. cbn [is_same_v].
    rewrite duration_type_eqb_refl. reflexivity.
  - intros P view. split; reflexivity.
  - intros P view. split; reflexivity.
  - intros P view t truncated. subst truncated.
    unfold timer.TimeView.as_, timer.TimeView.count.
    cbn [is_same_v is_floating_point_v is_integral_v orb static_cast floating chrono.Rep].
    destruct (isfinite (chrono.count (timer.TimeView.duration view))) eqn:Hf.
    + rewrite (double_to_int_truncates t _ Hf). cbn [andb].
      destruct (in_range t _); reflexivity.
    + rewrite (double_to_int_not_finite t _ Hf). reflexivity.
  - intros P view. reflexivity.
  - intros P view t Hr.
    unfold timer.TimeView.as_, timer.TimeView.count in *.
    cbn [is_same_v is_floating_point_v is_integral_v orb static_cast integer_tick chrono.Rep].
    rewrite (int_wrap_in_range t _ Hr). reflexivity.
  - intros RD view R H1 H2 H3. unfold timer.TimeView.as_.
    rewrite H1, H2, H3. reflexivity.
Qed.

(** ** The accessors of the measurement record *)

(** Both shapes of the record run the same accessor code. *)
Lemma TimeResult_accessors_agree {T} (r : timer.TimeResult.t T) (U : chrono.duration_type) :
  timer.TimeResult.getDurationView U r
  = timer.TimeResult_void.getDurationView U
      (timer.TimeResult_void.make (timer.TimeResult.duration r)).
Proof. reflexivity. Qed.

Lemma duration_cast_from_Duration (To : chrono.duration_type) (d : timer.Duration) :
  chrono.duration_cast To d
  = option_map chrono.Build_duration
      (chrono.rep_cast chrono.rep_double (chrono.Rep To)
         (scaled (chrono.Period To) (chrono.count d))).
Proof.
  unfold chrono.duration_cast, scaled. f_equal.
  set (CF := ratio.ratio_divide _ _).
  replace (chrono.common_rep (chrono.Rep To) (chrono.Rep timer.Duration_t))
    with chrono.rep_double by (destruct (chrono.Rep To); reflexivity).
  cbn [chrono.Rep timer.Duration_t chrono.rep_cast obind chrono.rep_mul
       chrono.rep_div chrono.rep_const].
  destruct ((ratio.num CF =? 1) && (ratio.den CF =? 1)); [reflexivity|].
  destruct (ratio.den CF =? 1); [reflexivity|].
  destruct (ratio.num CF =? 1); reflexivity.
Qed.

Lemma double_count_scaled (U : chrono.duration_type) (D : double) :
  double_count U D = Some (scaled (chrono.Period U) D).
Proof.
  unfold double_count, timer.TimeResult_void.getDurationCount,
    timer.TimeResult_void.getDuration.
  rewrite duration_cast_from_Duration. reflexivity.
Qed.

(** The integer-tick view is the conversion to [int64_t] of the count the
    precision-preserving unit of the same scale reports. *)
Lemma view_as_int64_of_count (P : ratio.t) (D : double) :
  view_as (ty_int int64_t) (integer_tick P) D
  = compiles (option_map (v_int int64_t) (double_to_int int64_t (scaled P D))).
Proof.
  unfold view_as, timer.TimeResult_void.getDurationView,
    timer.TimeResult_void.getDuration.
  rewrite duration_cast_from_Duration.
  cbn [integer_tick chrono.Rep chrono.Period chrono.rep_cast record_of
       timer.TimeResult_void.duration chrono.count].
  unfold double_to_int.
  destruct (SF_trunc (Prim2SF (scaled P D))) as [z|]; [|reflexivity].
  destruct (in_range int64_t z) eqn:Hr; [|reflexivity].
  cbn [option_map]. unfold timer.TimeView.as_.
  cbn [is_same_v is_floating_point_v is_integral_v orb static_cast chrono.Rep
       chrono.count timer.TimeView.duration].
  change (compiles (Some (v_int int64_t (int_wrap int64_t z))) = compiles (Some (v_int int64_t z))).
  rewrite (int_wrap_in_range _ _ Hr). reflexivity.
Qed.

(** *** Signs *)

Lemma binary_round_aux_sign s m e l :
  sign_is s (binary_round_aux prec emax s m e l).
Proof.
  unfold binary_round_aux.
  destruct (shr_fexp prec emax m e l) as [mrs' e'].
  destruct (shr_fexp prec emax _ e' loc_Exact) as [mrs'' e''].
  destruct (shr_m mrs''); cbn; trivial.
  destruct (e'' <=? emax - prec); cbn; trivial.
Qed.

Lemma SF64mul_sign negative x mk ek :
  sign_is negative x -> sign_is negative (SF64mul x (S754_finite false mk ek)).
Proof.
  destruct x as [s|s| |s m e]; cbn; trivial.
  intros <-. rewrite xorb_false_r. apply binary_round_aux_sign.
Qed.

Lemma SF64div_sign negative x mk ek :
  sign_is negative x -> sign_is negative (SF64div x (S754_finite false mk ek)).
Proof.
  destruct x as [s|s| |s m e]; cbn; trivial.
  intros <-. rewrite xorb_false_r.
  destruct (SFdiv_core_binary prec emax (Z.pos m) e (Z.pos mk) ek) as [[mz ez] lz].
  apply binary_round_aux_sign.
Qed.

Lemma SF2Q_positive m e : (0 < SF2Q (S754_finite false m e))%Q.
Proof.
  unfold SF2Q. cbn [cond_Zopp].
  apply Qmult_lt_0_compat; [reflexivity | apply Qpower_0_lt; reflexivity].
Qed.

Lemma SF2Q_negative m e : (SF2Q (S754_finite true m e) < 0)%Q.
Proof.
  replace (SF2Q (S754_finite true m e)) with (- SF2Q (S754_finite false m e))%Q.
  - rewrite <- (Qopp_involutive 0). apply Qopp_lt_compat. apply SF2Q_positive.
  - unfold SF2Q, Qopp, Qmult, inject_Z. cbn [cond_Zopp Qnum Qden]. f_equal. lia.
Qed.

Lemma nonnegative_sign (D : double) :
  (0 <= double_value D)%Q -> sign_is false (Prim2SF D).
Proof.
  unfold double_value. destruct (Prim2SF D) as [s|s| |[|] m e]; cbn [sign_is]; trivial.
  intros H. exfalso. apply (Qlt_irrefl 0).
  eapply Qle_lt_trans; [exact H | apply SF2Q_negative].
Qed.

Lemma negative_sign (D : double) :
  (double_value D < 0)%Q -> sign_is true (Prim2SF D).
Proof.
  unfold double_value. destruct (Prim2SF D) as [s|s| |[|] m e]; cbn [sign_is]; trivial.
  intros H. exfalso. apply (Qlt_irrefl 0).
  eapply Qlt_trans; [apply SF2Q_positive | exact H].
Qed.

Lemma sign_false_value (c : double) :
  sign_is false (Prim2SF c) -> (0 <= double_value c)%Q.
Proof.
  unfold double_value. destruct (Prim2SF c) as [s|s| |s m e]; cbn [sign_is SF2Q];
    try (intros _; apply Qle_refl).
  intros ->. apply Qlt_le_weak, SF2Q_positive.
Qed.

Lemma sign_true_value (c : double) :
  sign_is true (Prim2SF c) -> (double_value c <= 0)%Q.
Proof.
  unfold double_value. destruct (Prim2SF c) as [s|s| |s m e]; cbn [sign_is SF2Q];
    try (intros _; apply Qle_refl).
  intros ->. apply Qlt_le_weak, SF2Q_negative.
Qed.

(** Every unit of the integer-tick catalogue scales by a positive
    constant, which keeps the sign. *)
Lemma scaled_sign (U : chrono.duration_type) (negative : bool) (D : double) :
  In U integer_tick_catalogue ->
  sign_is negative (Prim2SF D) ->
  sign_is negative (Prim2SF (scaled (chrono.Period U) D)).
Proof.
  intros HU HD. cbn in HU.
  destruct HU as [<-|[<-|[<-|[<-|[<-|[<-|[]]]]]]].
  - change (scaled _ D) with (D * 1000000000)%float.
    rewrite mul_spec. apply SF64mul_sign, HD.
  - change (scaled _ D) with (D * 1000000)%float.
    rewrite mul_spec. apply SF64mul_sign, HD.
  - change (scaled _ D) with (D * 1000)%float.
    rewrite mul_spec. apply SF64mul_sign, HD.
  - exact HD.
  - change (scaled _ D) with (D / 60)%float.
    rewrite div_spec. apply SF64div_sign, HD.
  - change (scaled _ D) with (D / 3600)%float.
    rewrite div_spec. apply SF64div_sign, HD.
Qed.

(** *** Truncation, floor and ceiling *)

Lemma Qtruncate_nonnegative (q : Q) : (0 <= q)%Q -> Qtruncate q = Qfloor q.
Proof.
  intros H. unfold Qtruncate. rewrite <- Qle_bool_iff in H. rewrite H. reflexivity.
Qed.

Lemma Qtruncate_nonpositive (q : Q) : (q <= 0)%Q -> Qtruncate q = Qceiling q.
Proof.
  intros H. unfold Qtruncate. destruct (Qle_bool 0 q) eqn:H0; [|reflexivity].
  rewrite Qle_bool_iff in H0.
  assert (Hq : (q == 0)%Q) by (apply Qle_antisym; assumption).
  rewrite (Qfloor_comp _ _ Hq), (Qceiling_comp _ _ Hq). reflexivity.
Qed.

Lemma Qceiling_of_fraction (q : Q) :
  ~ (inject_Z (Qfloor q) == q)%Q -> Qceiling q = Qfloor q + 1.
Proof.
  intros Hn.
  assert (H1 : (inject_Z (Qfloor q) < q)%Q).
  { destruct (Qle_lt_or_eq _ _ (Qfloor_le q)) as [H|H]; [exact H | contradiction]. }
  pose proof (Qlt_floor q) as H2.
  pose proof (Qle_ceiling q) as H3.
  pose proof (Qceiling_lt q) as H4.
  assert (Qfloor q < Qceiling q) by (rewrite Zlt_Qlt; eapply Qlt_le_trans; eassumption).
  assert (Qceiling q - 1 < Qfloor q + 1) by (rewrite Zlt_Qlt; eapply Qlt_trans; eassumption).
  lia.
Qed.

(** ** Integer-tick views *)

(** C4, as written, fails: for the Duration 0x1.6666666666666p-1 (the
    double next to 0.7 s, below it) the view in [std::chrono::milliseconds]
    gives 700, and the floor of D / scale is 699, in exact arithmetic and
    also when the quotient by 0.001 is taken in [double]. *)
Lemma floor_law_as_written_fails :
  let D := 0x1.6666666666666p-1%float in
  isfinite D = true
  /\ (0 <= double_value D)%Q
  /\ view_as (ty_int int64_t) chrono.milliseconds D = compiles (Some (v_int int64_t 700))
  /\ Qfloor (double_value D / scale chrono.milliseconds) = 699
  /\ Qfloor (double_value (D / 0x1.0624dd2f1a9fcp-10)%float) = 699.
Proof. repeat split; vm_compute; congruence. Qed.

(** C10, as written, fails at the ends of the range: a Duration of -1e19
    seconds is negative and finite, its truncation toward zero is no
    [int64_t], and the view in [std::chrono::seconds] has no defined
    result.  (On exact quotients it also fails inside the range: the double
    next to -0.7 s gives -700 in milliseconds, the floor of D / scale, whose
    truncation is -699.) *)
Lemma negative_truncation_as_written_fails :
  let D := (-1e19)%float in
  (isfinite D = true
   /\ (double_value D < 0)%Q
   /\ view_as (ty_int int64_t) chrono.seconds D = compiles None
   /\ Qtruncate (double_value D) = - 10 ^ 19
   /\ - 10 ^ 19 < int_min int64_t)
  /\ (let D' := (-0x1.6666666666666p-1)%float in
      view_as (ty_int int64_t) chrono.milliseconds D' = compiles (Some (v_int int64_t (-700)))
      /\ Qtruncate (double_value D' / scale chrono.milliseconds) = -699
      /\ Qfloor (double_value D' / scale chrono.milliseconds) = -700).
Proof. repeat split; vm_compute; congruence. Qed.

(** C10 (amended). For every unit of the integer-tick catalogue and every
    finite negative Duration [D], [c] being the count in [double] as in C4:
    when [c] is finite and its truncation is an [int64_t],
    [getDurationView<U>().as<int64_t>()] is [c] truncated toward zero,
    which is the ceiling of [c], never below its floor, and one above the
    floor whenever [c] is not an integer. *)
Theorem integer_tick_view_negative (U : chrono.duration_type) (D c : double) :
  In U integer_tick_catalogue ->
  isfinite D = true ->
  (double_value D < 0)%Q ->
  double_count U D = Some c ->
  isfinite c = true ->
  int_min int64_t <= Qtruncate (double_value c) ->
  view_as (ty_int int64_t) U D = compiles (Some (v_int int64_t (Qtruncate (double_value c))))
  /\ Qtruncate (double_value c) = Qceiling (double_value c)
  /\ Qfloor (double_value c) <= Qtruncate (double_value c)
  /\ (~ (inject_Z (Qfloor (double_value c)) == double_value c)%Q ->
      Qtruncate (double_value c) = Qfloor (double_value c) + 1).
Proof.
  intros HU HD H0 Hc Hfin Hmin.
  rewrite double_count_scaled in Hc. injection Hc as <-.
  set (c := scaled (chrono.Period U) D) in *.
  assert (Hv : (double_value c <= 0)%Q).
  { apply sign_true_value, scaled_sign, negative_sign; assumption. }
  assert (Ht : Qtruncate (double_value c) = Qceiling (double_value c))
    by (apply Qtruncate_nonpositive, Hv).
  split; [|split; [exact Ht|split]].
  - assert (HU' : U = integer_tick (chrono.Period U)).
    { cbn in HU. destruct HU as [<-|[<-|[<-|[<-|[<-|[<-|[]]]]]]]; reflexivity. }
    rewrite HU' at 1. rewrite view_as_int64_of_count. fold c.
    rewrite (double_to_int_truncates _ _ Hfin).
    assert (Hhi : Qtruncate (double_value c) <= 0).
    { rewrite Ht. change 0 with (Qceiling 0). apply Qceiling_resp_le, Hv. }
    unfold in_range.
    replace (int_min int64_t <=? _) with true by (symmetry; apply Z.leb_le; exact Hmin).
    replace (_ <=? int_max int64_t) with true
      by (symmetry; apply Z.leb_le; cbn [int_max]; lia).
    reflexivity.
  - rewrite Ht, Zle_Qle. apply Qle_floor_ceiling.
  - intros Hn. rewrite Ht. apply Qceiling_of_fraction, Hn.
Qed.

(** -1.5 s in integer seconds is -1, and the floor is -2. *)
Lemma integer_tick_view_negative_witness :
  let D := (-1.5)%float in
  In chrono.seconds integer_tick_catalogue
  /\ isfinite D = true
  /\ (double_value D < 0)%Q
  /\ double_count chrono.seconds D = Some D
  /\ int_min int64_t <= Qtruncate (double_value D)
  /\ Qtruncate (double_value D) = -1
  /\ Qfloor (double_value D) = -2
  /\ view_as (ty_int int64_t) chrono.seconds D
     = compiles (Some (v_int int64_t (Qtruncate (double_value D))))
  /\ Qtruncate (double_value D) = Qceiling (double_value D)
  /\ Qfloor (double_value D) <= Qtruncate (double_value D)
  /\ (~ (inject_Z (Qfloor (double_value D)) == double_value D)%Q ->
      Qtruncate (double_value D) = Qfloor (double_value D) + 1).
Proof.
  intros D.
  assert (H1 : In chrono.seconds integer_tick_catalogue) by (cbn; auto).
  assert (H2 : isfinite D = true) by reflexivity.
  assert (H3 : (double_value D < 0)%Q) by reflexivity.
  assert (H4 : double_count chrono.seconds D = Some D) by reflexivity.
  assert (H5 : int_min int64_t <= Qtruncate (double_value D)) by (vm_compute; congruence).
  repeat (split; [assumption|]).
  split; [reflexivity|]. split; [reflexivity|].
  exact (integer_tick_view_negative chrono.seconds D D H1 H2 H3 H4 H2 H5).
Defined.

(** ** Rounding to nearest in [binary_round_aux]

    The error analysis of the rounding step that the multiplication and
    the division of the conversions share. *)

Lemma shr_1_locates (a b : Z) (rec : shr_record) :
  0 < b -> locates a b rec -> locates a (2 * b) (shr_1 rec).
Proof.
  intros Hb. destruct rec as [m r s]. unfold locates. cbn [shr_m shr_r shr_s].
  intros (Hm & Hab & Hloc).
  destruct m as [|[p|p|]|p]; try lia; cbn [shr_1 shr_m shr_r shr_s];
    destruct r, s; cbn [orb]; lia.
Qed.

Lemma iter_pos_shr_1_locates (p : positive) :
  forall a b rec,
    0 < b -> locates a b rec ->
    locates a (2 ^ Zpos p * b) (SpecFloat.iter_pos shr_1 p rec).
Proof.
  induction p as [p IH|p IH|]; intros a b rec Hb H; cbn [SpecFloat.iter_pos].
  - replace (2 ^ Z.pos p~1 * b) with (2 ^ Zpos p * (2 ^ Zpos p * (2 * b))).
    + apply IH; [|apply IH; [lia | apply shr_1_locates; assumption]].
      apply Z.mul_pos_pos; [apply Z.pow_pos_nonneg; lia | lia].
    + replace (Z.pos p~1) with (Z.pos p + Z.pos p + 1) by lia.
      rewrite !Z.pow_add_r by lia. ring.
  - replace (2 ^ Z.pos p~0 * b) with (2 ^ Zpos p * (2 ^ Zpos p * b)).
    + apply IH; [|apply IH; assumption].
      apply Z.mul_pos_pos; [apply Z.pow_pos_nonneg; lia | lia].
    + replace (Z.pos p~0) with (Z.pos p + Z.pos p) by lia.
      rewrite !Z.pow_add_r by lia. ring.
  - change (2 ^ 1) with 2. apply shr_1_locates; assumption.
Qed.

(** Shifting by [n] places. *)
Lemma shr_locates (a b : Z) (rec : shr_record) (e n : Z) :
  0 < b -> locates a b rec ->
  let n' := Z.max n 0 in
  locates a (2 ^ n' * b) (fst (shr rec e n)) /\ snd (shr rec e n) = e + n'.
Proof.
  intros Hb H. destruct n as [|p|p]; cbn [shr fst snd Z.max].
  - rewrite Z.mul_1_l, Z.add_0_r. auto.
  - change (Z.max (Z.pos p) 0) with (Zpos p). split; [|reflexivity].
    apply iter_pos_shr_1_locates; assumption.
  - change (Z.max (Z.neg p) 0) with 0. rewrite Z.mul_1_l, Z.add_0_r. auto.
Qed.

(** Rounding to nearest, ties to even, is within half a unit. *)
Lemma round_nearest_even_locates (a b : Z) (rec : shr_record) :
  0 < b -> locates a b rec ->
  let m1 := round_nearest_even (shr_m rec) (loc_of_shr_record rec) in
  shr_m rec <= m1 <= shr_m rec + 1 /\ 2 * Z.abs (a - m1 * b) <= b.
Proof.
  intros Hb. destruct rec as [m r s]. unfold locates. cbn [shr_m shr_r shr_s].
  intros (Hm & Hab & Hloc).
  destruct r, s; cbn [loc_of_shr_record round_nearest_even];
    try destruct (Z.even m); lia.
Qed.

Lemma digits2_pos_bounds (p : positive) :
  2 ^ (Zpos (digits2_pos p) - 1) <= Zpos p < 2 ^ Zpos (digits2_pos p).
Proof.
  induction p as [p IH|p IH|]; cbn [digits2_pos].
  - rewrite Pos2Z.inj_succ. replace (Z.succ (Zpos (digits2_pos p)) - 1)
      with (Z.succ (Zpos (digits2_pos p) - 1)) by lia.
    rewrite !Z.pow_succ_r by lia. lia.
  - rewrite Pos2Z.inj_succ. replace (Z.succ (Zpos (digits2_pos p)) - 1)
      with (Z.succ (Zpos (digits2_pos p) - 1)) by lia.
    rewrite !Z.pow_succ_r by lia. lia.
  - cbn. lia.
Qed.

Lemma Zdigits2_bounds (m : Z) :
  0 < m -> 2 ^ (Zdigits2 m - 1) <= m < 2 ^ Zdigits2 m.
Proof.
  destruct m as [|p|p]; try lia. intros _. apply digits2_pos_bounds.
Qed.

Lemma Zdigits2_nonneg (m : Z) : 0 <= Zdigits2 m.
Proof. destruct m; cbn; lia. Qed.

Lemma Zdigits2_unique (m k : Z) :
  2 ^ (k - 1) <= m < 2 ^ k -> 0 < k -> Zdigits2 m = k.
Proof.
  intros [H1 H2] Hk.
  assert (Hm : 0 < m) by (pose proof (Z.pow_pos_nonneg 2 (k - 1)); lia).
  pose proof (Zdigits2_bounds m Hm) as [H3 H4].
  assert (Hd : 0 < Zdigits2 m) by (destruct m; cbn; lia).
  destruct (Z.lt_trichotomy (Zdigits2 m) k) as [H|[H|H]]; [|exact H|].
  - pose proof (Z.pow_le_mono_r 2 (Zdigits2 m) (k - 1)). lia.
  - pose proof (Z.pow_le_mono_r 2 k (Zdigits2 m - 1)). lia.
Qed.

(** The rounding step of binary64 on a mantissa of at least 53 bits, away
    from underflow and overflow: the result is finite, and differs from the
    exact [a / b * 2 ^ e] by at most 2^-53 of it. *)
Lemma binary_round_aux_error (s : bool) (m e : Z) (l : location) (a b : Z) :
  0 < b ->
  0 < m ->
  locates a b (shr_record_of_loc m l) ->
  53 <= Zdigits2 m ->
  -1074 <= Zdigits2 m + e - 53 ->
  Zdigits2 m + e <= 1023 ->
  exists m'' e'',
    binary_round_aux prec emax s m e l = S754_finite s m'' e''
    /\ e <= e''
    /\ 2 ^ 53 * Z.abs (a - Zpos m'' * 2 ^ (e'' - e) * b) <= a.
Proof.
  intros Hb Hm Hloc Hd Hlo Hhi.
  set (d := Zdigits2 m) in *. set (n := d - 53).
  assert (Hmb : 2 ^ (d - 1) <= m < 2 ^ d) by (apply Zdigits2_bounds, Hm).
  assert (Hm0 : shr_m (shr_record_of_loc m l) = m) by (destruct l as [|[]]; reflexivity).
  unfold binary_round_aux, shr_fexp. fold d.
  replace (fexp prec emax (d + e) - e) with n
    by (unfold fexp, SpecFloat.emin, prec, emax, n; lia).
  destruct (shr_locates a b (shr_record_of_loc m l) e n Hb Hloc) as [Hl1 He1].
  replace (Z.max n 0) with n in * by (unfold n; lia).
  destruct (shr (shr_record_of_loc m l) e n) as [rec1 e1].
  cbn [fst snd] in Hl1, He1. subst e1.
  set (B := 2 ^ n * b) in *.
  assert (HB : 0 < B) by (apply Z.mul_pos_pos; [apply Z.pow_pos_nonneg; unfold n; lia | lia]).
  assert (HaB : 2 ^ 52 * B <= a < 2 ^ 53 * B).
  { destruct Hloc as (_ & Hab & _). rewrite Hm0 in Hab.
    assert (E1 : 2 ^ (d - 1) = 2 ^ 52 * 2 ^ n)
      by (rewrite <- Z.pow_add_r by (unfold n; lia); f_equal; unfold n; lia).
    assert (E2 : 2 ^ d = 2 ^ 53 * 2 ^ n)
      by (rewrite <- Z.pow_add_r by (unfold n; lia); f_equal; unfold n; lia).
    unfold B. rewrite !Z.mul_assoc, <- E1, <- E2. nia. }
  destruct (round_nearest_even_locates a B rec1 HB Hl1) as [Hm1 Herr].
  set (m1 := round_nearest_even (shr_m rec1) (loc_of_shr_record rec1)) in *.
  assert (Hsh : 2 ^ 52 <= shr_m rec1 < 2 ^ 53).
  { destruct Hl1 as (_ & Hab & _). nia. }
  assert (Hfinal : 2 ^ 53 * Z.abs (a - m1 * B) <= a) by lia.
  destruct (Z.eq_dec m1 (2 ^ 53)) as [Hc|Hc].
  - (* the rounding carried into a 54th bit *)
    rewrite Hc.
    replace (Zdigits2 (2 ^ 53)) with 54 by reflexivity.
    replace (fexp prec emax (54 + (e + n)) - (e + n)) with 1
      by (unfold fexp, SpecFloat.emin, prec, emax, n; lia).
    cbn [shr_record_of_loc shr SpecFloat.iter_pos shr_1 shr_m].
    change (Z.pos (Pos.iter xO 1%positive 52%positive))
      with (2 ^ 52) in *.
    exists (Pos.pow 2 52), (e + n + 1).
    replace (e + n + 1 <=? emax - prec) with true
      by (symmetry; apply Z.leb_le; unfold prec, emax, n; lia).
    split; [reflexivity|]. split; [unfold n; lia|].
    replace (e + n + 1 - e) with (n + 1) by lia.
    rewrite Z.pow_add_r by (unfold n; lia).
    replace (Z.pos (2 ^ 52) * (2 ^ n * 2 ^ 1) * b) with (2 ^ 53 * B)
      by (unfold B; change (Z.pos (2 ^ 52)) with (2 ^ 52); change (2 ^ 53) with (2 ^ 52 * 2 ^ 1); ring).
    rewrite Hc in Hfinal. exact Hfinal.
  - assert (Hm1b : 2 ^ (53 - 1) <= m1 < 2 ^ 53) by (change (53 - 1) with 52; lia).
    rewrite (Zdigits2_unique m1 53 Hm1b) by lia.
    replace (fexp prec emax (53 + (e + n)) - (e + n)) with 0
      by (unfold fexp, SpecFloat.emin, prec, emax, n; lia).
    cbn [shr_record_of_loc shr fst snd shr_m].
    destruct m1 as [|p1|p1] eqn:Em1; try lia.
    exists p1, (e + n).
    replace (e + n <=? emax - prec) with true
      by (symmetry; apply Z.leb_le; unfold prec, emax, n; lia).
    split; [reflexivity|]. split; [unfold n; lia|].
    replace (e + n - e) with n by lia.
    rewrite <- Z.mul_assoc. exact Hfinal.
Qed.

(** The location that the division computes for its quotient. *)
Lemma new_location_locates (a b q r : Z) :
  0 < b -> 0 <= q -> a = b * q + r -> 0 <= r < b ->
  locates a b (shr_record_of_loc q (new_location b r)).
Proof.
  intros Hb Hq -> Hr. unfold new_location, new_location_even, new_location_odd.
  assert (Hodd : Z.even b = false -> b <> 2 * r).
  { intros He ->. rewrite Z.even_mul in He. discriminate He. }
  unfold locates.
  destruct (Z.even b).
  - destruct (Z.eqb_spec r 0) as [->|Hr0]; [|destruct (Z.compare_spec (2 * r) b)];
      cbn [shr_record_of_loc shr_m shr_r shr_s]; lia.
  - specialize (Hodd eq_refl).
    destruct (Z.eqb_spec r 0) as [->|Hr0]; [|destruct (Z.compare_spec (2 * r + 1) b)];
      cbn [shr_record_of_loc shr_m shr_r shr_s]; lia.
Qed.

(** Multiplication of two finite doubles with full mantissas, away from
    underflow and overflow. *)
Lemma SF64mul_error (sx : bool) (mx : positive) (ex : Z) (mk : positive) (ek : Z) :
  Zdigits2 (Zpos mx) = 53 ->
  Zdigits2 (Zpos mk) = 53 ->
  -1126 <= ex + ek <= 917 ->
  exists m'' e'',
    SF64mul (S754_finite sx mx ex) (S754_finite false mk ek) = S754_finite sx m'' e''
    /\ ex + ek <= e''
    /\ 2 ^ 53 * Z.abs (Zpos mx * Zpos mk - Zpos m'' * 2 ^ (e'' - (ex + ek)))
       <= Zpos mx * Zpos mk.
Proof.
  intros Hdx Hdk He.
  pose proof (Zdigits2_bounds (Zpos mx) eq_refl) as Hx. rewrite Hdx in Hx.
  pose proof (Zdigits2_bounds (Zpos mk) eq_refl) as Hk. rewrite Hdk in Hk.
  change (53 - 1) with 52 in *.
  assert (HP : 2 ^ 104 <= Zpos mx * Zpos mk < 2 ^ 106).
  { change (2 ^ 104) with (2 ^ 52 * 2 ^ 52). change (2 ^ 106) with (2 ^ 53 * 2 ^ 53). nia. }
  pose proof (Zdigits2_bounds (Zpos mx * Zpos mk) eq_refl) as Hd.
  set (d := Zdigits2 (Zpos mx * Zpos mk)) in *.
  assert (Hd' : 105 <= d <= 106).
  { split.
    - destruct (Z_lt_le_dec d 105) as [H|H]; [|exact H]. exfalso.
      pose proof (Zdigits2_nonneg (Zpos mx * Zpos mk)). fold d in H0.
      pose proof (Z.pow_le_mono_r 2 d 104). lia.
    - destruct (Z_lt_le_dec 106 d) as [H|H]; [|exact H]. exfalso.
      pose proof (Z.pow_le_mono_r 2 106 (d - 1)). lia. }
  destruct (binary_round_aux_error (xorb sx false) (Zpos mx * Zpos mk) (ex + ek)
              loc_Exact (Zpos mx * Zpos mk) 1) as (m'' & e'' & Hr & Hle & Herr);
    try (fold d; lia).
  { unfold locates. cbn [shr_record_of_loc shr_m shr_r shr_s]. lia. }
  exists m'', e''. rewrite xorb_false_r in Hr. rewrite Z.mul_1_r in Herr.
  split; [|split; assumption].
  unfold SF64mul, SFmul. rewrite xorb_false_r. exact Hr.
Qed.

(** Division of a finite double by a finite positive one, both with full
    mantissas, away from underflow and overflow. *)
Lemma SF64div_error (sx : bool) (mx : positive) (ex : Z) (mk : positive) (ek : Z) :
  Zdigits2 (Zpos mx) = 53 ->
  Zdigits2 (Zpos mk) = 53 ->
  -1021 <= ex - ek <= 1022 ->
  exists m'' e'',
    SF64div (S754_finite sx mx ex) (S754_finite false mk ek) = S754_finite sx m'' e''
    /\ ex - ek - 53 <= e''
    /\ 2 ^ 53 * Z.abs (Zpos mx * 2 ^ 53
                       - Zpos m'' * 2 ^ (e'' - (ex - ek - 53)) * Zpos mk)
       <= Zpos mx * 2 ^ 53.
Proof.
  intros Hdx Hdk He.
  pose proof (Zdigits2_bounds (Zpos mx) eq_refl) as Hx. rewrite Hdx in Hx.
  pose proof (Zdigits2_bounds (Zpos mk) eq_refl) as Hk. rewrite Hdk in Hk.
  change (53 - 1) with 52 in *.
  unfold SF64div, SFdiv, SFdiv_core_binary. rewrite Hdx, Hdk, xorb_false_r.
  replace (Z.min (fexp prec emax (53 + ex - (53 + ek))) (ex - ek)) with (ex - ek - 53)
    by (unfold fexp, SpecFloat.emin, prec, emax; lia).
  replace (ex - ek - (ex - ek - 53)) with 53 by lia.
  rewrite Z.shiftl_mul_pow2 by lia.
  pose proof (Z_div_mod (Zpos mx * 2 ^ 53) (Zpos mk) eq_refl) as Hdiv.
  destruct (Z.div_eucl (Zpos mx * 2 ^ 53) (Zpos mk)) as [q r].
  destruct Hdiv as [Hqr Hr].
  assert (Hq : 2 ^ 52 <= q < 2 ^ 54).
  { change (2 ^ 54) with (2 ^ 1 * 2 ^ 53). nia. }
  pose proof (Zdigits2_bounds q ltac:(lia)) as Hd.
  set (d := Zdigits2 q) in *.
  assert (Hd' : 53 <= d <= 54).
  { split.
    - destruct (Z_lt_le_dec d 53) as [H|H]; [|exact H]. exfalso.
      pose proof (Zdigits2_nonneg q). fold d in H0.
      pose proof (Z.pow_le_mono_r 2 d 52). lia.
    - destruct (Z_lt_le_dec 54 d) as [H|H]; [|exact H]. exfalso.
      pose proof (Z.pow_le_mono_r 2 54 (d - 1)). lia. }
  destruct (binary_round_aux_error sx q (ex - ek - 53)
              (new_location (Zpos mk) r) (Zpos mx * 2 ^ 53) (Zpos mk))
    as (m'' & e'' & Hres & Hle & Herr); try (fold d; lia).
  { apply new_location_locates; lia. }
  exists m'', e''. split; [exact Hres|]. split; assumption.
Qed.

(** *** From integers to rationals *)

Lemma Qpower_2_add (a b : Z) : (2 ^ (a + b) == 2 ^ a * 2 ^ b)%Q.
Proof. apply Qpower_plus. discriminate. Qed.

Lemma Qpower_2_positive (e : Z) : (0 < 2 ^ e)%Q.
Proof. apply Qpower_0_lt. reflexivity. Qed.

Lemma Qpower_2_inject (n : Z) : 0 <= n -> (inject_Z (2 ^ n) == 2 ^ n)%Q.
Proof. intros H. rewrite Zpower_Qpower by exact H. reflexivity. Qed.

Lemma inject_Z_cond_Zopp_mul (s : bool) (a b : Z) :
  (inject_Z (cond_Zopp s (a * b)) == inject_Z (cond_Zopp s a) * inject_Z b)%Q.
Proof.
  rewrite <- inject_Z_mult. destruct s; cbn [cond_Zopp]; [|reflexivity].
  rewrite Z.mul_opp_l. reflexivity.
Qed.

(** Two quantities that are the integers [A] (the exact one) and [B] in
    the same positive unit [f], with the same sign. *)
Lemma close_in_unit (sg : bool) (A B : Z) (f x y : Q) :
  (0 < f)%Q ->
  (x == inject_Z (cond_Zopp sg B) * f)%Q ->
  (y == inject_Z (cond_Zopp sg A) * f)%Q ->
  2 ^ 53 * Z.abs (A - B) <= A ->
  (Qabs (x - y) <= (1 # 2 ^ 53) * Qabs y)%Q.
Proof.
  intros Hf Hx Hy H.
  assert (Hd : (x - y == inject_Z (cond_Zopp sg (B - A)) * f)%Q).
  { assert (E : (inject_Z (cond_Zopp sg (B - A))
                 == inject_Z (cond_Zopp sg B) - inject_Z (cond_Zopp sg A))%Q).
    { unfold Qeq, Qminus, Qplus, Qopp, inject_Z. cbn [Qnum Qden].
      destruct sg; cbn [cond_Zopp]; lia. }
    rewrite Hx, Hy, E. ring. }
  rewrite Hd, Hy, !Qabs_Qmult, (Qabs_pos f) by (apply Qlt_le_weak, Hf).
  rewrite Qmult_assoc. apply Qmult_le_compat_r; [|apply Qlt_le_weak, Hf].
  change (Qabs (inject_Z (cond_Zopp sg (B - A)))) with (inject_Z (Z.abs (cond_Zopp sg (B - A)))).
  change (Qabs (inject_Z (cond_Zopp sg A))) with (inject_Z (Z.abs (cond_Zopp sg A))).
  unfold Qle, Qmult, inject_Z. cbn [Qnum Qden].
  assert (E1 : Z.abs (cond_Zopp sg (B - A)) = Z.abs (A - B)) by (destruct sg; cbn; lia).
  assert (E2 : Z.abs (cond_Zopp sg A) = A) by (destruct sg; cbn; lia).
  rewrite E1, E2. rewrite Pos.mul_1_r, Z.mul_1_r, Z.mul_1_l.
  change (Z.pos (2 ^ 53)) with (2 ^ 53). lia.
Qed.

(** *** Durations away from underflow and overflow *)

Lemma is_zero_SF (D : double) :
  is_zero D = true -> exists s, Prim2SF D = S754_zero s.
Proof.
  unfold is_zero. rewrite FloatAxioms.eqb_spec.
  change (Prim2SF zero) with (S754_zero false).
  destruct (Prim2SF D) as [s|s| |s m e]; try discriminate.
  - intros _. exists s. reflexivity.
  - destruct s; discriminate.
  - destruct s; discriminate.
Qed.

Lemma conversion_range_SF (D : double) :
  in_normal_range D = true ->
  exists s m e,
    Prim2SF D = S754_finite s m e /\ Zdigits2 (Zpos m) = 53 /\ -1032 <= e <= 928.
Proof.
  unfold in_normal_range. rewrite andb_true_iff, !leb_spec, abs_spec.
  change (Prim2SF 0x1p-980) with (S754_finite false 4503599627370496 (-1032)).
  change (Prim2SF 0x1p+980) with (S754_finite false 4503599627370496 928).
  pose proof (Prim2SF_valid D) as Hv.
  destruct (Prim2SF D) as [s|s| |s m e]; cbn [SFabs]; unfold SFleb, SFcompare;
    try (intros [H1 H2]; discriminate).
  intros [H1 H2]. exists s, m, e. split; [reflexivity|].
  assert (He : -1032 <= e <= 928).
  { destruct (Z.compare_spec (-1032) e), (Z.compare_spec e 928); try discriminate; lia. }
  split; [|exact He].
  unfold valid_binary, bounded, canonical_mantissa in Hv.
  rewrite andb_true_iff, Z.eqb_eq in Hv. destruct Hv as [Hv _].
  unfold fexp, SpecFloat.emin, prec, emax in Hv. cbn [Zdigits2]. lia.
Qed.

Lemma Qpower_2_nonzero (e : Z) : ~ (2 ^ e == 0)%Q.
Proof. intros H. pose proof (Qpower_2_positive e) as Hp. rewrite H in Hp. discriminate Hp. Qed.

Lemma inject_Z_pos_nonzero (p : positive) : ~ (inject_Z (Zpos p) == 0)%Q.
Proof. unfold Qeq, inject_Z. cbn. lia. Qed.

(** The count of a unit shorter than the second: [D * k] for the constant
    [k] of which the scale [S] is the inverse. *)
Lemma mul_count_close (D k : double) (S : Q) (mk : positive) (ek : Z) :
  in_normal_range D = true ->
  Prim2SF k = S754_finite false mk ek ->
  Zdigits2 (Zpos mk) = 53 ->
  -94 <= ek <= -11 ->
  (S * (inject_Z (Zpos mk) * 2 ^ ek) == 1)%Q ->
  isfinite (D * k)%float = true
  /\ (Qabs (double_value (D * k)%float * S - double_value D)
      <= (1 # 2 ^ 53) * Qabs (double_value D))%Q.
Proof.
  intros HD Hk Hdk Hek HS.
  destruct (conversion_range_SF D HD) as (s & m & e & ED & Hd & He).
  destruct (SF64mul_error s m e mk ek Hd Hdk ltac:(lia))
    as (m'' & e'' & Hmul & Hle & Herr).
  assert (Ec : Prim2SF (D * k)%float = S754_finite s m'' e'')
    by (rewrite mul_spec, ED, Hk; exact Hmul).
  split; [unfold isfinite; rewrite Ec; reflexivity|].
  unfold double_value. rewrite Ec, ED. unfold SF2Q.
  set (L := e'' - (e + ek)) in *.
  pose proof (Qpower_2_nonzero ek) as Hpek.
  pose proof (inject_Z_pos_nonzero mk) as Hmk.
  assert (HS' : (S == / (inject_Z (Zpos mk) * 2 ^ ek))%Q).
  { apply (Qmult_inj_r _ _ (inject_Z (Zpos mk) * 2 ^ ek)).
    - intros H0. apply Qmult_integral in H0. tauto.
    - rewrite HS. field. tauto. }
  apply (close_in_unit s (Zpos m * Zpos mk) (Zpos m'' * 2 ^ L)
           (2 ^ e * / inject_Z (Zpos mk))).
  - apply Qmult_lt_0_compat; [apply Qpower_2_positive|].
    apply Qinv_lt_0_compat. reflexivity.
  - rewrite inject_Z_cond_Zopp_mul, Qpower_2_inject by (unfold L; lia).
    replace e'' with (L + (e + ek)) by (unfold L; lia).
    rewrite !Qpower_2_add, HS'. field. tauto.
  - rewrite inject_Z_cond_Zopp_mul. field. exact Hmk.
  - exact Herr.
Qed.

(** The count of a unit longer than the second: [D / k] for the constant
    [k] that is the scale [S]. *)
Lemma div_count_close (D k : double) (S : Q) (mk : positive) (ek : Z) :
  in_normal_range D = true ->
  Prim2SF k = S754_finite false mk ek ->
  Zdigits2 (Zpos mk) = 53 ->
  -94 <= ek <= -11 ->
  (S == inject_Z (Zpos mk) * 2 ^ ek)%Q ->
  isfinite (D / k)%float = true
  /\ (Qabs (double_value (D / k)%float * S - double_value D)
      <= (1 # 2 ^ 53) * Qabs (double_value D))%Q.
Proof.
  intros HD Hk Hdk Hek HS.
  destruct (conversion_range_SF D HD) as (s & m & e & ED & Hd & He).
  destruct (SF64div_error s m e mk ek Hd Hdk ltac:(lia))
    as (m'' & e'' & Hdiv & Hle & Herr).
  assert (Ec : Prim2SF (D / k)%float = S754_finite s m'' e'')
    by (rewrite div_spec, ED, Hk; exact Hdiv).
  split; [unfold isfinite; rewrite Ec; reflexivity|].
  unfold double_value. rewrite Ec, ED. unfold SF2Q.
  set (L := e'' - (e - ek - 53)) in *.
  pose proof (Qpower_2_nonzero ek) as Hpek.
  apply (close_in_unit s (Zpos m * 2 ^ 53) (Zpos m'' * 2 ^ L * Zpos mk) (2 ^ (e - 53))).
  - apply Qpower_2_positive.
  - rewrite !inject_Z_cond_Zopp_mul, Qpower_2_inject by (unfold L; lia).
    replace e'' with (L + ((e - 53) + - ek)) by (unfold L; lia).
    rewrite !Qpower_2_add, Qpower_opp, HS. field. exact Hpek.
  - rewrite inject_Z_cond_Zopp_mul, Qpower_2_inject by lia.
    replace e with (53 + (e - 53)) at 1 by lia.
    rewrite Qpower_2_add. ring.
  - exact Herr.
Qed.

(** *** Every unit of the precision-preserving catalogue *)

Lemma view_as_double_of_count (P : ratio.t) (D : double) :
  view_as ty_double (floating P) D = compiles (Some (v_double (scaled P D))).
Proof.
  unfold view_as, timer.TimeResult_void.getDurationView,
    timer.TimeResult_void.getDuration.
  rewrite duration_cast_from_Duration. reflexivity.
Qed.

(** The count of [D] in the unit [U], times the scale of [U], is [D] up to
    one rounding. *)
Lemma unit_count_close (U : chrono.duration_type) (D : double) :
  In U precision_preserving_catalogue ->
  in_normal_range D = true ->
  isfinite (scaled (chrono.Period U) D) = true
  /\ (Qabs (double_value (scaled (chrono.Period U) D) * scale U - double_value D)
      <= (1 # 2 ^ 53) * Qabs (double_value D))%Q.
Proof.
  intros HU HD. cbn in HU.
  destruct HU as [<-|[<-|[<-|[<-|[<-|[<-|[<-|[<-|[<-|[<-|[<-|[<-|[<-|[]]]]]]]]]]]]]].
  - change (scaled _ D) with (D * 1000000000000)%float.
    apply (mul_count_close D 1000000000000%float (scale timer.picoseconds) 8192000000000000 (-13) HD);
      [reflexivity | reflexivity | lia | vm_compute; reflexivity].
  - change (scaled _ D) with (D * 1000000000)%float.
    apply (mul_count_close D 1000000000%float (scale timer.nanoseconds) 8388608000000000 (-23) HD);
      [reflexivity | reflexivity | lia | vm_compute; reflexivity].
  - change (scaled _ D) with (D * 1000000)%float.
    apply (mul_count_close D 1000000%float (scale timer.microseconds) 8589934592000000 (-33) HD);
      [reflexivity | reflexivity | lia | vm_compute; reflexivity].
  - change (scaled _ D) with (D * 1000)%float.
    apply (mul_count_close D 1000%float (scale timer.milliseconds) 8796093022208000 (-43) HD);
      [reflexivity | reflexivity | lia | vm_compute; reflexivity].
  - change (scaled _ D) with D.
    destruct (conversion_range_SF D HD) as (s & m & e & ED & _).
    split; [unfold isfinite; rewrite ED; reflexivity|].
    assert (E : (double_value D * scale timer.seconds - double_value D == 0)%Q)
      by (change (scale timer.seconds) with 1%Q; ring).
    rewrite E. apply Qmult_le_0_compat; [discriminate | apply Qabs_nonneg].
  - change (scaled _ D) with (D / 60)%float.
    apply (div_count_close D 60%float (scale timer.minutes) 8444249301319680 (-47) HD);
      [reflexivity | reflexivity | lia | vm_compute; reflexivity].
  - change (scaled _ D) with (D / 3600)%float.
    apply (div_count_close D 3600%float (scale timer.hours) 7916483719987200 (-41) HD);
      [reflexivity | reflexivity | lia | vm_compute; reflexivity].
  - change (scaled _ D) with (D / 86400)%float.
    apply (div_count_close D 86400%float (scale timer.days) 5937362789990400 (-36) HD);
      [reflexivity | reflexivity | lia | vm_compute; reflexivity].
  - change (scaled _ D) with (D / 604800)%float.
    apply (div_count_close D 604800%float (scale timer.weeks) 5195192441241600 (-33) HD);
      [reflexivity | reflexivity | lia | vm_compute; reflexivity].
  - change (scaled _ D) with (D / 31556952)%float.
    apply (div_count_close D 31556952%float (scale timer.years) 8471004800090112 (-28) HD);
      [reflexivity | reflexivity | lia | vm_compute; reflexivity].
  - change (scaled _ D) with (D / 315569520)%float.
    apply (div_count_close D 315569520%float (scale timer.decades) 5294378000056320 (-24) HD);
      [reflexivity | reflexivity | lia | vm_compute; reflexivity].
  - change (scaled _ D) with (D / 3155695200)%float.
    apply (div_count_close D 3155695200%float (scale timer.centuries) 6617972500070400 (-21) HD);
      [reflexivity | reflexivity | lia | vm_compute; reflexivity].
  - change (scaled _ D) with (D / 31556952000)%float.
    apply (div_count_close D 31556952000%float (scale timer.millennia) 8272465625088000 (-18) HD);
      [reflexivity | reflexivity | lia | vm_compute; reflexivity].
Qed.

(** A zero Duration is zero in every unit. *)
Lemma unit_count_zero (U : chrono.duration_type) (D : double) :
  In U precision_preserving_catalogue ->
  is_zero D = true ->
  exists s, Prim2SF (scaled (chrono.Period U) D) = S754_zero s.
Proof.
  intros HU HD. destruct (is_zero_SF D HD) as [s0 E0]. cbn in HU.
  destruct HU as [<-|[<-|[<-|[<-|[<-|[<-|[<-|[<-|[<-|[<-|[<-|[<-|[<-|[]]]]]]]]]]]]]].
  - change (scaled _ D) with (D * 1000000000000)%float. rewrite mul_spec, E0.
    change (Prim2SF 1000000000000%float) with (S754_finite false 8192000000000000 (-13)).
    eexists. reflexivity.
  - change (scaled _ D) with (D * 1000000000)%float. rewrite mul_spec, E0.
    change (Prim2SF 1000000000%float) with (S754_finite false 8388608000000000 (-23)).
    eexists. reflexivity.
  - change (scaled _ D) with (D * 1000000)%float. rewrite mul_spec, E0.
    change (Prim2SF 1000000%float) with (S754_finite false 8589934592000000 (-33)).
    eexists. reflexivity.
  - change (scaled _ D) with (D * 1000)%float. rewrite mul_spec, E0.
    change (Prim2SF 1000%float) with (S754_finite false 8796093022208000 (-43)).
    eexists. reflexivity.
  - exists s0. exact E0.
  - change (scaled _ D) with (D / 60)%float. rewrite div_spec, E0.
    change (Prim2SF 60%float) with (S754_finite false 8444249301319680 (-47)).
    eexists. reflexivity.
  - change (scaled _ D) with (D / 3600)%float. rewrite div_spec, E0.
    change (Prim2SF 3600%float) with (S754_finite false 7916483719987200 (-41)).
    eexists. reflexivity.
  - change (scaled _ D) with (D / 86400)%float. rewrite div_spec, E0.
    change (Prim2SF 86400%float) with (S754_finite false 5937362789990400 (-36)).
    eexists. reflexivity.
  - change (scaled _ D) with (D / 604800)%float. rewrite div_spec, E0.
    change (Prim2SF 604800%float) with (S754_finite false 5195192441241600 (-33)).
    eexists. reflexivity.
  - change (scaled _ D) with (D / 31556952)%float. rewrite div_spec, E0.
    change (Prim2SF 31556952%float) with (S754_finite false 8471004800090112 (-28)).
    eexists. reflexivity.
  - change (scaled _ D) with (D / 315569520)%float. rewrite div_spec, E0.
    change (Prim2SF 315569520%float) with (S754_finite false 5294378000056320 (-24)).
    eexists. reflexivity.
  - change (scaled _ D) with (D / 3155695200)%float. rewrite div_spec, E0.
    change (Prim2SF 3155695200%float) with (S754_finite false 6617972500070400 (-21)).
    eexists. reflexivity.
  - change (scaled _ D) with (D / 31556952000)%float. rewrite div_spec, E0.
    change (Prim2SF 31556952000%float) with (S754_finite false 8272465625088000 (-18)).
    eexists. reflexivity.
Qed.

Lemma unit_count_near (U : chrono.duration_type) (D : double) :
  In U precision_preserving_catalogue ->
  in_conversion_range D = true ->
  isfinite (scaled (chrono.Period U) D) = true
  /\ (Qabs (double_value (scaled (chrono.Period U) D) * scale U - double_value D)
      <= (1 # 2 ^ 53) * Qabs (double_value D))%Q.
Proof.
  intros HU HD. unfold in_conversion_range in HD. rewrite orb_true_iff in HD.
  destruct HD as [HD|HD]; [|apply unit_count_close; assumption].
  destruct (unit_count_zero U D HU HD) as [s Ec].
  destruct (is_zero_SF D HD) as [s0 E0].
  unfold isfinite, double_value. rewrite Ec, E0. split; [reflexivity|].
  cbn [SF2Q]. rewrite Qmult_0_l. discriminate.
Qed.

(** ** Cross-unit consistency *)

(** C9, as written, fails at the ends of the range of [double]: a Duration
    of 2^1000 seconds is finite, in seconds its count is itself, and in
    picoseconds its count is infinite; the smallest positive Duration has
    the count zero in minutes. *)
Lemma cross_unit_as_written_fails :
  (isfinite 0x1p+1000 = true
   /\ view_as ty_double timer.seconds 0x1p+1000 = compiles (Some (v_double 0x1p+1000))
   /\ view_as ty_double timer.picoseconds 0x1p+1000 = compiles (Some (v_double infinity)))%float
  /\ (isfinite 0x1p-1074 = true
      /\ view_as ty_double timer.seconds 0x1p-1074 = compiles (Some (v_double 0x1p-1074))
      /\ view_as ty_double timer.minutes 0x1p-1074 = compiles (Some (v_double 0)))%float.
Proof. repeat split. Qed.

(** C9 (amended). For every Duration [D] that is zero or between 2^-980
    and 2^980 seconds in magnitude, and every two units of the
    precision-preserving catalogue, the counts [as<double>()] of the two
    views are finite and, multiplied by the scales of their units, differ
    by at most 2^-52 of [D]: each is [D] up to one rounding of binary64. *)
Theorem cross_unit_consistency (U1 U2 : chrono.duration_type) (D c1 c2 : double) :
  In U1 precision_preserving_catalogue ->
  In U2 precision_preserving_catalogue ->
  in_conversion_range D = true ->
  view_as ty_double U1 D = compiles (Some (v_double c1)) ->
  view_as ty_double U2 D = compiles (Some (v_double c2)) ->
  isfinite c1 = true /\ isfinite c2 = true
  /\ (Qabs (double_value c1 * scale U1 - double_value c2 * scale U2)
      <= (1 # 2 ^ 52) * Qabs (double_value D))%Q.
Proof.
  intros H1 H2 HD Hc1 Hc2.
  assert (E : forall U, In U precision_preserving_catalogue -> U = floating (chrono.Period U)).
  { intros U HU. cbn in HU.
    destruct HU as [<-|[<-|[<-|[<-|[<-|[<-|[<-|[<-|[<-|[<-|[<-|[<-|[<-|[]]]]]]]]]]]]]];
      reflexivity. }
  rewrite (E U1 H1), view_as_double_of_count in Hc1. injection Hc1 as <-.
  rewrite (E U2 H2), view_as_double_of_count in Hc2. injection Hc2 as <-.
  destruct (unit_count_near U1 D H1 HD) as [F1 G1].
  destruct (unit_count_near U2 D H2 HD) as [F2 G2].
  split; [exact F1|]. split; [exact F2|].
  set (x1 := (double_value (scaled (chrono.Period U1) D) * scale U1)%Q) in *.
  set (x2 := (double_value (scaled (chrono.Period U2) D) * scale U2)%Q) in *.
  set (v := double_value D) in *.
  assert (Ex : (x1 - x2 == (x1 - v) + - (x2 - v))%Q) by ring.
  rewrite Ex. eapply Qle_trans; [apply Qabs_triangle|].
  rewrite Qabs_opp.
  assert (Eb : ((1 # 2 ^ 52) * Qabs v == (1 # 2 ^ 53) * Qabs v + (1 # 2 ^ 53) * Qabs v)%Q).
  { rewrite <- Qmult_plus_distr_l. apply Qmult_comp; reflexivity. }
  rewrite Eb. apply Qplus_le_compat; assumption.
Qed.

(** 750 ms in milliseconds and in millennia. *)
Lemma cross_unit_consistency_witness :
  let D := 0.75%float in
  let c1 := 750%float in
  let c2 := (0.75 / 31556952000)%float in
  In timer.milliseconds precision_preserving_catalogue
  /\ In timer.millennia precision_preserving_catalogue
  /\ in_conversion_range D = true
  /\ view_as ty_double timer.milliseconds D = compiles (Some (v_double c1))
  /\ view_as ty_double timer.millennia D = compiles (Some (v_double c2))
  /\ isfinite c1 = true /\ isfinite c2 = true
  /\ (Qabs (double_value c1 * scale timer.milliseconds
            - double_value c2 * scale timer.millennia)
      <= (1 # 2 ^ 52) * Qabs (double_value D))%Q.
Proof.
  intros D c1 c2.
  assert (H1 : In timer.milliseconds precision_preserving_catalogue) by (cbn; auto).
  assert (H2 : In timer.millennia precision_preserving_catalogue) by (cbn; auto 20).
  assert (H3 : in_conversion_range D = true) by reflexivity.
  assert (H4 : view_as ty_double timer.milliseconds D = compiles (Some (v_double c1)))
    by reflexivity.
  assert (H5 : view_as ty_double timer.millennia D = compiles (Some (v_double c2)))
    by reflexivity.
  do 5 (split; [assumption|]).
  exact (cross_unit_consistency timer.milliseconds timer.millennia D c1 c2 H1 H2 H3 H4 H5).
Defined.

(** * The measured region: storage and undefined behaviour *)

Section MeasurementSafety.

Context {World exception : Type}.
Variable Clock_now : World -> Z * World.
Variable MPI_Wtime : World -> double * World.
Variable BUILD_WITH_MPI_FLAG : bool.

Abbreviation reading' := (clock_reading Clock_now MPI_Wtime BUILD_WITH_MPI_FLAG).

(** The configured clock always gives a time point. *)
Lemma Timer_clock_run (s : timer.state World exception) :
  (if BUILD_WITH_MPI_FLAG
   then timer.time_point_of_MPI_Wtime World exception MPI_Wtime
   else timer.time_point_cast_Clock_now World exception Clock_now) s
  = (timer.returned (fst (reading' (timer.world s))),
     timer.Build_state (snd (reading' (timer.world s))) (timer.stack s) (timer.trace s)).
Proof.
  unfold clock_reading. destruct BUILD_WITH_MPI_FLAG.
  - unfold timer.time_point_of_MPI_Wtime.
    destruct (MPI_Wtime (timer.world s)) as [t w]. reflexivity.
  - unfold timer.time_point_cast_Clock_now.
    destruct (Clock_now (timer.world s)) as [n w]. reflexivity.
Qed.

(** X1. [~Timer()] dereferences [m_TimeReference] without a check.  When the
    pointer designates a live [Duration] the destructor returns, and it
    has written end minus start, the binary64 difference of the time point
    it has just read and the one taken at construction, to that object
    and to no other; when the object is gone (the pointer dangles) the
    behaviour is undefined, the clock having been read and nothing
    stored. *)
Theorem Timer_destroy_dereferences (self : timer.Timer)
    (s : timer.state World exception) :
  let p := timer.m_TimeReference self in
  let t1 := fst (reading' (timer.world s)) in
  let d :=
    chrono.Build_duration (T := timer.Duration_t)
      (chrono.count (timer.time_since_epoch t1)
       - chrono.count (timer.time_since_epoch (timer.m_StartTimePoint self)))%float in
  let r := timer.Timer_destroy World exception Clock_now MPI_Wtime BUILD_WITH_MPI_FLAG self s in
  timer.world (snd r) = snd (reading' (timer.world s))
  /\ match timer.stack s !! p with
     | Some _ =>
         fst r = timer.returned tt
         /\ timer.stack (snd r) = <[p := Some d]> (timer.stack s)
         /\ timer.stack (snd r) !! p = Some (Some d)
         /\ (forall q, q <> p -> timer.stack (snd r) !! q = timer.stack s !! q)
         /\ timer.trace (snd r) = timer.trace s ++ [timer.ev_clock t1; timer.ev_store p d]
     | None =>
         fst r = timer.undefined
         /\ timer.stack (snd r) = timer.stack s
         /\ timer.trace (snd r) = timer.trace s ++ [timer.ev_clock t1]
     end
  /\ (fst r = timer.undefined <-> (length (timer.stack s) <= p)%nat).
Proof.
  intros p t1 d r.
  assert (E : r = match timer.stack s !! p with
                  | Some _ =>
                      (timer.returned tt,
                       timer.Build_state (snd (reading' (timer.world s)))
                         (<[p := Some d]> (timer.stack s))
                         (timer.trace s ++ [timer.ev_clock t1; timer.ev_store p d]))
                  | None =>
                      (timer.undefined,
                       timer.Build_state (snd (reading' (timer.world s)))
                         (timer.stack s) (timer.trace s ++ [timer.ev_clock t1]))
                  end).
  { subst r. unfold timer.Timer_destroy. unfold timer.bind at 1.
    rewrite Timer_clock_run. fold t1.
    unfold timer.bind, timer.emit, timer.store.
    cbn [timer.world timer.stack timer.trace].
    change (timer.TimePoint_sub t1 (timer.m_StartTimePoint self)) with d. fold p.
    destruct (timer.stack s !! p); [rewrite <- app_assoc|]; reflexivity. }
  rewrite E. clear E r.
  destruct (timer.stack s !! p) as [slot|] eqn:Hs;
    cbn [fst snd timer.world timer.stack timer.trace].
  - split; [reflexivity|]. split.
    + split; [reflexivity|]. split; [reflexivity|]. split.
      * apply list_lookup_insert_eq. apply lookup_lt_is_Some. eauto.
      * split; [|reflexivity].
        intros q Hq. apply list_lookup_insert_ne.
        intros Hpq. apply Hq. symmetry. exact Hpq.
    + split; [discriminate|]. intros Hle. apply lookup_ge_None in Hle.
      change (timer.stack s !! p = None) in Hle. rewrite Hs in Hle. discriminate.
  - split; [reflexivity|]. split; [auto|].
    split; [intros _; apply lookup_ge_None; exact Hs | reflexivity].
Qed.

(** X2. [time] never has undefined behaviour: in either overload the slot that
    the destructor writes is live, and the record reads it only after that
    write (the local [Duration] of the value-returning overload starts
    without a value).  The void overload returns a record exactly when
    the callable returns.  The value-returning overload returns a record
    exactly when the callable returns and the constructor that then
    initialises the stored result returns too; an exception that leaves
    it is the callable's or that constructor's.  In every case the call
    leaves the automatic storage of the caller as it found it, and it
    only adds to the events. *)
Theorem time_is_defined (s : timer.state World exception) :
  let w1 := snd (reading' (timer.world s)) in
  (forall toTime : timer.callable World exception unit,
      let r := timer.time_void Clock_now MPI_Wtime BUILD_WITH_MPI_FLAG toTime s in
      fst r <> timer.undefined
      /\ timer.stack (snd r) = timer.stack s
      /\ (exists events, timer.trace (snd r) = timer.trace s ++ events)
      /\ ((exists record, fst r = timer.returned record)
          <-> exists w, fst (toTime w1) = timer.returns w)
      /\ (forall e, fst r = timer.raised e <-> fst (toTime w1) = timer.throws e))
  /\
  (forall ResultType (ops : timer.constructors ResultType)
          (toTime : timer.callable World exception ResultType) m,
      timer.time Clock_now MPI_Wtime BUILD_WITH_MPI_FLAG ops toTime = compiles m ->
      let w3 := snd (reading' (snd (toTime w1))) in
      fst (m s) <> timer.undefined
      /\ timer.stack (snd (m s)) = timer.stack s
      /\ (exists events, timer.trace (snd (m s)) = timer.trace s ++ events)
      /\ ((exists record, fst (m s) = timer.returned record)
          <-> exists v ctor x,
                fst (toTime w1) = timer.returns v
                /\ selected_constructor ops = Some ctor
                /\ fst (ctor v w3) = timer.returns x)
      /\ (forall e,
             fst (m s) = timer.raised e
             <-> fst (toTime w1) = timer.throws e
                 \/ exists v ctor,
                      fst (toTime w1) = timer.returns v
                      /\ selected_constructor ops = Some ctor
                      /\ fst (ctor v w3) = timer.throws e)).
Proof.
  cbv zeta. destruct (reading' (timer.world s)) as [t0 w1] eqn:H0. cbn [snd].
  split.
  - intros toTime.
    destruct (toTime w1) as [o w2] eqn:Hf.
    destruct (reading' w2) as [t1 w3] eqn:H1.
    rewrite (time_void_run Clock_now MPI_Wtime BUILD_WITH_MPI_FLAG toTime s
               t0 w1 o w2 t1 w3 H0 Hf H1).
    cbn [fst snd timer.stack timer.trace].
    split; [destruct o; discriminate|]. split; [reflexivity|]. split; [eauto|].
    destruct o as [[]|e]; split.
    + split; eauto.
    + intros e; split; discriminate.
    + split; intros [x Hx]; discriminate.
    + intros e'; split; intros [= ->]; reflexivity.
  - intros T ops toTime m Hm.
    cbv zeta.
    destruct (toTime w1) as [o w2] eqn:Hf. cbn [snd].
    destruct (reading' w2) as [t1 w3] eqn:H1. cbn [snd].
    destruct (time_run_selected Clock_now MPI_Wtime BUILD_WITH_MPI_FLAG ops toTime m s
                t0 w1 o w2 t1 w3 Hm H0 Hf H1) as (ev & ctor & Hsel & Hrun).
    assert (Hsc : selected_constructor ops = Some ctor).
    { unfold selected_constructor.
      destruct Hsel as [[-> _] | (-> & -> & _)]; reflexivity. }
    rewrite Hrun, Hsc.
    destruct o as [v|e]; cbn [fst snd timer.stack timer.trace].
    + destruct (ctor v w3) as [[x|e] w4] eqn:Hc; cbn [fst];
        (split; [discriminate|]); (split; [reflexivity|]); (split; [eauto|]); split.
      * split; [intros _; exists v, ctor, x; rewrite Hc; auto | eauto].
      * intros e; split; [discriminate|].
        intros [Hd | (v' & c' & [= <-] & [= <-] & Hd)]; [discriminate|].
        rewrite Hc in Hd. discriminate.
      * split; [intros [r Hr]; discriminate|].
        intros (v' & c' & x & [= <-] & [= <-] & Hd).
        rewrite Hc in Hd. discriminate.
      * intros e'; split.
        -- intros [= ->]. right. exists v, ctor. rewrite Hc. auto.
        -- intros [Hd | (v' & c' & [= <-] & [= <-] & Hd)]; [discriminate|].
           rewrite Hc in Hd. injection Hd as ->. reflexivity.
    + split; [discriminate|]. split; [reflexivity|]. split; [eauto|]. split.
      * split; [intros [x Hx]; discriminate|].
        intros (v & c & x & Hd & _). discriminate.
      * intros e'; split.
        -- intros [= ->]. left. reflexivity.
        -- intros [[= ->] | (v & c & Hd & _)]; [reflexivity | discriminate].
Qed.

End MeasurementSafety.

(** * Callables that return a reference *)

Section ReferenceResults.

Context {World exception : Type}.
Variable Clock_now : World -> Z * World.
Variable MPI_Wtime : World -> double * World.
Variable BUILD_WITH_MPI_FLAG : bool.

Abbreviation reading_ := (clock_reading Clock_now MPI_Wtime BUILD_WITH_MPI_FLAG).

(** X14. [time] does not support a callable that returns a reference.  For
    the result type [T&] it is ill-formed: the lambda returns a [T] by
    value and [T& result] cannot be bound to it.  For [const T&], [T&&]
    and [const T&&] it compiles whenever [T] can be copied, and never has
    undefined behaviour itself; it copies (for [T&&]: moves, when [T] has
    a move constructor) the object the callable refers to inside the
    measured region, so that the Duration covers that constructor call,
    and the captured result of the record it returns is a reference to a
    temporary of [time]: once the caller has the record, the temporary is
    gone and reading the captured result is undefined. *)
Theorem time_reference_dangles {T} (ResultType : cpp_reference.reference)
    (ops : timer.constructors T) (toTime : timer.callable World exception T) :
  (ResultType = cpp_reference.lvalue_reference false ->
   timer.time_reference Clock_now MPI_Wtime BUILD_WITH_MPI_FLAG ResultType ops toTime
   = ill_formed)
  /\
  (ResultType <> cpp_reference.lvalue_reference false ->
   timer.copy_constructor ops <> None ->
   exists m,
     timer.time_reference Clock_now MPI_Wtime BUILD_WITH_MPI_FLAG ResultType ops toTime
     = compiles m)
  /\
  (forall m (f : timer.frame World exception T),
      timer.time_reference Clock_now MPI_Wtime BUILD_WITH_MPI_FLAG ResultType ops toTime
      = compiles m ->
      let t0 := fst (reading_ (timer.world (timer.machine f))) in
      let w1 := snd (reading_ (timer.world (timer.machine f))) in
      fst (m f) <> timer.undefined
      /\ timer.temporaries (snd (m f)) = timer.temporaries f
      /\ timer.stack (timer.machine (snd (m f))) = timer.stack (timer.machine f)
      /\ forall record,
           fst (m f) = timer.returned record ->
           fst (timer.read (timer.TimeResult.functionResult record) (snd (m f)))
           = timer.undefined
           /\ exists v ev ctor x,
                fst (toTime w1) = timer.returns v
                /\ ((ResultType = cpp_reference.rvalue_reference false
                     /\ timer.move_constructor ops = Some ctor
                     /\ ev = timer.ev_move_construct)
                    \/ ((ResultType <> cpp_reference.rvalue_reference false
                         \/ timer.move_constructor ops = None)
                        /\ timer.copy_constructor ops = Some ctor
                        /\ ev = timer.ev_copy_construct))
                /\ fst (ctor v (snd (toTime w1))) = timer.returns x
                /\ let t1 := fst (reading_ (snd (ctor v (snd (toTime w1))))) in
                   let elapsed :=
                     chrono.Build_duration (T := timer.Duration_t)
                       (chrono.count (timer.time_since_epoch t1)
                        - chrono.count (timer.time_since_epoch t0))%float in
                   timer.TimeResult.duration record = elapsed
                   /\ timer.trace (timer.machine (snd (m f)))
                      = timer.trace (timer.machine f) ++
                          [timer.ev_clock t0; timer.ev_call; timer.ev_return; ev;
                           timer.ev_clock t1;
                           timer.ev_store (length (timer.stack (timer.machine f)))
                             elapsed]).
Proof.
  split; [|split].
  - intros ->. unfold timer.time_reference.
    destruct (timer.construct_from_reference _ ops); reflexivity.
  - intros Hr Hcp. unfold timer.time_reference.
    assert (Hc : exists c, timer.construct_from_reference (World := World)
                             (exception := exception) ResultType ops = compiles c).
    { unfold timer.construct_from_reference, timer.construct_from_rvalue.
      destruct (timer.copy_constructor ops) as [cp|]; [|contradiction Hcp; reflexivity].
      destruct ResultType as [[|]|[|]]; destruct (timer.move_constructor ops); eauto. }
    destruct Hc as [c ->].
    destruct ResultType as [[|]|[|]]; cbn; eauto. contradiction Hr. reflexivity.
  - intros m f Hm.
    destruct (time_reference_compiles Clock_now MPI_Wtime BUILD_WITH_MPI_FLAG
                ResultType ops toTime m Hm) as (Hr & ev & ctor & Hc & Hsel).
    destruct (reading_ (timer.world (timer.machine f))) as [t0 w1] eqn:H0.
    cbn [fst snd]. cbv zeta.
    destruct (toTime w1) as [o w2] eqn:Hf. cbn [fst snd].
    destruct (time_reference_run Clock_now MPI_Wtime BUILD_WITH_MPI_FLAG
                ResultType ops ev ctor toTime f t0 w1 o w2 Hc Hr H0 Hf)
      as (m' & Hm' & Hrun).
    rewrite Hm in Hm'. injection Hm' as <-. rewrite Hrun. clear Hrun.
    destruct o as [v|e].
    + destruct (ctor v w2) as [oc w2'] eqn:Hctor. cbn [fst snd].
      destruct (reading_ w2') as [t1 w3] eqn:H1.
      cbn [fst snd timer.machine timer.temporaries timer.stack timer.trace].
      split; [destruct oc; discriminate|]. split; [reflexivity|]. split; [reflexivity|].
      intros record Hrec. destruct oc as [x|e]; [|discriminate Hrec].
      injection Hrec as <-. cbn [timer.TimeResult.functionResult timer.TimeResult.duration].
      split.
      * unfold timer.read. cbn [timer.temporaries].
        rewrite (proj2 (lookup_ge_None (timer.temporaries f) _)) by reflexivity.
        reflexivity.
      * exists v, ev, ctor, x. rewrite Hctor. cbn [fst snd]. rewrite H1. cbn [fst].
        split; [reflexivity|]. split; [exact Hsel|].
        split; [reflexivity|]. split; reflexivity.
    + destruct (reading_ w2) as [t1 w3] eqn:H1.
      cbn [fst snd timer.machine timer.temporaries timer.stack].
      split; [discriminate|]. split; [reflexivity|]. split; [reflexivity|].
      intros record Hrec. discriminate Hrec.
Qed.

End ReferenceResults.

(** * Accessors, views and [unwrap] *)

(** [int_wrap] lands in the range of the type, on the value congruent to
    its argument. *)
Lemma int_wrap_spec (t : integer_type) (z : Z) :
  let width := int_max t - int_min t + 1 in
  in_range t (int_wrap t z) = true /\ (int_wrap t z - z) mod width = 0.
Proof.
  intros width.
  assert (Hw : 0 < width) by (subst width; destruct t; cbn; lia).
  unfold in_range, int_wrap. fold width.
  pose proof (Z.mod_pos_bound (z - int_min t) width Hw) as Hb.
  split.
  - rewrite andb_true_iff, !Z.leb_le. subst width. lia.
  - replace ((z - int_min t) mod width + int_min t - z)
      with ((z - int_min t) mod width - (z - int_min t)) by lia.
    rewrite Zminus_mod, Z.mod_mod, Z.sub_diag by lia. apply Z.mod_0_l. lia.
Qed.

(** X3. [as<R>()] for an integer type [R] on a view that holds an integer tick
    never fails and never traps: the result is the value of [R] congruent
    to the tick modulo 2^N, so a tick outside the range of [R] comes back
    wrapped around, and the tick itself comes back exactly when [R] can
    represent it. *)
Theorem as_integer_of_tick_wraps (P : ratio.t)
    (view : timer.TimeView.t (integer_tick P)) (t : integer_type) :
  exists z,
    timer.TimeView.as_ (ty_int t) view = compiles (Some (v_int t z))
    /\ int_min t <= z <= int_max t
    /\ (z - timer.TimeView.count view) mod (int_max t - int_min t + 1) = 0
    /\ (z = timer.TimeView.count view
        <-> int_min t <= timer.TimeView.count view <= int_max t).
Proof.
  exists (int_wrap t (timer.TimeView.count view)).
  destruct (int_wrap_spec t (timer.TimeView.count view)) as [Hr Hm].
  unfold in_range in Hr. rewrite andb_true_iff, !Z.leb_le in Hr.
  split; [reflexivity|]. split; [exact Hr|]. split; [exact Hm|].
  split.
  - intros <-. exact Hr.
  - intros Hc. apply int_wrap_in_range. unfold in_range.
    rewrite andb_true_iff, !Z.leb_le. exact Hc.
Qed.

(** X4. [getDuration], [getDurationCount] and [getDurationView] of a record,
    in both shapes of the record, for a unit of any period:
    - in a floating unit the three are always defined and hold the count
      that [duration_cast] computes in [double], whatever the Duration
      (infinite and NaN included);
    - in an integer-tick unit the three are defined together, exactly when
      that count is finite and its truncation toward zero is an
      [int64_t], and then hold the truncated count; otherwise the
      conversion inside [duration_cast] has no defined result.
    [TimeView::count] and the conversion operator of the view give the
    count and the duration back.  With the default unit,
    [std::chrono::duration<double>], [getDuration] is the Duration of the
    record, unchanged. *)
Theorem accessors_defined_together {T} (r : timer.TimeResult.t T) (P : ratio.t) :
  let D := chrono.count (timer.TimeResult.duration r) in
  let r_void := timer.TimeResult_void.make (timer.TimeResult.duration r) in
  let c := scaled P D in
  let z := Qtruncate (double_value c) in
  let representable := isfinite c && in_range int64_t z in
  (timer.TimeResult.getDuration (floating P) r = Some (chrono.Build_duration (T := floating P) c)
   /\ timer.TimeResult.getDurationCount (floating P) r = Some c
   /\ option_map timer.TimeView.count (timer.TimeResult.getDurationView (floating P) r)
      = Some c
   /\ option_map timer.TimeView.to_ReturnDuration
        (timer.TimeResult.getDurationView (floating P) r)
      = Some (chrono.Build_duration (T := floating P) c))
  /\ (timer.TimeResult.getDuration (integer_tick P) r
      = (if representable then Some (chrono.Build_duration (T := integer_tick P) z) else None)
      /\ timer.TimeResult.getDurationCount (integer_tick P) r
         = (if representable then Some z else None)
      /\ option_map timer.TimeView.count
           (timer.TimeResult.getDurationView (integer_tick P) r)
         = (if representable then Some z else None)
      /\ option_map timer.TimeView.to_ReturnDuration
           (timer.TimeResult.getDurationView (integer_tick P) r)
         = (if representable then Some (chrono.Build_duration (T := integer_tick P) z) else None))
  /\ (timer.TimeResult.getDuration timer.Duration_t r = Some (timer.TimeResult.duration r)
      /\ timer.TimeResult.getDurationCount timer.Duration_t r = Some D)
  /\ (forall U,
         timer.TimeResult_void.getDuration U r_void = timer.TimeResult.getDuration U r
         /\ timer.TimeResult_void.getDurationCount U r_void
            = timer.TimeResult.getDurationCount U r
         /\ timer.TimeResult_void.getDurationView U r_void
            = timer.TimeResult.getDurationView U r).
Proof.
  intros D r_void c z representable.
  assert (Hf : timer.TimeResult.getDuration (floating P) r = Some (chrono.Build_duration (T := floating P) c)).
  { unfold timer.TimeResult.getDuration. rewrite duration_cast_from_Duration. reflexivity. }
  assert (Hi : timer.TimeResult.getDuration (integer_tick P) r
               = if representable then Some (chrono.Build_duration (T := integer_tick P) z) else None).
  { unfold timer.TimeResult.getDuration. rewrite duration_cast_from_Duration.
    cbn [integer_tick chrono.Rep chrono.Period chrono.rep_cast]. fold D c.
    subst representable z.
    destruct (isfinite c) eqn:Hc.
    - rewrite (double_to_int_truncates int64_t c Hc). cbn [andb].
      destruct (in_range int64_t _); reflexivity.
    - rewrite (double_to_int_not_finite int64_t c Hc). reflexivity. }
  split; [|split; [|split]].
  - unfold timer.TimeResult.getDurationCount, timer.TimeResult.getDurationView.
    rewrite Hf. repeat split.
  - unfold timer.TimeResult.getDurationCount, timer.TimeResult.getDurationView.
    rewrite Hi. destruct representable; repeat split.
  - subst D. unfold timer.TimeResult.getDurationCount, timer.TimeResult.getDuration.
    destruct (timer.TimeResult.duration r) as [d]. split; reflexivity.
  - intros U. repeat split.
Qed.

(** X5. [TimeView::unwrap] cannot be used: its body initialises the returned
    [ReturnDuration&&] with [std::move(duration)], and in a [const] member
    function that is an expression of type [const ReturnDuration], which an
    rvalue reference to non-const does not bind to.  Every instantiation
    [view.unwrap()] is ill-formed, for every duration type; the same body
    is well-formed as soon as the returned reference is to const or the
    function is not [const].  The conversion operator, which returns the
    member by value, is what gives the duration. *)
Theorem TimeView_unwrap_is_ill_formed :
  (forall ReturnDuration (view : timer.TimeView.t ReturnDuration),
      timer.TimeView.unwrap view = ill_formed
      /\ timer.TimeView.to_ReturnDuration view = timer.TimeView.duration view)
  /\ (forall in_const_function returns_const,
         cpp_reference.binds (cpp_reference.rvalue_reference returns_const)
           (cpp_reference.std_move (cpp_reference.data_member in_const_function))
         = implb in_const_function returns_const)
  /\ (forall in_const_function returns_const,
         cpp_reference.binds (cpp_reference.rvalue_reference returns_const)
           (cpp_reference.data_member in_const_function)
         = false).
Proof.
  split; [|split].
  - intros RD view. split; reflexivity.
  - intros [] []; reflexivity.
  - intros [] []; reflexivity.
Qed.

(** * Rounding to nearest: order and sign *)

Lemma binary_round_aux_has_sign (s : bool) (m e : Z) (l : location) (a b : Z) :
  0 < b -> locates a b (shr_record_of_loc m l) ->
  has_sign s (binary_round_aux prec emax s m e l).
Proof.
  intros Hb Hloc. unfold binary_round_aux, shr_fexp.
  set (n := fexp prec emax (Zdigits2 m + e) - e).
  destruct (shr_locates a b (shr_record_of_loc m l) e n Hb Hloc) as [Hl1 _].
  destruct (shr (shr_record_of_loc m l) e n) as [rec1 e1]. cbn [fst] in Hl1.
  assert (HB : 0 < 2 ^ Z.max n 0 * b)
    by (apply Z.mul_pos_pos; [apply Z.pow_pos_nonneg; lia | lia]).
  destruct (round_nearest_even_locates a _ rec1 HB Hl1) as [Hm1 _].
  set (m1 := round_nearest_even (shr_m rec1) (loc_of_shr_record rec1)) in *.
  assert (H0 : 0 <= m1) by (destruct Hl1 as (H & _); lia).
  set (n2 := fexp prec emax (Zdigits2 m1 + e1) - e1).
  assert (Hloc2 : locates m1 1 (shr_record_of_loc m1 loc_Exact)).
  { unfold locates. cbn [shr_record_of_loc shr_m shr_r shr_s]. lia. }
  destruct (shr_locates m1 1 _ e1 n2 ltac:(lia) Hloc2) as [Hl2 _].
  destruct (shr (shr_record_of_loc m1 loc_Exact) e1 n2) as [rec2 e2]. cbn [fst] in Hl2.
  destruct Hl2 as (H2 & _).
  destruct (shr_m rec2); cbn [has_sign]; try reflexivity; [|lia].
  destruct (e2 <=? emax - prec); reflexivity.
Qed.

(** A tie goes to the even mantissa. *)
Lemma round_nearest_even_tie (a b : Z) (rec : shr_record) :
  0 < b -> locates a b rec ->
  let m1 := round_nearest_even (shr_m rec) (loc_of_shr_record rec) in
  2 * Z.abs (a - m1 * b) = b -> Z.even m1 = true.
Proof.
  intros Hb. destruct rec as [m r s]. unfold locates. cbn [shr_m shr_r shr_s].
  intros (Hm & Hab & Hloc).
  destruct r, s; cbn [loc_of_shr_record round_nearest_even]; try lia.
  destruct (Z.even m) eqn:He; [intros _; exact He|].
  intros _. rewrite Z.even_add, He. reflexivity.
Qed.

(** The rounding step on a mantissa of at least 53 bits, away from
    underflow and overflow, with [k] the exponent of the last place of
    the binade of the exact value [a / b * 2 ^ e]: the result is the
    canonical float of value [m1 * 2 ^ k] for the nearest [m1], even on a
    tie. *)
Lemma binary_round_aux_nearest (s : bool) (m e : Z) (l : location) (a b : Z) :
  0 < b ->
  0 < m ->
  locates a b (shr_record_of_loc m l) ->
  53 <= Zdigits2 m ->
  -1074 <= Zdigits2 m + e - 53 ->
  Zdigits2 m + e <= 1023 ->
  let k := Zdigits2 m + e - 53 in
  let B := 2 ^ (k - e) * b in
  exists m'' e'' m1,
    binary_round_aux prec emax s m e l = S754_finite s m'' e''
    /\ Zdigits2 (Zpos m'') = 53
    /\ k <= e'' <= k + 1
    /\ Zpos m'' * 2 ^ (e'' - k) = m1
    /\ 2 ^ 52 <= m1 <= 2 ^ 53
    /\ 2 ^ 52 * B <= a < 2 ^ 53 * B
    /\ 2 * Z.abs (a - m1 * B) <= B
    /\ (2 * Z.abs (a - m1 * B) = B -> Z.even m1 = true).
Proof.
  intros Hb Hm Hloc Hd Hlo Hhi k B.
  set (d := Zdigits2 m) in *. set (n := d - 53).
  assert (Ekn : k - e = n) by (unfold k, n; lia).
  assert (Hmb : 2 ^ (d - 1) <= m < 2 ^ d) by (apply Zdigits2_bounds, Hm).
  assert (Hm0 : shr_m (shr_record_of_loc m l) = m) by (destruct l as [|[]]; reflexivity).
  unfold binary_round_aux, shr_fexp. fold d.
  replace (fexp prec emax (d + e) - e) with n
    by (unfold fexp, SpecFloat.emin, prec, emax, n; lia).
  destruct (shr_locates a b (shr_record_of_loc m l) e n Hb Hloc) as [Hl1 He1].
  replace (Z.max n 0) with n in * by (unfold n; lia).
  destruct (shr (shr_record_of_loc m l) e n) as [rec1 e1].
  cbn [fst snd] in Hl1, He1. subst e1.
  unfold B. rewrite Ekn. clear B. set (B := 2 ^ n * b) in *.
  assert (HB : 0 < B) by (apply Z.mul_pos_pos; [apply Z.pow_pos_nonneg; unfold n; lia | lia]).
  assert (HaB : 2 ^ 52 * B <= a < 2 ^ 53 * B).
  { destruct Hloc as (_ & Hab & _). rewrite Hm0 in Hab.
    assert (E1 : 2 ^ (d - 1) = 2 ^ 52 * 2 ^ n)
      by (rewrite <- Z.pow_add_r by (unfold n; lia); f_equal; unfold n; lia).
    assert (E2 : 2 ^ d = 2 ^ 53 * 2 ^ n)
      by (rewrite <- Z.pow_add_r by (unfold n; lia); f_equal; unfold n; lia).
    unfold B. rewrite !Z.mul_assoc, <- E1, <- E2. nia. }
  destruct (round_nearest_even_locates a B rec1 HB Hl1) as [Hm1 Herr].
  pose proof (round_nearest_even_tie a B rec1 HB Hl1) as Htie.
  set (m1 := round_nearest_even (shr_m rec1) (loc_of_shr_record rec1)) in *.
  assert (Hsh : 2 ^ 52 <= shr_m rec1 < 2 ^ 53).
  { destruct Hl1 as (_ & Hab & _). nia. }
  assert (Ek : e + n = k) by (unfold k, n; lia). rewrite Ek.
  destruct (Z.eq_dec m1 (2 ^ 53)) as [Hc|Hc].
  - (* the rounding carried into a 54th bit *)
    rewrite Hc.
    replace (Zdigits2 (2 ^ 53)) with 54 by reflexivity.
    replace (fexp prec emax (54 + k) - k) with 1
      by (unfold fexp, SpecFloat.emin, prec, emax; lia).
    cbn [shr_record_of_loc shr SpecFloat.iter_pos shr_1 shr_m].
    change (Z.pos (Pos.iter xO 1%positive 52%positive)) with (2 ^ 52) in *.
    exists (Pos.pow 2 52), (k + 1), m1.
    replace (k + 1 <=? emax - prec) with true
      by (symmetry; apply Z.leb_le; unfold prec, emax; lia).
    split; [reflexivity|]. split; [reflexivity|]. split; [lia|].
    split; [rewrite Hc; replace (k + 1 - k) with 1 by lia; reflexivity|].
    split; [lia|]. split; [exact HaB|]. split; [exact Herr | exact Htie].
  - assert (Hm1b : 2 ^ (53 - 1) <= m1 < 2 ^ 53) by (change (53 - 1) with 52; lia).
    rewrite (Zdigits2_unique m1 53 Hm1b) by lia.
    replace (fexp prec emax (53 + k) - k) with 0
      by (unfold fexp, SpecFloat.emin, prec, emax; lia).
    cbn [shr_record_of_loc shr fst snd shr_m].
    destruct m1 as [|p1|p1] eqn:Em1; try lia.
    exists p1, k, (Zpos p1).
    replace (k <=? emax - prec) with true
      by (symmetry; apply Z.leb_le; unfold prec, emax; lia).
    split; [reflexivity|]. split; [apply (Zdigits2_unique _ 53 Hm1b); lia|].
    split; [lia|]. split; [rewrite Z.sub_diag; lia|].
    split; [lia|]. split; [exact HaB|]. split; [exact Herr | exact Htie].
Qed.
Lemma Qpower_2_le (a b : Z) : a <= b -> (2 ^ a <= 2 ^ b)%Q.
Proof.
  intros H. replace b with (a + (b - a)) by lia. rewrite Qpower_2_add.
  rewrite <- (Qmult_1_r (2 ^ a)) at 1.
  apply Qmult_le_l; [apply Qpower_2_positive|].
  rewrite <- Qpower_2_inject by lia.
  change 1%Q with (inject_Z 1). rewrite <- Zle_Qle.
  pose proof (Z.pow_pos_nonneg 2 (b - a)). lia.
Qed.

Lemma Qpower_2_succ (a : Z) : (2 ^ (a + 1) == 2 * 2 ^ a)%Q.
Proof. rewrite Qpower_2_add. change (2 ^ 1)%Q with 2%Q. ring. Qed.

Lemma nearest53_positive (v F : Q) : nearest53 v F -> (0 < v /\ 0 < F)%Q.
Proof.
  intros (k & m1 & Hm & HF & Hlo & Hhi & Herr & _).
  pose proof (Qpower_2_positive k) as Hk.
  assert (H52 : (0 < inject_Z (2 ^ 52) * 2 ^ k)%Q)
    by (apply Qmult_lt_0_compat; [reflexivity | exact Hk]).
  split; [eapply Qlt_le_trans; eassumption|].
  rewrite HF. apply Qmult_lt_0_compat; [|exact Hk].
  change 0%Q with (inject_Z 0). rewrite <- Zlt_Qlt. lia.
Qed.

(** Rounding to nearest preserves the order. *)
Lemma nearest53_monotone (v F v' F' : Q) :
  nearest53 v F -> nearest53 v' F' -> (v <= v')%Q -> (F <= F')%Q.
Proof.
  intros (k & m1 & Hm & HF & Hlo & Hhi & Herr & Htie)
         (k' & m1' & Hm' & HF' & Hlo' & Hhi' & Herr' & Htie') Hv.
  pose proof (Qpower_2_positive k) as Hk.
  pose proof (Qpower_2_positive k') as Hk'.
  destruct (Z.lt_trichotomy k k') as [Hlt|[<-|Hgt]].
  - (* a lower binade *)
    pose proof (Qpower_2_le (k + 1) k' ltac:(lia)) as Hp. rewrite Qpower_2_succ in Hp.
    rewrite HF, HF'.
    apply Qle_trans with (inject_Z (2 ^ 53) * 2 ^ k)%Q.
    + apply Qmult_le_compat_r; [rewrite <- Zle_Qle; lia | lra].
    + apply Qle_trans with (inject_Z (2 ^ 52) * 2 ^ k')%Q.
      * change (inject_Z (2 ^ 53)) with (2 * inject_Z (2 ^ 52))%Q.
        assert (H52 : (0 < inject_Z (2 ^ 52))%Q) by reflexivity.
        set (c := inject_Z (2 ^ 52)) in *. nra.
      * apply Qmult_le_compat_r; [rewrite <- Zle_Qle; lia | lra].
  - (* the same binade *)
    destruct (Z_le_gt_dec m1 m1') as [Hle|Hgt].
    + rewrite HF, HF'. apply Qmult_le_compat_r; [rewrite <- Zle_Qle; lia | lra].
    + exfalso.
      assert (Hstep : (inject_Z m1' * 2 ^ k + 2 ^ k <= inject_Z m1 * 2 ^ k)%Q).
      { assert (E0 : (inject_Z m1' * 2 ^ k + 2 ^ k == inject_Z (m1' + 1) * 2 ^ k)%Q)
          by (rewrite inject_Z_plus; ring).
        rewrite E0.
        apply Qmult_le_compat_r; [rewrite <- Zle_Qle; lia | lra]. }
      rewrite HF in *. rewrite HF' in *.
      set (x := (inject_Z m1 * 2 ^ k)%Q) in *. set (x' := (inject_Z m1' * 2 ^ k)%Q) in *.
      assert (T1 : (2 * (x - v) == 2 ^ k)%Q) by lra.
      assert (T2 : (2 * (v' - x') == 2 ^ k)%Q) by lra.
      assert (E : (x == x' + 2 ^ k)%Q) by lra.
      assert (Em : m1 = m1' + 1).
      { unfold x, x' in E.
        assert (E' : (inject_Z m1 * 2 ^ k == inject_Z (m1' + 1) * 2 ^ k)%Q)
          by (rewrite E, inject_Z_plus; change (inject_Z 1) with 1%Q; ring).
        apply Qmult_inj_r in E'; [|apply Qpower_2_nonzero]. rewrite inject_Z_injective in E'. exact E'. }
      pose proof (Htie (or_intror T1)) as He.
      pose proof (Htie' (or_introl T2)) as He'.
      rewrite Em, Z.even_add, He' in He. discriminate He.
  - (* a higher binade: excluded by the order *)
    exfalso.
    pose proof (Qpower_2_le (k' + 1) k ltac:(lia)) as Hp. rewrite Qpower_2_succ in Hp.
    change (inject_Z (2 ^ 53)) with (2 * inject_Z (2 ^ 52))%Q in Hhi'.
    assert (H52 : (0 < inject_Z (2 ^ 52))%Q) by reflexivity.
    set (c := inject_Z (2 ^ 52)) in *. nra.
Qed.

(** *** From the integers of the rounding step to rationals *)

Lemma inject_Z_minus (x y : Z) : (inject_Z (x - y) == inject_Z x - inject_Z y)%Q.
Proof. unfold Z.sub. rewrite inject_Z_plus, inject_Z_opp. reflexivity. Qed.

Lemma inject_Z_scale_le (x y : Z) (u : Q) :
  (0 < u)%Q -> x <= y -> (inject_Z x * u <= inject_Z y * u)%Q.
Proof.
  intros Hu H. apply Qmult_le_compat_r; [rewrite <- Zle_Qle; exact H | lra].
Qed.

Lemma inject_Z_scale_lt (x y : Z) (u : Q) :
  (0 < u)%Q -> x < y -> (inject_Z x * u < inject_Z y * u)%Q.
Proof.
  intros Hu H. apply Qmult_lt_compat_r; [exact Hu | rewrite <- Zlt_Qlt; exact H].
Qed.

Lemma inject_Z_scale_eq (x y : Z) (u : Q) :
  (0 < u)%Q -> (inject_Z x * u == inject_Z y * u)%Q -> x = y.
Proof.
  intros Hu H. apply Qmult_inj_r in H; [|lra].
  rewrite inject_Z_injective in H. exact H.
Qed.

(** The conclusion of [binary_round_aux_nearest], on the exact value
    [a / b * 2 ^ e] and the value of the result. *)
Lemma nearest53_of_integers (a b e k m1 : Z) (m'' : positive) (e'' : Z) :
  0 < b -> e <= k -> k <= e'' ->
  Zpos m'' * 2 ^ (e'' - k) = m1 ->
  2 ^ 52 <= m1 <= 2 ^ 53 ->
  2 ^ 52 * (2 ^ (k - e) * b) <= a < 2 ^ 53 * (2 ^ (k - e) * b) ->
  2 * Z.abs (a - m1 * (2 ^ (k - e) * b)) <= 2 ^ (k - e) * b ->
  (2 * Z.abs (a - m1 * (2 ^ (k - e) * b)) = 2 ^ (k - e) * b -> Z.even m1 = true) ->
  nearest53 (inject_Z a / inject_Z b * 2 ^ e) (inject_Z (Zpos m'') * 2 ^ e'').
Proof.
  intros Hb Hek Hke Em1 Hm1 Hab Herr Htie.
  set (B := 2 ^ (k - e) * b) in *.
  set (u := (2 ^ e / inject_Z b)%Q).
  assert (Hbq : (0 < inject_Z b)%Q) by (change 0%Q with (inject_Z 0); rewrite <- Zlt_Qlt; exact Hb).
  assert (Hu : (0 < u)%Q).
  { unfold u. apply Qlt_shift_div_l; [exact Hbq|]. rewrite Qmult_0_l. apply Qpower_2_positive. }
  assert (Ev : (inject_Z a / inject_Z b * 2 ^ e == inject_Z a * u)%Q)
    by (unfold u; field; lra).
  assert (Ek : (2 ^ k == inject_Z B * u)%Q).
  { unfold u, B. rewrite inject_Z_mult, Qpower_2_inject by lia.
    replace k with ((k - e) + e) at 1 by lia. rewrite Qpower_2_add. field. lra. }
  assert (EF : (inject_Z (Zpos m'') * 2 ^ e'' == inject_Z (m1 * B) * u)%Q).
  { rewrite inject_Z_mult, <- Qmult_assoc, <- Ek, <- Em1.
    rewrite inject_Z_mult, Qpower_2_inject by lia.
    replace e'' with ((e'' - k) + k) at 1 by lia. rewrite Qpower_2_add. ring. }
  exists k, m1. split; [exact Hm1|].
  rewrite Ev, Ek, EF.
  split; [rewrite inject_Z_mult; ring|].
  split; [rewrite Qmult_assoc, <- inject_Z_mult; apply inject_Z_scale_le; [exact Hu | lia]|].
  split; [rewrite Qmult_assoc, <- inject_Z_mult; apply inject_Z_scale_lt; [exact Hu | lia]|].
  assert (Ed : (2 * (inject_Z a * u - inject_Z (m1 * B) * u)
                == inject_Z (2 * (a - m1 * B)) * u)%Q).
  { rewrite !inject_Z_mult, inject_Z_minus, inject_Z_mult. change (inject_Z 2) with 2%Q. ring. }
  assert (Ed' : (2 * (inject_Z (m1 * B) * u - inject_Z a * u)
                 == inject_Z (2 * (m1 * B - a)) * u)%Q).
  { rewrite !inject_Z_mult, inject_Z_minus, inject_Z_mult. change (inject_Z 2) with 2%Q. ring. }
  split; [split|].
  - rewrite Ed.
    assert (En : (- (inject_Z B * u) == inject_Z (- B) * u)%Q) by (rewrite inject_Z_opp; ring).
    rewrite En. apply inject_Z_scale_le; [exact Hu | lia].
  - rewrite Ed. apply inject_Z_scale_le; [exact Hu | lia].
  - intros [H|H]; apply Htie.
    + rewrite Ed in H. apply inject_Z_scale_eq in H; [lia | exact Hu].
    + rewrite Ed' in H. apply inject_Z_scale_eq in H; [lia | exact Hu].
Qed.

(** The relative error of a nearest value is at most 2^-53. *)
Lemma nearest53_error (v F : Q) :
  nearest53 v F -> (Qabs (F - v) <= (1 # 2 ^ 53) * v)%Q.
Proof.
  intros (k & m1 & Hm & HF & Hlo & Hhi & Herr & _).
  change (inject_Z (2 ^ 52)) with (4503599627370496 # 1)%Q in Hlo.
  change (1 # 2 ^ 53)%Q with (1 # 9007199254740992)%Q.
  apply Qabs_case; intros _; lra.
Qed.

(** A value that fits the last place of its binade is its own nearest
    value: [v] is the integer [N] in units of [2 ^ j] and is less than
    [2 ^ 53] such units. *)
Lemma nearest53_exact (v F : Q) (N j : Z) :
  nearest53 v F ->
  (v == inject_Z N * 2 ^ j)%Q -> N < 2 ^ 53 ->
  (F == v)%Q.
Proof.
  intros (k & m1 & Hm & HF & Hlo & Hhi & Herr & _) Ev HN.
  pose proof (Qpower_2_positive k) as Hk.
  pose proof (Qpower_2_positive j) as Hj.
  assert (Hkj : k <= j).
  { destruct (Z_le_gt_dec k j) as [H|H]; [exact H|]. exfalso.
    pose proof (Qpower_2_le (j + 1) k ltac:(lia)) as Hp. rewrite Qpower_2_succ in Hp.
    assert (Hv : (v < inject_Z (2 ^ 53) * 2 ^ j)%Q)
      by (rewrite Ev; apply inject_Z_scale_lt; assumption).
    change (inject_Z (2 ^ 53)) with (2 * inject_Z (2 ^ 52))%Q in Hv.
    assert (H52 : (0 < inject_Z (2 ^ 52))%Q) by reflexivity.
    set (c := inject_Z (2 ^ 52)) in *. nra. }
  assert (Ev' : (v == inject_Z (N * 2 ^ (j - k)) * 2 ^ k)%Q).
  { rewrite Ev, inject_Z_mult, Qpower_2_inject by lia.
    replace j with ((j - k) + k) at 1 by lia. rewrite Qpower_2_add. ring. }
  set (N' := N * 2 ^ (j - k)) in *.
  assert (EN : N' = m1).
  { rewrite HF, Ev' in Herr.
    assert (H1 : (inject_Z (2 * (N' - m1) - 1) * 2 ^ k <= inject_Z 0 * 2 ^ k)%Q).
    { rewrite inject_Z_minus, inject_Z_mult, inject_Z_minus.
      change (inject_Z 2) with 2%Q. change (inject_Z 1) with 1%Q. change (inject_Z 0) with 0%Q.
      lra. }
    assert (H2 : (inject_Z 0 * 2 ^ k <= inject_Z (2 * (N' - m1) + 1) * 2 ^ k)%Q).
    { rewrite inject_Z_plus, inject_Z_mult, inject_Z_minus.
      change (inject_Z 2) with 2%Q. change (inject_Z 1) with 1%Q. change (inject_Z 0) with 0%Q.
      lra. }
    apply Qmult_le_r in H1; [|exact Hk]. apply Qmult_le_r in H2; [|exact Hk].
    rewrite <- Zle_Qle in H1, H2. lia. }
  rewrite HF, Ev', EN. reflexivity.
Qed.

Lemma nearest53_compat (v v' F F' : Q) :
  (v == v')%Q -> (F == F')%Q -> nearest53 v F -> nearest53 v' F'.
Proof.
  intros Ev EF (k & m1 & Hm & HF & Hlo & Hhi & Herr & Htie).
  exists k, m1. rewrite <- Ev, <- EF. repeat split; tauto.
Qed.

(** *** Magnitudes *)

Lemma SF2Q_magnitude (s : bool) (m : positive) (e : Z) :
  (SF2Q (S754_finite s m e) == if s then - magnitude m e else magnitude m e)%Q.
Proof.
  unfold SF2Q, magnitude. destruct s; cbn [cond_Zopp]; [|reflexivity].
  change (Z.neg m) with (- Z.pos m). rewrite inject_Z_opp. ring.
Qed.

Lemma magnitude_positive (m : positive) (e : Z) : (0 < magnitude m e)%Q.
Proof.
  unfold magnitude. apply Qmult_lt_0_compat; [reflexivity | apply Qpower_2_positive].
Qed.

(** Multiplication by a positive double, full mantissas, away from
    underflow and overflow: the nearest double to the exact product. *)
Lemma SF64mul_nearest (sx : bool) (mx : positive) (ex : Z) (mk : positive) (ek : Z) :
  Zdigits2 (Zpos mx) = 53 ->
  Zdigits2 (Zpos mk) = 53 ->
  -1126 <= ex + ek <= 917 ->
  exists m'' e'',
    SF64mul (S754_finite sx mx ex) (S754_finite false mk ek) = S754_finite sx m'' e''
    /\ Zdigits2 (Zpos m'') = 53
    /\ ex + ek + 52 <= e'' <= ex + ek + 54
    /\ nearest53 (magnitude mx ex * magnitude mk ek) (magnitude m'' e'').
Proof.
  intros Hdx Hdk He.
  pose proof (Zdigits2_bounds (Zpos mx) eq_refl) as Hx. rewrite Hdx in Hx.
  pose proof (Zdigits2_bounds (Zpos mk) eq_refl) as Hk. rewrite Hdk in Hk.
  change (53 - 1) with 52 in *.
  assert (HP : 2 ^ 104 <= Zpos mx * Zpos mk < 2 ^ 106).
  { change (2 ^ 104) with (2 ^ 52 * 2 ^ 52). change (2 ^ 106) with (2 ^ 53 * 2 ^ 53). nia. }
  pose proof (Zdigits2_bounds (Zpos mx * Zpos mk) eq_refl) as Hd.
  set (d := Zdigits2 (Zpos mx * Zpos mk)) in *.
  assert (Hd' : 105 <= d <= 106).
  { split.
    - destruct (Z_lt_le_dec d 105) as [H|H]; [|exact H]. exfalso.
      pose proof (Zdigits2_nonneg (Zpos mx * Zpos mk)) as H0. fold d in H0.
      pose proof (Z.pow_le_mono_r 2 d 104). lia.
    - destruct (Z_lt_le_dec 106 d) as [H|H]; [|exact H]. exfalso.
      pose proof (Z.pow_le_mono_r 2 106 (d - 1)). lia. }
  destruct (binary_round_aux_nearest (xorb sx false) (Zpos mx * Zpos mk) (ex + ek)
              loc_Exact (Zpos mx * Zpos mk) 1)
    as (m'' & e'' & m1 & Hr & Hd53 & Hke & Em1 & Hm1 & Hab & Herr & Htie);
    try (fold d; lia).
  { unfold locates. cbn [shr_record_of_loc shr_m shr_r shr_s]. lia. }
  fold d in Hke, Em1, Hab, Herr, Htie.
  exists m'', e''. rewrite xorb_false_r in Hr.
  split; [unfold SF64mul, SFmul; rewrite xorb_false_r; exact Hr|].
  split; [exact Hd53|]. split; [lia|].
  eapply nearest53_compat;
    [| reflexivity
     | exact (nearest53_of_integers _ 1 (ex + ek) (d + (ex + ek) - 53) m1 m'' e''
                ltac:(lia) ltac:(lia) ltac:(lia) Em1 Hm1 Hab Herr Htie)].
  unfold magnitude. rewrite inject_Z_mult, Qpower_2_add. field.
Qed.

(** Division by a positive double, likewise. *)
Lemma SF64div_nearest (sx : bool) (mx : positive) (ex : Z) (mk : positive) (ek : Z) :
  Zdigits2 (Zpos mx) = 53 ->
  Zdigits2 (Zpos mk) = 53 ->
  -1021 <= ex - ek <= 1022 ->
  exists m'' e'',
    SF64div (S754_finite sx mx ex) (S754_finite false mk ek) = S754_finite sx m'' e''
    /\ Zdigits2 (Zpos m'') = 53
    /\ ex - ek - 53 <= e'' <= ex - ek - 51
    /\ nearest53 (magnitude mx ex / magnitude mk ek) (magnitude m'' e'').
Proof.
  intros Hdx Hdk He.
  pose proof (Zdigits2_bounds (Zpos mx) eq_refl) as Hx. rewrite Hdx in Hx.
  pose proof (Zdigits2_bounds (Zpos mk) eq_refl) as Hk. rewrite Hdk in Hk.
  change (53 - 1) with 52 in *.
  unfold SF64div, SFdiv, SFdiv_core_binary. rewrite Hdx, Hdk, xorb_false_r.
  replace (Z.min (fexp prec emax (53 + ex - (53 + ek))) (ex - ek)) with (ex - ek - 53)
    by (unfold fexp, SpecFloat.emin, prec, emax; lia).
  replace (ex - ek - (ex - ek - 53)) with 53 by lia.
  rewrite Z.shiftl_mul_pow2 by lia.
  pose proof (Z_div_mod (Zpos mx * 2 ^ 53) (Zpos mk) eq_refl) as Hdiv.
  destruct (Z.div_eucl (Zpos mx * 2 ^ 53) (Zpos mk)) as [q r].
  destruct Hdiv as [Hqr Hr].
  assert (Hq : 2 ^ 52 <= q < 2 ^ 54).
  { change (2 ^ 54) with (2 ^ 1 * 2 ^ 53). nia. }
  pose proof (Zdigits2_bounds q ltac:(lia)) as Hd.
  set (d := Zdigits2 q) in *.
  assert (Hd' : 53 <= d <= 54).
  { split.
    - destruct (Z_lt_le_dec d 53) as [H|H]; [|exact H]. exfalso.
      pose proof (Zdigits2_nonneg q) as H0. fold d in H0.
      pose proof (Z.pow_le_mono_r 2 d 52). lia.
    - destruct (Z_lt_le_dec 54 d) as [H|H]; [|exact H]. exfalso.
      pose proof (Z.pow_le_mono_r 2 54 (d - 1)). lia. }
  destruct (binary_round_aux_nearest sx q (ex - ek - 53)
              (new_location (Zpos mk) r) (Zpos mx * 2 ^ 53) (Zpos mk))
    as (m'' & e'' & m1 & Hres & Hd53 & Hke & Em1 & Hm1 & Hab & Herr & Htie);
    try (fold d; lia).
  { apply new_location_locates; lia. }
  fold d in Hke, Em1, Hab, Herr, Htie.
  exists m'', e''. split; [exact Hres|]. split; [exact Hd53|]. split; [lia|].
  eapply nearest53_compat;
    [| reflexivity
     | exact (nearest53_of_integers _ (Zpos mk) (ex - ek - 53) (d + (ex - ek - 53) - 53)
                m1 m'' e'' ltac:(lia) ltac:(lia) ltac:(lia) Em1 Hm1 Hab Herr Htie)].
  unfold magnitude. rewrite inject_Z_mult, Qpower_2_inject by lia.
  replace ex with (53 + (ex - ek - 53) + ek) at 2 by lia.
  rewrite !Qpower_2_add. field.
  split; [apply Qpower_2_nonzero | apply inject_Z_pos_nonzero].
Qed.

(** *** Conversion of an integer *)

Lemma iter_xO_pow2 (m d : positive) : Zpos (Pos.iter xO m d) = Zpos m * 2 ^ Zpos d.
Proof.
  rewrite <- Z.shiftl_mul_pow2 by lia. cbn [Z.shiftl].
  apply (Pos.iter_swap_gen _ _ Zpos xO (Z.mul 2)). reflexivity.
Qed.

(** The alignment of a mantissa on a lower exponent. *)
Lemma shl_align_value (m : positive) (e e' : Z) :
  e' <= e ->
  Zpos (fst (shl_align m e e')) = Zpos m * 2 ^ (e - e')
  /\ snd (shl_align m e e') = e'.
Proof.
  intros H. unfold shl_align.
  destruct (e' - e) as [|d|d] eqn:E; try lia; cbn [fst snd].
  - replace (e - e') with 0 by lia. split; lia.
  - rewrite iter_xO_pow2. replace (e - e') with (Zpos d) by lia. split; reflexivity.
Qed.

Lemma Zdigits2_shift (m : positive) (n : Z) :
  0 <= n -> Zdigits2 (Zpos m * 2 ^ n) = Zdigits2 (Zpos m) + n.
Proof.
  intros Hn. pose proof (Zdigits2_bounds (Zpos m) eq_refl) as Hb.
  pose proof (Zdigits2_nonneg (Zpos m)) as H0.
  assert (Hd : 0 < Zdigits2 (Zpos m)) by (cbn; lia).
  apply Zdigits2_unique; [|lia].
  replace (Zdigits2 (Z.pos m) + n - 1) with ((Zdigits2 (Z.pos m) - 1) + n) by lia.
  rewrite !Z.pow_add_r by lia.
  pose proof (Z.pow_pos_nonneg 2 n). nia.
Qed.

(** [binary_round] on a mantissa of any length, away from underflow and
    overflow: the nearest double to [m * 2 ^ e]. *)
Lemma binary_round_nearest (s : bool) (m : positive) (e : Z) :
  let d := Zdigits2 (Zpos m) in
  -1074 <= d + e - 53 ->
  d + e <= 1023 ->
  exists m'' e'',
    binary_round prec emax s m e = S754_finite s m'' e''
    /\ Zdigits2 (Zpos m'') = 53
    /\ d + e - 53 <= e'' <= d + e - 52
    /\ nearest53 (magnitude m e) (magnitude m'' e'').
Proof.
  intros d Hlo Hhi. unfold binary_round.
  change (Z.pos (digits2_pos m)) with d.
  replace (fexp prec emax (d + e)) with (d + e - 53)
    by (unfold fexp, SpecFloat.emin, prec, emax; lia).
  destruct (Z_lt_le_dec d 53) as [Hd|Hd].
  - (* fewer than 53 bits: the mantissa is aligned to the left *)
    destruct (shl_align_value m e (d + e - 53) ltac:(lia)) as [Em Ee].
    destruct (shl_align m e (d + e - 53)) as [mz ez]. cbn [fst snd] in Em, Ee. subst ez.
    replace (e - (d + e - 53)) with (53 - d) in Em by lia.
    assert (Hdz : Zdigits2 (Zpos mz) = 53)
      by (rewrite Em, Zdigits2_shift by lia; fold d; lia).
    destruct (binary_round_aux_nearest s (Zpos mz) (d + e - 53) loc_Exact (Zpos mz) 1)
      as (m'' & e'' & m1 & Hr & Hd53 & Hke & Em1 & Hm1 & Hab & Herr & Htie);
      try (rewrite ?Hdz; lia).
    { unfold locates. cbn [shr_record_of_loc shr_m shr_r shr_s]. lia. }
    rewrite Hdz in Hke, Em1, Hab, Herr, Htie.
    exists m'', e''. split; [exact Hr|]. split; [exact Hd53|]. split; [lia|].
    eapply nearest53_compat;
      [| reflexivity
       | exact (nearest53_of_integers _ 1 (d + e - 53) (53 + (d + e - 53) - 53) m1 m'' e''
                  ltac:(lia) ltac:(lia) ltac:(lia) Em1 Hm1 Hab Herr Htie)].
    unfold magnitude. rewrite Em, inject_Z_mult, Qpower_2_inject by lia.
    replace e with ((53 - d) + (d + e - 53)) at 2 by lia.
    rewrite Qpower_2_add. field.
  - (* at least 53 bits: no alignment *)
    assert (Es : shl_align m e (d + e - 53) = (m, e)).
    { unfold shl_align. destruct (d + e - 53 - e) eqn:E; try reflexivity. lia. }
    rewrite Es.
    destruct (binary_round_aux_nearest s (Zpos m) e loc_Exact (Zpos m) 1)
      as (m'' & e'' & m1 & Hr & Hd53 & Hke & Em1 & Hm1 & Hab & Herr & Htie);
      try (fold d; lia).
    { unfold locates. cbn [shr_record_of_loc shr_m shr_r shr_s]. lia. }
    fold d in Hke, Em1, Hab, Herr, Htie.
    exists m'', e''. split; [exact Hr|]. split; [exact Hd53|]. split; [lia|].
    eapply nearest53_compat;
      [| reflexivity
       | exact (nearest53_of_integers _ 1 e (d + e - 53) m1 m'' e''
                  ltac:(lia) ltac:(lia) ltac:(lia) Em1 Hm1 Hab Herr Htie)].
    unfold magnitude. field.
Qed.

(** A float with a full mantissa and an exponent in range is a double. *)
Lemma full_mantissa_valid (s : bool) (m : positive) (e : Z) :
  Zdigits2 (Zpos m) = 53 -> -1074 <= e <= 971 ->
  valid_binary (S754_finite s m e) = true.
Proof.
  intros Hd He. unfold valid_binary, bounded, canonical_mantissa.
  cbn [Zdigits2] in Hd. rewrite Hd.
  rewrite andb_true_iff, Z.eqb_eq, Z.leb_le.
  unfold fexp, SpecFloat.emin, prec, emax. lia.
Qed.

(** The double of a non-zero integer of at most 1023 bits: its sign, and
    the nearest double to its magnitude. *)
Lemma Z_to_double_nearest (n : Z) :
  n <> 0 -> Zdigits2 n <= 1023 ->
  exists m e,
    Prim2SF (Z_to_double n) = S754_finite (n <? 0) m e
    /\ Zdigits2 (Zpos m) = 53
    /\ Zdigits2 n - 53 <= e <= Zdigits2 n - 52
    /\ nearest53 (inject_Z (Z.abs n)) (magnitude m e).
Proof.
  intros Hn Hd. unfold Z_to_double.
  assert (H : forall (s : bool) (p : positive),
             Zdigits2 (Zpos p) <= 1023 ->
             exists m e,
               Prim2SF (SF2Prim (binary_round prec emax s p 0)) = S754_finite s m e
               /\ Zdigits2 (Zpos m) = 53
               /\ Zdigits2 (Zpos p) - 53 <= e <= Zdigits2 (Zpos p) - 52
               /\ nearest53 (inject_Z (Zpos p)) (magnitude m e)).
  { intros s p Hp.
    pose proof (Zdigits2_nonneg (Zpos p)) as H0.
    assert (H1 : 0 < Zdigits2 (Zpos p)) by (cbn; lia).
    destruct (binary_round_nearest s p 0) as (m & e & Hr & Hd53 & He & Hnear); try lia.
    exists m, e. rewrite Hr, Prim2SF_SF2Prim by (apply full_mantissa_valid; lia).
    split; [reflexivity|]. split; [exact Hd53|]. split; [lia|].
    eapply nearest53_compat; [| reflexivity | exact Hnear].
    unfold magnitude. change (2 ^ 0)%Q with 1%Q. ring. }
  destruct n as [|p|p]; [congruence | |]; cbn [binary_normalize Z.abs Z.ltb Z.compare].
  - apply H. exact Hd.
  - apply H. exact Hd.
Qed.

(** *** Subtraction *)

Lemma has_sign_nonnegative (r : spec_float) :
  has_sign false r -> SFleb (S754_zero false) r = true.
Proof. destruct r as [s|s| |s m e]; cbn; try intros ->; try reflexivity. intros []. Qed.

(** A finite float as an integer in units of [2 ^ e'], for [e'] no
    greater than its exponent. *)
Lemma SF2Q_aligned (s : bool) (m : positive) (e e' : Z) :
  e' <= e ->
  (SF2Q (S754_finite s m e)
   == inject_Z (cond_Zopp s (Zpos (fst (shl_align m e e')))) * 2 ^ e')%Q.
Proof.
  intros H. destruct (shl_align_value m e e' H) as [E _]. rewrite E.
  unfold SF2Q. rewrite inject_Z_cond_Zopp_mul, Qpower_2_inject by lia.
  replace e with ((e - e') + e') at 1 by lia. rewrite Qpower_2_add. ring.
Qed.

Lemma binary_normalize_has_sign (z e : Z) :
  0 <= z -> has_sign false (binary_normalize prec emax z e false).
Proof.
  intros Hz. destruct z as [|p|p]; try lia; cbn [binary_normalize has_sign]; [reflexivity|].
  unfold binary_round.
  destruct (shl_align p e _) as [mz ez].
  apply (binary_round_aux_has_sign false (Zpos mz) ez loc_Exact (Zpos mz) 1); [lia|].
  unfold locates. cbn [shr_record_of_loc shr_m shr_r shr_s]. lia.
Qed.

(** The difference of two finite floats, the greater first, is not NaN
    and not negative. *)
Lemma SF64sub_nonnegative (x y : spec_float) :
  is_finite_SF x = true -> is_finite_SF y = true ->
  (SF2Q x <= SF2Q y)%Q ->
  SFleb (S754_zero false) (SF64sub y x) = true.
Proof.
  intros Hx Hy Hle.
  destruct x as [sx| | |sx mx ex]; try discriminate;
    destruct y as [sy| | |sy my ey]; try discriminate.
  - destruct sx, sy; reflexivity.
  - destruct sy; [|reflexivity]. exfalso.
    pose proof (SF2Q_negative my ey) as Hn.
    change (SF2Q (S754_zero sx)) with 0%Q in Hle. lra.
  - destruct sx; [reflexivity|]. exfalso.
    pose proof (SF2Q_positive mx ex) as Hp.
    change (SF2Q (S754_zero sy)) with 0%Q in Hle. lra.
  - unfold SF64sub, SFsub. set (ez := Z.min ey ex).
    apply has_sign_nonnegative, binary_normalize_has_sign.
    rewrite (SF2Q_aligned sx mx ex ez), (SF2Q_aligned sy my ey ez) in Hle by (unfold ez; lia).
    apply Qmult_le_r in Hle; [|apply Qpower_2_positive].
    rewrite <- Zle_Qle in Hle. lia.
Qed.

(** *** The time points of the steady clock *)

(** The time point of a tick count of at most 64 bits, in seconds: the
    count converted to [double], then divided by 1e9 in [double]. *)
Lemma steady_time_point_nearest (n : Z) :
  n <> 0 -> Zdigits2 n <= 64 ->
  exists m e y,
    Prim2SF (Z_to_double n / 1e9)%float = S754_finite (n <? 0) m e
    /\ Zdigits2 (Zpos m) = 53
    /\ -82 <= e <= -16
    /\ nearest53 (inject_Z (Z.abs n)) y
    /\ nearest53 (y / inject_Z 1000000000) (magnitude m e).
Proof.
  intros Hn Hd.
  pose proof (Zdigits2_nonneg n) as H0.
  assert (H1 : 0 < Zdigits2 n) by (destruct n; cbn; lia).
  destruct (Z_to_double_nearest n Hn ltac:(lia)) as (mx & ex & Ex & Hdx & Hex & Hnx).
  destruct (SF64div_nearest (n <? 0) mx ex 8388608000000000 (-23) Hdx eq_refl ltac:(lia))
    as (m & e & Ediv & Hdm & He & Hnear).
  exists m, e, (magnitude mx ex).
  split.
  { rewrite div_spec, Ex.
    change (Prim2SF 1e9) with (S754_finite false 8388608000000000 (-23)). exact Ediv. }
  split; [exact Hdm|]. split; [lia|]. split; [exact Hnx|].
  eapply nearest53_compat; [| reflexivity | exact Hnear].
  apply Qeq_sym. unfold Qdiv. apply Qmult_comp; [reflexivity|].
  apply Qinv_comp. vm_compute. reflexivity.
Qed.

(** The magnitudes of the time points follow the magnitudes of the tick
    counts. *)
Lemma steady_time_point_order (n n' : Z) (m m' : positive) (e e' : Z) (s s' : bool) :
  0 < Z.abs n <= Z.abs n' -> Zdigits2 n' <= 64 ->
  Prim2SF (Z_to_double n / 1e9)%float = S754_finite s m e ->
  Prim2SF (Z_to_double n' / 1e9)%float = S754_finite s' m' e' ->
  (magnitude m e <= magnitude m' e')%Q.
Proof.
  intros Hn Hd E E'.
  assert (Hdn : Zdigits2 n <= 64).
  { destruct (Z_le_gt_dec (Zdigits2 n) 64) as [H|H]; [exact H|]. exfalso.
    assert (Ea : forall k, Zdigits2 (Z.abs k) = Zdigits2 k) by (intros []; reflexivity).
    pose proof (Zdigits2_bounds (Z.abs n) ltac:(lia)) as Hb.
    pose proof (Zdigits2_bounds (Z.abs n') ltac:(lia)) as Hb'.
    rewrite !Ea in Hb, Hb'.
    pose proof (Z.pow_le_mono_r 2 (Zdigits2 n') (Zdigits2 n - 1)). lia. }
  destruct (steady_time_point_nearest n ltac:(lia) Hdn)
    as (m1 & e1 & y & E1 & _ & _ & Hy & Ht).
  destruct (steady_time_point_nearest n' ltac:(lia) Hd)
    as (m1' & e1' & y' & E1' & _ & _ & Hy' & Ht').
  rewrite E in E1. injection E1 as _ <- <-.
  rewrite E' in E1'. injection E1' as _ <- <-.
  apply (nearest53_monotone _ _ _ _ Ht Ht').
  assert (Hyy : (y <= y')%Q).
  { apply (nearest53_monotone _ _ _ _ Hy Hy'). rewrite <- Zle_Qle. lia. }
  unfold Qdiv. apply Qmult_le_compat_r; [exact Hyy | discriminate].
Qed.

(** The conversion of the reading of the steady clock to a time point in
    seconds is finite and preserves the order of the readings. *)
Lemma steady_time_point_monotone (n n' : Z) :
  Zdigits2 n <= 64 -> Zdigits2 n' <= 64 -> n <= n' ->
  isfinite (Z_to_double n / 1e9)%float = true
  /\ isfinite (Z_to_double n' / 1e9)%float = true
  /\ (double_value (Z_to_double n / 1e9)%float
      <= double_value (Z_to_double n' / 1e9)%float)%Q.
Proof.
  intros Hd Hd' Hle.
  assert (Hcase : forall k, Zdigits2 k <= 64 ->
            (k = 0 /\ Prim2SF (Z_to_double k / 1e9)%float = S754_zero false)
            \/ (k <> 0 /\ exists m e,
                   Prim2SF (Z_to_double k / 1e9)%float = S754_finite (k <? 0) m e)).
  { intros k Hk. destruct (Z.eq_dec k 0) as [->|Hk0]; [left; split; reflexivity|].
    right. split; [exact Hk0|].
    destruct (steady_time_point_nearest k Hk0 Hk) as (m & e & _ & E & _). eauto. }
  unfold isfinite, double_value.
  destruct (Hcase n Hd) as [[En E]|[Hn (m & e & E)]];
    destruct (Hcase n' Hd') as [[En' E']|[Hn' (m' & e' & E')]];
    rewrite E, E'; cbn [is_finite_SF]; (split; [reflexivity|]); (split; [reflexivity|]).
  - apply Qle_refl.
  - replace (n' <? 0) with false by (symmetry; apply Z.ltb_ge; lia).
    apply Qlt_le_weak, SF2Q_positive.
  - replace (n <? 0) with true by (symmetry; apply Z.ltb_lt; lia).
    apply Qlt_le_weak, SF2Q_negative.
  - rewrite !SF2Q_magnitude.
    destruct (Z.ltb_spec n 0) as [Hneg|Hpos]; destruct (Z.ltb_spec n' 0) as [Hneg'|Hpos'].
    + (* both before the epoch *)
      apply Qopp_le_compat.
      apply (steady_time_point_order n' n m' m e' e _ _ ltac:(lia) Hd E' E).
    + pose proof (magnitude_positive m e). pose proof (magnitude_positive m' e'). lra.
    + lia.
    + apply (steady_time_point_order n n' m m' e e' _ _ ltac:(lia) Hd' E E').
Qed.

(** *** The order of doubles *)

Lemma magnitude_exponent_lt (m m' : positive) (e e' : Z) :
  Zdigits2 (Zpos m) <= 53 -> Zdigits2 (Zpos m') = 53 -> e < e' ->
  (magnitude m e < magnitude m' e')%Q.
Proof.
  intros Hd Hd' He.
  pose proof (Zdigits2_bounds (Zpos m) eq_refl) as Hb.
  pose proof (Zdigits2_bounds (Zpos m') eq_refl) as Hb'. rewrite Hd' in Hb'.
  change (53 - 1) with 52 in Hb'.
  assert (Hm : Zpos m < 2 ^ 53).
  { pose proof (Z.pow_le_mono_r 2 (Zdigits2 (Zpos m)) 53). lia. }
  unfold magnitude.
  pose proof (Qpower_2_positive e) as Hp.
  pose proof (Qpower_2_le (e + 1) e' ltac:(lia)) as Hle. rewrite Qpower_2_succ in Hle.
  apply Qlt_le_trans with (inject_Z (2 ^ 53) * 2 ^ e)%Q.
  - apply inject_Z_scale_lt; assumption.
  - apply Qle_trans with (inject_Z (2 ^ 52) * 2 ^ e')%Q.
    + change (inject_Z (2 ^ 53)) with (2 * inject_Z (2 ^ 52))%Q.
      assert (H52 : (0 < inject_Z (2 ^ 52))%Q) by reflexivity.
      set (c := inject_Z (2 ^ 52)) in *. nra.
    + apply inject_Z_scale_le; [apply Qpower_2_positive | lia].
Qed.

Lemma magnitude_mantissa_le (m m' : positive) (e : Z) :
  (m <= m')%positive -> (magnitude m e <= magnitude m' e)%Q.
Proof.
  intros H. unfold magnitude. apply inject_Z_scale_le; [apply Qpower_2_positive | lia].
Qed.

(** [<=] on finite doubles is the order of their values. *)
Lemma SFleb_value (x y : spec_float) :
  valid_binary x = true -> valid_binary y = true ->
  is_finite_SF x = true -> is_finite_SF y = true ->
  SFleb x y = true -> (SF2Q x <= SF2Q y)%Q.
Proof.
  intros Vx Vy Hx Hy.
  destruct x as [sx| | |sx mx ex]; try discriminate;
    destruct y as [sy| | |sy my ey]; try discriminate; unfold SFleb, SFcompare.
  - destruct sy; [discriminate|]. intros _. apply Qlt_le_weak, SF2Q_positive.
  - destruct sx; [|discriminate]. intros _. apply Qlt_le_weak, SF2Q_negative.
  - assert (Cx : Zdigits2 (Zpos mx) <= 53 /\ (-1074 <= ex) /\ (-1074 < ex -> Zdigits2 (Zpos mx) = 53)).
    { unfold valid_binary, bounded, canonical_mantissa in Vx.
      rewrite andb_true_iff, Z.eqb_eq, Z.leb_le in Vx.
      unfold fexp, SpecFloat.emin, prec, emax in Vx. cbn [Zdigits2]. lia. }
    assert (Cy : Zdigits2 (Zpos my) <= 53 /\ (-1074 <= ey) /\ (-1074 < ey -> Zdigits2 (Zpos my) = 53)).
    { unfold valid_binary, bounded, canonical_mantissa in Vy.
      rewrite andb_true_iff, Z.eqb_eq, Z.leb_le in Vy.
      unfold fexp, SpecFloat.emin, prec, emax in Vy. cbn [Zdigits2]. lia. }
    rewrite !SF2Q_magnitude.
    pose proof (magnitude_positive mx ex) as Px.
    pose proof (magnitude_positive my ey) as Py.
    destruct sx, sy; try discriminate; [| intros _; lra |].
    + (* both negative *)
      destruct (Z.compare_spec ex ey) as [->|Hlt|Hgt]; try discriminate.
      * change (Pos.compare_cont Eq mx my) with (Pos.compare mx my).
        destruct (Pos.compare_spec mx my) as [->|Hm|Hm]; cbn [CompOpp]; try discriminate;
          intros _; [apply Qle_refl|].
        apply Qopp_le_compat, magnitude_mantissa_le. lia.
      * intros _. apply Qopp_le_compat, Qlt_le_weak.
        apply magnitude_exponent_lt; [tauto | apply Cx; lia | lia].
    + (* both positive *)
      destruct (Z.compare_spec ex ey) as [->|Hlt|Hgt]; try discriminate.
      * change (Pos.compare_cont Eq mx my) with (Pos.compare mx my).
        destruct (Pos.compare_spec mx my) as [->|Hm|Hm]; try discriminate;
          intros _; [apply Qle_refl|].
        apply magnitude_mantissa_le. lia.
      * intros _. apply Qlt_le_weak.
        apply magnitude_exponent_lt; [tauto | apply Cy; lia | lia].
Qed.

(** For finite doubles [a <= b], [b - a] is not NaN and not negative. *)
Lemma double_sub_nonnegative (a b : double) :
  isfinite a = true -> isfinite b = true ->
  (a <=? b)%float = true ->
  (0 <=? b - a)%float = true.
Proof.
  intros Ha Hb Hle. rewrite leb_spec in *. rewrite sub_spec.
  change (Prim2SF 0) with (S754_zero false).
  apply SF64sub_nonnegative; [exact Ha | exact Hb|].
  apply SFleb_value; auto using Prim2SF_valid.
Qed.

Lemma int64_digits (n : Z) : in_range int64_t n = true -> Zdigits2 n <= 64.
Proof.
  unfold in_range. rewrite andb_true_iff, !Z.leb_le. cbn [int_min int_max]. intros [H1 H2].
  destruct (Z.eq_dec n 0) as [->|Hn]; [cbn; lia|].
  assert (Ea : Zdigits2 (Z.abs n) = Zdigits2 n) by (destruct n; reflexivity).
  pose proof (Zdigits2_bounds (Z.abs n) ltac:(lia)) as Hb. rewrite Ea in Hb.
  destruct (Z_le_gt_dec (Zdigits2 n) 64) as [H|H]; [exact H|]. exfalso.
  pose proof (Z.pow_le_mono_r 2 64 (Zdigits2 n - 1)). lia.
Qed.

Section MeasuredDurations.

Context {World exception : Type}.
Variable Clock_now : World -> Z * World.
Variable MPI_Wtime : World -> double * World.

(** X6. With the steady clock, whose readings never decrease: the Duration
    that [time] measures is never negative and never NaN.  The two
    readings are converted to seconds in [double] one by one, and the
    conversion keeps their order; the difference of the two time points is
    taken afterwards. *)
Theorem steady_clock_duration_is_not_negative (s : timer.state World exception)
    (n0 n1 : Z) (w1 w2 w3 : World) :
  Clock_now (timer.world s) = (n0, w1) ->
  Clock_now w2 = (n1, w3) ->
  in_range int64_t n0 = true ->
  in_range int64_t n1 = true ->
  n0 <= n1 ->
  (forall (toTime : timer.callable World exception unit) o record,
      toTime w1 = (o, w2) ->
      fst (timer.time_void Clock_now MPI_Wtime false toTime s) = timer.returned record ->
      is_nonnegative (timer.TimeResult_void.duration record) = true)
  /\
  (forall ResultType (ops : timer.constructors ResultType)
          (toTime : timer.callable World exception ResultType) m o record,
      timer.time Clock_now MPI_Wtime false ops toTime = compiles m ->
      toTime w1 = (o, w2) ->
      fst (m s) = timer.returned record ->
      is_nonnegative (timer.TimeResult.duration record) = true).
Proof.
  intros H0 H1 R0 R1 Hle.
  set (t0 := timer.Build_TimePoint
               (chrono.Build_duration (T := timer.Duration_t) (Z_to_double n0 / 1e9)%float)).
  set (t1 := timer.Build_TimePoint
               (chrono.Build_duration (T := timer.Duration_t) (Z_to_double n1 / 1e9)%float)).
  assert (Hr0 : clock_reading Clock_now MPI_Wtime false (timer.world s) = (t0, w1))
    by (unfold clock_reading; rewrite H0; reflexivity).
  assert (Hr1 : clock_reading Clock_now MPI_Wtime false w2 = (t1, w3))
    by (unfold clock_reading; rewrite H1; reflexivity).
  assert (Hpos : is_nonnegative (timer.TimePoint_sub t1 t0) = true).
  { unfold is_nonnegative, timer.TimePoint_sub, t0, t1.
    cbn [timer.time_since_epoch chrono.count].
    destruct (steady_time_point_monotone n0 n1 (int64_digits n0 R0) (int64_digits n1 R1) Hle)
      as (F0 & F1 & Hv).
    rewrite leb_spec, sub_spec. change (Prim2SF 0) with (S754_zero false).
    apply SF64sub_nonnegative; assumption. }
  split.
  - intros toTime o record Hf.
    rewrite (time_void_run Clock_now MPI_Wtime false toTime s t0 w1 o w2 t1 w3 Hr0 Hf Hr1).
    cbn [fst]. destruct o as [[]|e]; [|discriminate]. intros [= <-]. exact Hpos.
  - intros T ops toTime m o record Hm Hf.
    destruct (time_run_selected Clock_now MPI_Wtime false ops toTime m s
                t0 w1 o w2 t1 w3 Hm Hr0 Hf Hr1) as (ev & ctor & _ & Hrun).
    rewrite Hrun.
    destruct o as [v|e]; cbn [fst]; [|discriminate].
    destruct (fst (ctor v w3)); [|discriminate]. intros [= <-]. exact Hpos.
Qed.

(** X7. With [MPI_Wtime], for finite readings [a0] and [a1] of which the
    second is not below the first: the Duration that [time] records is
    [a1 - a0] in [double], the difference of the two readings rounded
    once, and it is never negative and never NaN. *)
Theorem MPI_duration_is_not_negative (s : timer.state World exception)
    (a0 a1 : double) (w1 w2 w3 : World) :
  MPI_Wtime (timer.world s) = (a0, w1) ->
  MPI_Wtime w2 = (a1, w3) ->
  isfinite a0 = true ->
  isfinite a1 = true ->
  (a0 <=? a1)%float = true ->
  (forall (toTime : timer.callable World exception unit) o record,
      toTime w1 = (o, w2) ->
      fst (timer.time_void Clock_now MPI_Wtime true toTime s) = timer.returned record ->
      chrono.count (timer.TimeResult_void.duration record) = (a1 - a0)%float
      /\ is_nonnegative (timer.TimeResult_void.duration record) = true)
  /\
  (forall ResultType (ops : timer.constructors ResultType)
          (toTime : timer.callable World exception ResultType) m o record,
      timer.time Clock_now MPI_Wtime true ops toTime = compiles m ->
      toTime w1 = (o, w2) ->
      fst (m s) = timer.returned record ->
      chrono.count (timer.TimeResult.duration record) = (a1 - a0)%float
      /\ is_nonnegative (timer.TimeResult.duration record) = true).
Proof.
  intros H0 H1 F0 F1 Hle.
  set (t0 := timer.Build_TimePoint (chrono.Build_duration (T := timer.Duration_t) a0)).
  set (t1 := timer.Build_TimePoint (chrono.Build_duration (T := timer.Duration_t) a1)).
  assert (Hr0 : clock_reading Clock_now MPI_Wtime true (timer.world s) = (t0, w1))
    by (unfold clock_reading; rewrite H0; reflexivity).
  assert (Hr1 : clock_reading Clock_now MPI_Wtime true w2 = (t1, w3))
    by (unfold clock_reading; rewrite H1; reflexivity).
  assert (Hpos : is_nonnegative (timer.TimePoint_sub t1 t0) = true)
    by (apply double_sub_nonnegative; assumption).
  split.
  - intros toTime o record Hf.
    rewrite (time_void_run Clock_now MPI_Wtime true toTime s t0 w1 o w2 t1 w3 Hr0 Hf Hr1).
    cbn [fst]. destruct o as [[]|e]; [|discriminate]. intros [= <-].
    split; [reflexivity | exact Hpos].
  - intros T ops toTime m o record Hm Hf.
    destruct (time_run_selected Clock_now MPI_Wtime true ops toTime m s
                t0 w1 o w2 t1 w3 Hm Hr0 Hf Hr1) as (ev & ctor & _ & Hrun).
    rewrite Hrun.
    destruct o as [v|e]; cbn [fst]; [|discriminate].
    destruct (fst (ctor v w3)); [|discriminate]. intros [= <-].
    split; [reflexivity | exact Hpos].
Qed.

End MeasuredDurations.

(** The demo's [doLongTask] under [time], steady clock. *)
Lemma steady_clock_duration_is_not_negative_witness :
  let w2 := demo.sleep_for 750000000 demo.initial_world in
  demo.Clock_now (timer.world demo.initial_state) = (1000000000, demo.initial_world)
  /\ demo.Clock_now w2 = (1750000123, w2)
  /\ in_range int64_t 1000000000 = true
  /\ in_range int64_t 1750000123 = true
  /\ 1000000000 <= 1750000123
  /\ exists record,
       fst (timer.time_void demo.Clock_now demo.MPI_Wtime false demo.doLongTask
              demo.initial_state) = timer.returned record
       /\ is_nonnegative (timer.TimeResult_void.duration record) = true.
Proof.
  intros w2.
  assert (H0 : demo.Clock_now (timer.world demo.initial_state)
               = (1000000000, demo.initial_world)) by reflexivity.
  assert (H1 : demo.Clock_now w2 = (1750000123, w2)) by reflexivity.
  assert (R0 : in_range int64_t 1000000000 = true) by reflexivity.
  assert (R1 : in_range int64_t 1750000123 = true) by reflexivity.
  assert (Hle : 1000000000 <= 1750000123) by lia.
  do 5 (split; [assumption|]).
  eexists. split; [reflexivity|].
  exact (proj1 (steady_clock_duration_is_not_negative demo.Clock_now demo.MPI_Wtime
                  demo.initial_state 1000000000 1750000123 demo.initial_world w2 w2
                  H0 H1 R0 R1 Hle)
           demo.doLongTask (timer.returns tt) _ eq_refl eq_refl).
Defined.

(** The demo's [doLongTaskWithReturn] under [time], in MPI mode. *)
Lemma MPI_duration_is_not_negative_witness :
  let w2 := demo.sleep_for 1000000000 demo.initial_world in
  demo.MPI_Wtime (timer.world demo.initial_state) = (1%float, demo.initial_world)
  /\ demo.MPI_Wtime w2 = (demo.wtime w2, w2)
  /\ isfinite 1%float = true
  /\ isfinite (demo.wtime w2) = true
  /\ (1 <=? demo.wtime w2)%float = true
  /\ exists m record,
       timer.time demo.Clock_now demo.MPI_Wtime true demo.int_constructors
         demo.doLongTaskWithReturn = compiles m
       /\ fst (m demo.initial_state) = timer.returned record
       /\ chrono.count (timer.TimeResult.duration record) = (demo.wtime w2 - 1)%float
       /\ is_nonnegative (timer.TimeResult.duration record) = true.
Proof.
  intros w2.
  assert (H0 : demo.MPI_Wtime (timer.world demo.initial_state)
               = (1%float, demo.initial_world)) by reflexivity.
  assert (H1 : demo.MPI_Wtime w2 = (demo.wtime w2, w2)) by reflexivity.
  assert (F0 : isfinite 1%float = true) by reflexivity.
  assert (F1 : isfinite (demo.wtime w2) = true) by reflexivity.
  assert (Hle : (1 <=? demo.wtime w2)%float = true) by reflexivity.
  do 5 (split; [assumption|]).
  eexists. eexists. split; [reflexivity|]. split; [reflexivity|].
  exact (proj2 (MPI_duration_is_not_negative demo.Clock_now demo.MPI_Wtime
                  demo.initial_state 1%float (demo.wtime w2) demo.initial_world w2 w2
                  H0 H1 F0 F1 Hle)
           Z demo.int_constructors demo.doLongTaskWithReturn _ (timer.returns 42) _
           eq_refl eq_refl eq_refl).
Defined.

(** * Views: order, range and exactness *)

(** *** The counts of the catalogue, unit by unit *)

(** The count of a Duration of the normal range in a unit shorter than
    the second: [D * k], the nearest double to the exact product. *)
Lemma mul_count_nearest (D k : double) (S : Q) (mk : positive) (ek : Z) :
  in_normal_range D = true ->
  Prim2SF k = S754_finite false mk ek ->
  Zdigits2 (Zpos mk) = 53 ->
  -94 <= ek <= -11 ->
  (S * magnitude mk ek == 1)%Q ->
  exists s m e m' e',
    Prim2SF D = S754_finite s m e
    /\ Prim2SF (D * k)%float = S754_finite s m' e'
    /\ Zdigits2 (Zpos m') = 53
    /\ -1032 <= e <= 928
    /\ e + ek + 52 <= e' <= e + ek + 54
    /\ nearest53 (magnitude m e / S) (magnitude m' e').
Proof.
  intros HD Hk Hdk Hek HS.
  destruct (conversion_range_SF D HD) as (s & m & e & ED & Hd & He).
  destruct (SF64mul_nearest s m e mk ek Hd Hdk ltac:(lia))
    as (m' & e' & Hmul & Hd' & He' & Hnear).
  exists s, m, e, m', e'. split; [exact ED|].
  split; [rewrite mul_spec, ED, Hk; exact Hmul|].
  split; [exact Hd'|]. split; [lia|]. split; [lia|].
  eapply nearest53_compat; [| reflexivity | exact Hnear].
  pose proof (magnitude_positive mk ek) as Hp.
  assert (HS0 : ~ (S == 0)%Q) by (intros H0; rewrite H0 in HS; lra).
  apply (Qmult_inj_r _ _ S HS0).
  assert (E1 : (magnitude m e * magnitude mk ek * S == magnitude m e * (S * magnitude mk ek))%Q)
    by ring.
  rewrite E1, HS. field. exact HS0.
Qed.

(** In a unit longer than the second: [D / k]. *)
Lemma div_count_nearest (D k : double) (S : Q) (mk : positive) (ek : Z) :
  in_normal_range D = true ->
  Prim2SF k = S754_finite false mk ek ->
  Zdigits2 (Zpos mk) = 53 ->
  -94 <= ek <= -11 ->
  (S == magnitude mk ek)%Q ->
  exists s m e m' e',
    Prim2SF D = S754_finite s m e
    /\ Prim2SF (D / k)%float = S754_finite s m' e'
    /\ Zdigits2 (Zpos m') = 53
    /\ -1032 <= e <= 928
    /\ e - ek - 53 <= e' <= e - ek - 51
    /\ nearest53 (magnitude m e / S) (magnitude m' e').
Proof.
  intros HD Hk Hdk Hek HS.
  destruct (conversion_range_SF D HD) as (s & m & e & ED & Hd & He).
  destruct (SF64div_nearest s m e mk ek Hd Hdk ltac:(lia))
    as (m' & e' & Hdiv & Hd' & He' & Hnear).
  exists s, m, e, m', e'. split; [exact ED|].
  split; [rewrite div_spec, ED, Hk; exact Hdiv|].
  split; [exact Hd'|]. split; [lia|]. split; [lia|].
  eapply nearest53_compat; [| reflexivity | exact Hnear].
  rewrite HS. reflexivity.
Qed.

(** Every unit of the precision-preserving catalogue but the second: the
    count of a Duration of the normal range is the nearest double to the
    Duration divided by the scale of the unit, with the sign of the
    Duration. *)
Lemma unit_count_nearest (U : chrono.duration_type) (D : double) :
  In U precision_preserving_catalogue ->
  U <> timer.seconds ->
  in_normal_range D = true ->
  exists s m e m' e',
    Prim2SF D = S754_finite s m e
    /\ Prim2SF (scaled (chrono.Period U) D) = S754_finite s m' e'
    /\ Zdigits2 (Zpos m') = 53
    /\ -1074 <= e' <= 971
    /\ nearest53 (magnitude m e / scale U) (magnitude m' e').
Proof.
  intros HU Hs HD. cbn in HU.
  assert (Hmul : forall k S mk ek,
             Prim2SF k = S754_finite false mk ek ->
             Zdigits2 (Zpos mk) = 53 -> -94 <= ek <= -11 ->
             (S * magnitude mk ek == 1)%Q ->
             exists s m e m' e',
               Prim2SF D = S754_finite s m e
               /\ Prim2SF (D * k)%float = S754_finite s m' e'
               /\ Zdigits2 (Zpos m') = 53
               /\ -1074 <= e' <= 971
               /\ nearest53 (magnitude m e / S) (magnitude m' e')).
  { intros k S mk ek Hk Hdk Hek HS.
    destruct (mul_count_nearest D k S mk ek HD Hk Hdk Hek HS)
      as (s & m & e & m' & e' & H1 & H2 & H3 & H4 & H5 & H6).
    exists s, m, e, m', e'. repeat split; try assumption; lia. }
  assert (Hdiv : forall k S mk ek,
             Prim2SF k = S754_finite false mk ek ->
             Zdigits2 (Zpos mk) = 53 -> -94 <= ek <= -11 ->
             (S == magnitude mk ek)%Q ->
             exists s m e m' e',
               Prim2SF D = S754_finite s m e
               /\ Prim2SF (D / k)%float = S754_finite s m' e'
               /\ Zdigits2 (Zpos m') = 53
               /\ -1074 <= e' <= 971
               /\ nearest53 (magnitude m e / S) (magnitude m' e')).
  { intros k S mk ek Hk Hdk Hek HS.
    destruct (div_count_nearest D k S mk ek HD Hk Hdk Hek HS)
      as (s & m & e & m' & e' & H1 & H2 & H3 & H4 & H5 & H6).
    exists s, m, e, m', e'. repeat split; try assumption; lia. }
  destruct HU as [<-|[<-|[<-|[<-|[<-|[<-|[<-|[<-|[<-|[<-|[<-|[<-|[<-|[]]]]]]]]]]]]]].
  - change (scaled _ D) with (D * 1000000000000)%float.
    apply (Hmul 1000000000000%float (scale timer.picoseconds) 8192000000000000%positive (-13));
      [reflexivity | reflexivity | lia | vm_compute; reflexivity].
  - change (scaled _ D) with (D * 1000000000)%float.
    apply (Hmul 1000000000%float (scale timer.nanoseconds) 8388608000000000%positive (-23));
      [reflexivity | reflexivity | lia | vm_compute; reflexivity].
  - change (scaled _ D) with (D * 1000000)%float.
    apply (Hmul 1000000%float (scale timer.microseconds) 8589934592000000%positive (-33));
      [reflexivity | reflexivity | lia | vm_compute; reflexivity].
  - change (scaled _ D) with (D * 1000)%float.
    apply (Hmul 1000%float (scale timer.milliseconds) 8796093022208000%positive (-43));
      [reflexivity | reflexivity | lia | vm_compute; reflexivity].
  - congruence.
  - change (scaled _ D) with (D / 60)%float.
    apply (Hdiv 60%float (scale timer.minutes) 8444249301319680%positive (-47));
      [reflexivity | reflexivity | lia | vm_compute; reflexivity].
  - change (scaled _ D) with (D / 3600)%float.
    apply (Hdiv 3600%float (scale timer.hours) 7916483719987200%positive (-41));
      [reflexivity | reflexivity | lia | vm_compute; reflexivity].
  - change (scaled _ D) with (D / 86400)%float.
    apply (Hdiv 86400%float (scale timer.days) 5937362789990400%positive (-36));
      [reflexivity | reflexivity | lia | vm_compute; reflexivity].
  - change (scaled _ D) with (D / 604800)%float.
    apply (Hdiv 604800%float (scale timer.weeks) 5195192441241600%positive (-33));
      [reflexivity | reflexivity | lia | vm_compute; reflexivity].
  - change (scaled _ D) with (D / 31556952)%float.
    apply (Hdiv 31556952%float (scale timer.years) 8471004800090112%positive (-28));
      [reflexivity | reflexivity | lia | vm_compute; reflexivity].
  - change (scaled _ D) with (D / 315569520)%float.
    apply (Hdiv 315569520%float (scale timer.decades) 5294378000056320%positive (-24));
      [reflexivity | reflexivity | lia | vm_compute; reflexivity].
  - change (scaled _ D) with (D / 3155695200)%float.
    apply (Hdiv 3155695200%float (scale timer.centuries) 6617972500070400%positive (-21));
      [reflexivity | reflexivity | lia | vm_compute; reflexivity].
  - change (scaled _ D) with (D / 31556952000)%float.
    apply (Hdiv 31556952000%float (scale timer.millennia) 8272465625088000%positive (-18));
      [reflexivity | reflexivity | lia | vm_compute; reflexivity].
Qed.

Lemma scale_positive (U : chrono.duration_type) :
  In U precision_preserving_catalogue -> (0 < scale U)%Q.
Proof.
  intros HU. cbn in HU.
  destruct HU as [<-|[<-|[<-|[<-|[<-|[<-|[<-|[<-|[<-|[<-|[<-|[<-|[<-|[]]]]]]]]]]]]]];
    reflexivity.
Qed.

(** A Duration of the conversion range and its count in a unit of the
    catalogue: both zero, or both finite with the same sign, the magnitude
    of the count nearest to the magnitude of the Duration over the
    scale. *)
Lemma unit_count_cases (U : chrono.duration_type) (D : double) :
  In U precision_preserving_catalogue ->
  U <> timer.seconds ->
  in_conversion_range D = true ->
  ((exists s s', Prim2SF D = S754_zero s
                 /\ Prim2SF (scaled (chrono.Period U) D) = S754_zero s')
   \/ (exists s m e m' e',
          Prim2SF D = S754_finite s m e
          /\ Prim2SF (scaled (chrono.Period U) D) = S754_finite s m' e'
          /\ Zdigits2 (Zpos m') = 53
          /\ -1074 <= e' <= 971
          /\ nearest53 (magnitude m e / scale U) (magnitude m' e'))).
Proof.
  intros HU Hs HD. unfold in_conversion_range in HD. rewrite orb_true_iff in HD.
  destruct HD as [HD|HD].
  - left. destruct (is_zero_SF D HD) as [s E]. destruct (unit_count_zero U D HU HD) as [s' E'].
    eauto.
  - right. apply unit_count_nearest; assumption.
Qed.

(** The count in a unit of the catalogue follows the order of the
    Durations. *)
Lemma scaled_monotone (U : chrono.duration_type) (D D' : double) :
  In U precision_preserving_catalogue ->
  in_conversion_range D = true ->
  in_conversion_range D' = true ->
  (double_value D <= double_value D')%Q ->
  (double_value (scaled (chrono.Period U) D)
   <= double_value (scaled (chrono.Period U) D'))%Q.
Proof.
  intros HU HD HD' Hle.
  assert (Hdec : U = timer.seconds \/ U <> timer.seconds).
  { cbn in HU.
    destruct HU as [<-|[<-|[<-|[<-|[<-|[<-|[<-|[<-|[<-|[<-|[<-|[<-|[<-|[]]]]]]]]]]]]]];
      (left; reflexivity) || (right; discriminate). }
  destruct Hdec as [->|Hs]; [exact Hle|].
  pose proof (scale_positive U HU) as HS.
  unfold double_value in *.
  destruct (unit_count_cases U D HU Hs HD)
    as [(s & s1 & E & Ec)|(s & m & e & m1 & e1 & E & Ec & _ & _ & Hn)];
    destruct (unit_count_cases U D' HU Hs HD')
      as [(s' & s1' & E' & Ec')|(s' & m' & e' & m1' & e1' & E' & Ec' & _ & _ & Hn')];
    rewrite E, E' in Hle; rewrite Ec, Ec'.
  - apply Qle_refl.
  - rewrite SF2Q_magnitude in *. change (SF2Q (S754_zero s)) with 0%Q in Hle.
    change (SF2Q (S754_zero s1)) with 0%Q.
    pose proof (magnitude_positive m' e'). pose proof (magnitude_positive m1' e1').
    destruct s'; lra.
  - rewrite SF2Q_magnitude in *. change (SF2Q (S754_zero s')) with 0%Q in Hle.
    change (SF2Q (S754_zero s1')) with 0%Q.
    pose proof (magnitude_positive m e). pose proof (magnitude_positive m1 e1).
    destruct s; lra.
  - rewrite !SF2Q_magnitude in *.
    pose proof (magnitude_positive m e). pose proof (magnitude_positive m' e').
    pose proof (magnitude_positive m1 e1). pose proof (magnitude_positive m1' e1').
    destruct s, s'; try lra.
    + apply Qopp_le_compat. apply (nearest53_monotone _ _ _ _ Hn' Hn).
      unfold Qdiv. apply Qmult_le_compat_r; [lra|]. apply Qlt_le_weak, Qinv_lt_0_compat, HS.
    + apply (nearest53_monotone _ _ _ _ Hn Hn').
      unfold Qdiv. apply Qmult_le_compat_r; [lra|]. apply Qlt_le_weak, Qinv_lt_0_compat, HS.
Qed.

Lemma Qtruncate_monotone (q q' : Q) : (q <= q')%Q -> Qtruncate q <= Qtruncate q'.
Proof.
  intros H. unfold Qtruncate.
  destruct (Qle_bool 0 q) eqn:H0; destruct (Qle_bool 0 q') eqn:H0'.
  - apply Qfloor_resp_le, H.
  - rewrite Qle_bool_iff in H0. rewrite <- not_true_iff_false, Qle_bool_iff in H0'. lra.
  - rewrite <- not_true_iff_false, Qle_bool_iff in H0. rewrite Qle_bool_iff in H0'.
    assert (H1 : Qceiling q <= 0).
    { change 0 with (Qceiling 0). apply Qceiling_resp_le. lra. }
    assert (H2 : 0 <= Qfloor q').
    { change 0 with (Qfloor 0). apply Qfloor_resp_le. lra. }
    lia.
  - apply Qceiling_resp_le, H.
Qed.

Lemma integer_tick_twin (U : chrono.duration_type) :
  In U integer_tick_catalogue ->
  In (precise_twin U) precision_preserving_catalogue
  /\ U = integer_tick (chrono.Period U).
Proof.
  intros HU. cbn in HU.
  destruct HU as [<-|[<-|[<-|[<-|[<-|[<-|[]]]]]]]; (split; [cbn; auto 10 | reflexivity]).
Qed.

(** ** Integer-tick views of non-negative Durations *)

(** The count of a positive Duration of the normal range in a unit of the
    integer-tick catalogue other than seconds: the double nearest to the
    exact quotient of the Duration by the scale. *)
Lemma integer_tick_count_nearest (U : chrono.duration_type) (D : double) :
  In U integer_tick_catalogue ->
  U <> chrono.seconds ->
  (0 <= double_value D)%Q ->
  in_normal_range D = true ->
  nearest53 (double_value D / scale U) (double_value (scaled (chrono.Period U) D)).
Proof.
  intros HU Hs H0 HD.
  destruct (integer_tick_twin U HU) as [Htw _].
  assert (Hs' : precise_twin U <> timer.seconds).
  { intros E. apply Hs. cbn in HU.
    destruct HU as [<-|[<-|[<-|[<-|[<-|[<-|[]]]]]]]; first [reflexivity | discriminate E]. }
  destruct (unit_count_nearest (precise_twin U) D Htw Hs' HD)
    as (sg & m & e & m' & e' & ED & Ec & _ & _ & Hn).
  change (chrono.Period (precise_twin U)) with (chrono.Period U) in Ec.
  change (scale (precise_twin U)) with (scale U) in Hn.
  assert (Hsg : sg = false).
  { pose proof (nonnegative_sign D H0) as Hsign. rewrite ED in Hsign. exact Hsign. }
  subst sg.
  apply (nearest53_compat (magnitude m e / scale U) _ (magnitude m' e') _);
    [| |exact Hn].
  - unfold double_value. rewrite ED, SF2Q_magnitude. reflexivity.
  - unfold double_value. rewrite Ec, SF2Q_magnitude. reflexivity.
Qed.

(** C4 (amended). For every unit of the integer-tick catalogue and every
    finite non-negative Duration [D], the count [c] being what
    [duration_cast] computes in [double]: [c] is [D] times 1e9, 1e6 or
    1e3, or [D] divided by 60 or 3600, in binary64 arithmetic (for a [D]
    of the normal range, the double nearest to the exact [D / scale U]),
    and [D] itself in seconds; it is the count the precision-preserving
    unit of the same scale reports.  When [c] is finite and its floor is
    an [int64_t], [getDurationView<U>().as<int64_t>()] is the floor of
    [c], which is [c] truncated toward zero, and in seconds the floor of
    [D / scale U]. *)
Theorem integer_tick_view_floor (U : chrono.duration_type) (D c : double) :
  In U integer_tick_catalogue ->
  isfinite D = true ->
  (0 <= double_value D)%Q ->
  double_count U D = Some c ->
  isfinite c = true ->
  Qfloor (double_value c) <= int_max int64_t ->
  view_as (ty_int int64_t) U D = compiles (Some (v_int int64_t (Qfloor (double_value c))))
  /\ view_as ty_double (precise_twin U) D = compiles (Some (v_double c))
  /\ (U = chrono.nanoseconds -> c = (D * 1000000000)%float)
  /\ (U = chrono.microseconds -> c = (D * 1000000)%float)
  /\ (U = chrono.milliseconds -> c = (D * 1000)%float)
  /\ (U = chrono.seconds -> c = D)
  /\ (U = chrono.minutes -> c = (D / 60)%float)
  /\ (U = chrono.hours -> c = (D / 3600)%float)
  /\ (U <> chrono.seconds ->
      in_normal_range D = true ->
      nearest53 (double_value D / scale U) (double_value c))
  /\ Qfloor (double_value c) = Qtruncate (double_value c)
  /\ (U = chrono.seconds ->
      Qfloor (double_value c) = Qfloor (double_value D / scale U)).
Proof.
  intros HU HD H0 Hc Hfin Hmax.
  rewrite double_count_scaled in Hc. injection Hc as <-.
  assert (Hv : (0 <= double_value (scaled (chrono.Period U) D))%Q).
  { apply sign_false_value, scaled_sign, nonnegative_sign; assumption. }
  split; [|split; [|repeat split]].
  - assert (HU' : U = integer_tick (chrono.Period U)).
    { cbn in HU. destruct HU as [<-|[<-|[<-|[<-|[<-|[<-|[]]]]]]]; reflexivity. }
    rewrite HU' at 1. rewrite view_as_int64_of_count.
    rewrite (double_to_int_truncates _ _ Hfin), (Qtruncate_nonnegative _ Hv).
    assert (Hlo : 0 <= Qfloor (double_value (scaled (chrono.Period U) D))).
    { change 0 with (Qfloor 0). apply Qfloor_resp_le, Hv. }
    unfold in_range.
    replace (int_min int64_t <=? _) with true
      by (symmetry; apply Z.leb_le; cbn [int_min]; lia).
    replace (_ <=? int_max int64_t) with true by (symmetry; apply Z.leb_le; exact Hmax).
    reflexivity.
  - exact (view_as_double_of_count (chrono.Period U) D).
  - intros ->. reflexivity.
  - intros ->. reflexivity.
  - intros ->. reflexivity.
  - intros ->. reflexivity.
  - intros ->. reflexivity.
  - intros ->. reflexivity.
  - intros Hs Hn. apply integer_tick_count_nearest; assumption.
  - symmetry. apply Qtruncate_nonnegative, Hv.
  - intros ->. apply Qfloor_comp.
    change (scaled (chrono.Period chrono.seconds) D) with D.
    change (scale chrono.seconds) with 1%Q. field.
Qed.

(** The double next to 0.7 s in milliseconds: the count is the product by
    1000 in [double], which is 700, the double nearest to the exact
    699.99999999999988..., and the view shows 700. *)
Lemma integer_tick_view_floor_witness :
  let D := 0x1.6666666666666p-1%float in
  let c := 0x1.5ep+9%float in
  In chrono.milliseconds integer_tick_catalogue
  /\ isfinite D = true
  /\ (0 <= double_value D)%Q
  /\ double_count chrono.milliseconds D = Some c
  /\ isfinite c = true
  /\ Qfloor (double_value c) <= int_max int64_t
  /\ (double_value c == 700)%Q
  /\ view_as (ty_int int64_t) chrono.milliseconds D
     = compiles (Some (v_int int64_t (Qfloor (double_value c))))
  /\ view_as ty_double timer.milliseconds D = compiles (Some (v_double c))
  /\ c = (D * 1000)%float
  /\ nearest53 (double_value D / scale chrono.milliseconds) (double_value c).
Proof.
  intros D c.
  assert (H1 : In chrono.milliseconds integer_tick_catalogue) by (cbn; auto).
  assert (H2 : isfinite D = true) by reflexivity.
  assert (H3 : (0 <= double_value D)%Q) by (vm_compute; congruence).
  assert (H4 : double_count chrono.milliseconds D = Some c) by reflexivity.
  assert (H5 : isfinite c = true) by reflexivity.
  assert (H6 : Qfloor (double_value c) <= int_max int64_t) by (vm_compute; congruence).
  repeat (split; [assumption|]).
  split; [reflexivity|].
  destruct (integer_tick_view_floor chrono.milliseconds D c H1 H2 H3 H4 H5 H6)
    as (Hview & Htwin & _ & _ & Hms & _ & _ & _ & Hnear & _).
  split; [exact Hview|]. split; [exact Htwin|]. split; [exact (Hms eq_refl)|].
  apply Hnear; [discriminate | reflexivity].
Defined.

(** X8. A longer measurement never shows as a smaller number: in every unit
    of the precision-preserving catalogue the count [as<double>()] follows
    the order of the Durations, and in every unit of the integer-tick
    catalogue so does the count [as<int64_t>()] wherever it is defined. *)
Theorem views_preserve_order (D D' : double) :
  in_conversion_range D = true ->
  in_conversion_range D' = true ->
  (double_value D <= double_value D')%Q ->
  (forall U, In U precision_preserving_catalogue ->
     exists c c',
       view_as ty_double U D = compiles (Some (v_double c))
       /\ view_as ty_double U D' = compiles (Some (v_double c'))
       /\ (double_value c <= double_value c')%Q)
  /\ (forall U z z', In U integer_tick_catalogue ->
        view_as (ty_int int64_t) U D = compiles (Some (v_int int64_t z)) ->
        view_as (ty_int int64_t) U D' = compiles (Some (v_int int64_t z')) ->
        z <= z').
Proof.
  intros HD HD' Hle. split.
  - intros U HU.
    assert (E : U = floating (chrono.Period U)).
    { cbn in HU.
      destruct HU as [<-|[<-|[<-|[<-|[<-|[<-|[<-|[<-|[<-|[<-|[<-|[<-|[<-|[]]]]]]]]]]]]]];
        reflexivity. }
    assert (Hv : forall X, view_as ty_double U X
                           = compiles (Some (v_double (scaled (chrono.Period U) X))))
      by (intros X; rewrite E at 1; apply view_as_double_of_count).
    exists (scaled (chrono.Period U) D), (scaled (chrono.Period U) D').
    split; [apply Hv|]. split; [apply Hv|].
    apply scaled_monotone; assumption.
  - intros U z z' HU Hz Hz'.
    destruct (integer_tick_twin U HU) as [HT E].
    rewrite E, view_as_int64_of_count in Hz, Hz'.
    pose proof (scaled_monotone (precise_twin U) D D' HT HD HD' Hle) as Hc.
    cbn [precise_twin chrono.Period] in Hc.
    destruct (unit_count_near (precise_twin U) D HT HD) as [F _].
    destruct (unit_count_near (precise_twin U) D' HT HD') as [F' _].
    cbn [precise_twin chrono.Period] in F, F'.
    rewrite (double_to_int_truncates _ _ F) in Hz.
    rewrite (double_to_int_truncates _ _ F') in Hz'.
    destruct (in_range int64_t (Qtruncate (double_value (scaled (chrono.Period U) D))));
      [|discriminate].
    destruct (in_range int64_t (Qtruncate (double_value (scaled (chrono.Period U) D'))));
      [|discriminate].
    injection Hz as <-. injection Hz' as <-.
    apply Qtruncate_monotone, Hc.
Qed.

Lemma Qtruncate_Z (z : Z) : Qtruncate (inject_Z z) = z.
Proof.
  unfold Qtruncate. destruct (Qle_bool 0 (inject_Z z)); [apply Qfloor_Z | apply Qceiling_Z].
Qed.

(** X9. For a Duration of at most 9 223 372 036 seconds in magnitude (292
    years), the view [as<int64_t>()] is defined in every unit of the
    integer-tick catalogue: no count leaves the range of [int64_t].  One
    second more and the count in nanoseconds has no defined value. *)
Theorem integer_tick_views_are_defined (U : chrono.duration_type) (D : double) :
  In U integer_tick_catalogue ->
  in_conversion_range D = true ->
  (Qabs (double_value D) <= 9223372036)%Q ->
  (exists z c,
      view_as (ty_int int64_t) U D = compiles (Some (v_int int64_t z))
      /\ double_count U D = Some c
      /\ z = Qtruncate (double_value c)
      /\ - 2 ^ 63 < z < 2 ^ 63)
  /\ view_as (ty_int int64_t) chrono.nanoseconds 9223372037%float = compiles None.
Proof.
  intros HU HD Hb. split; [|reflexivity].
  destruct (integer_tick_twin U HU) as [HT E].
  destruct (unit_count_near (precise_twin U) D HT HD) as [F Hn].
  cbn [precise_twin chrono.Period] in F, Hn.
  set (c := scaled (chrono.Period U) D) in *.
  assert (Hc : (- inject_Z (2 ^ 63 - 1) <= double_value c <= inject_Z (2 ^ 63 - 1))%Q).
  { change (inject_Z (2 ^ 63 - 1)) with 9223372036854775807%Q.
    change (1 # 2 ^ 53)%Q with (1 # 9007199254740992)%Q in Hn.
    revert Hn. cbn in HU.
    destruct HU as [<-|[<-|[<-|[<-|[<-|[<-|[]]]]]]];
      match goal with
      | |- context [scale ?T] =>
          let S := eval vm_compute in (scale T) in change (scale T) with S
      end;
      revert Hb; generalize (double_value c); generalize (double_value D);
      intros d q; do 2 (apply Qabs_case; intros ?); intros ?; lra. }
  exists (Qtruncate (double_value c)), c.
  assert (Hz : - 2 ^ 63 < Qtruncate (double_value c) < 2 ^ 63).
  { destruct Hc as [H1 H2].
    apply Qtruncate_monotone in H1, H2.
    rewrite <- inject_Z_opp, Qtruncate_Z in H1. rewrite Qtruncate_Z in H2. lia. }
  split.
  - rewrite E, view_as_int64_of_count. fold c.
    rewrite (double_to_int_truncates _ _ F).
    replace (in_range int64_t (Qtruncate (double_value c))) with true; [reflexivity|].
    symmetry. unfold in_range. rewrite andb_true_iff, !Z.leb_le. cbn [int_min int_max]. lia.
  - split; [apply double_count_scaled|]. split; [reflexivity | exact Hz].
Qed.

Lemma Qtruncate_comp (q q' : Q) : (q == q')%Q -> Qtruncate q = Qtruncate q'.
Proof.
  intros H. apply Z.le_antisymm; apply Qtruncate_monotone; rewrite H; apply Qle_refl.
Qed.

(** The count of a Duration that is a whole number [N] of units, below
    2^53 in magnitude, is [N] itself in [double]. *)
Lemma whole_count_exact (U : chrono.duration_type) (D : double) (N : Z) :
  In U precision_preserving_catalogue ->
  in_conversion_range D = true ->
  (double_value D == inject_Z N * scale U)%Q ->
  Z.abs N < 2 ^ 53 ->
  isfinite (scaled (chrono.Period U) D) = true
  /\ (double_value (scaled (chrono.Period U) D) == inject_Z N)%Q.
Proof.
  intros HU HD EN HN.
  destruct (unit_count_near U D HU HD) as [F _]. split; [exact F|].
  assert (Hdec : U = timer.seconds \/ U <> timer.seconds).
  { cbn in HU.
    destruct HU as [<-|[<-|[<-|[<-|[<-|[<-|[<-|[<-|[<-|[<-|[<-|[<-|[<-|[]]]]]]]]]]]]]];
      (left; reflexivity) || (right; discriminate). }
  destruct Hdec as [->|Hs].
  { change (scaled _ D) with D. rewrite EN. change (scale timer.seconds) with 1%Q. ring. }
  pose proof (scale_positive U HU) as HS.
  unfold double_value in *.
  destruct (unit_count_cases U D HU Hs HD)
    as [(s & s1 & E & Ec)|(s & m & e & m1 & e1 & E & Ec & _ & _ & Hn)];
    rewrite E in EN; rewrite Ec.
  - change (SF2Q (S754_zero s)) with 0%Q in EN. change (SF2Q (S754_zero s1)) with 0%Q.
    assert (H0 : (inject_Z N == 0)%Q).
    { destruct (Qmult_integral _ _ (Qeq_sym _ _ EN)) as [H|H]; [exact H | lra]. }
    rewrite H0. reflexivity.
  - rewrite SF2Q_magnitude in *.
    pose proof (magnitude_positive m e) as Pm.
    assert (Ea : (magnitude m e / scale U == inject_Z (Z.abs N) * 2 ^ 0)%Q).
    { change (2 ^ 0)%Q with 1%Q. rewrite Qmult_1_r.
      assert (Hsgn : (if s then N < 0 else 0 < N)).
      { destruct s.
        - destruct (Z_lt_le_dec N 0) as [H|H]; [exact H|]. exfalso.
          assert (H' : (0 <= inject_Z N * scale U)%Q)
            by (apply Qmult_le_0_compat; [change 0%Q with (inject_Z 0); rewrite <- Zle_Qle; lia | lra]).
          lra.
        - destruct (Z_lt_le_dec 0 N) as [H|H]; [exact H|]. exfalso.
          assert (H' : (inject_Z (- N) * scale U >= 0)%Q)
            by (apply Qmult_le_0_compat; [change 0%Q with (inject_Z 0); rewrite <- Zle_Qle; lia | lra]).
          rewrite inject_Z_opp in H'. lra. }
      destruct s.
      + replace (Z.abs N) with (- N) by lia. rewrite inject_Z_opp.
        assert (E1 : (magnitude m e == - inject_Z N * scale U)%Q) by lra.
        rewrite E1. field. lra.
      + replace (Z.abs N) with N by lia. rewrite EN. field. lra. }
    pose proof (nearest53_exact _ _ (Z.abs N) 0 Hn Ea HN) as Hex.
    rewrite Ea in Hex. change (2 ^ 0)%Q with 1%Q in Hex. rewrite Qmult_1_r in Hex.
    destruct s; rewrite Hex.
    + assert (HN0 : N <= 0).
      { destruct (Z_lt_le_dec 0 N) as [H|H]; [|exact H]. exfalso.
        assert (H' : (0 <= inject_Z N * scale U)%Q)
          by (apply Qmult_le_0_compat; [change 0%Q with (inject_Z 0); rewrite <- Zle_Qle; lia | lra]).
        lra. }
      replace (Z.abs N) with (- N) by lia. rewrite inject_Z_opp. ring.
    + assert (HN0 : 0 <= N).
      { destruct (Z_lt_le_dec N 0) as [H|H]; [|lia]. exfalso.
        assert (H' : (inject_Z (- N) * scale U >= 0)%Q)
          by (apply Qmult_le_0_compat; [change 0%Q with (inject_Z 0); rewrite <- Zle_Qle; lia | lra]).
        rewrite inject_Z_opp in H'. lra. }
      replace (Z.abs N) with N by lia. reflexivity.
Qed.

(** X10. Whole numbers of units are shown exactly.  When the Duration is
    exactly [N] units of [U] (one second in milliseconds, 3600 seconds in
    hours, 0.75 s in microseconds), [N] below 2^53 in magnitude, the
    count [as<double>()] is [N], without rounding error, and in a unit of
    the integer-tick catalogue the count [as<int64_t>()] is [N]. *)
Theorem whole_counts_are_exact (D : double) (N : Z) :
  in_conversion_range D = true ->
  Z.abs N < 2 ^ 53 ->
  (forall U, In U precision_preserving_catalogue ->
     (double_value D == inject_Z N * scale U)%Q ->
     exists c, view_as ty_double U D = compiles (Some (v_double c))
               /\ isfinite c = true /\ (double_value c == inject_Z N)%Q)
  /\ (forall U, In U integer_tick_catalogue ->
        (double_value D == inject_Z N * scale U)%Q ->
        view_as (ty_int int64_t) U D = compiles (Some (v_int int64_t N))).
Proof.
  intros HD HN. split.
  - intros U HU EN.
    assert (E : U = floating (chrono.Period U)).
    { cbn in HU.
      destruct HU as [<-|[<-|[<-|[<-|[<-|[<-|[<-|[<-|[<-|[<-|[<-|[<-|[<-|[]]]]]]]]]]]]]];
        reflexivity. }
    exists (scaled (chrono.Period U) D).
    split; [rewrite E at 1; apply view_as_double_of_count|].
    apply (whole_count_exact U D N HU HD EN HN).
  - intros U HU EN.
    destruct (integer_tick_twin U HU) as [HT E].
    destruct (whole_count_exact (precise_twin U) D N HT HD EN HN) as [F Hv].
    cbn [precise_twin chrono.Period] in F, Hv.
    rewrite E, view_as_int64_of_count, (double_to_int_truncates _ _ F).
    rewrite (Qtruncate_comp _ _ Hv), Qtruncate_Z.
    replace (in_range int64_t N) with true; [reflexivity|].
    symmetry. unfold in_range. rewrite andb_true_iff, !Z.leb_le. cbn [int_min int_max]. lia.
Qed.

(** *** Two conversions in a row *)

(** [D * k1 / k2] for a Duration of the conversion range and two positive
    constants: finite, and the exact [D * K1 / K2] up to two roundings. *)
Lemma mul_div_close (D k1 k2 : double) (mk1 : positive) (ek1 : Z) (mk2 : positive) (ek2 : Z) :
  in_conversion_range D = true ->
  Prim2SF k1 = S754_finite false mk1 ek1 ->
  Prim2SF k2 = S754_finite false mk2 ek2 ->
  Zdigits2 (Zpos mk1) = 53 -> Zdigits2 (Zpos mk2) = 53 ->
  -94 <= ek1 <= -11 -> -41 <= ek1 - ek2 <= 40 ->
  let ratio := (magnitude mk1 ek1 / magnitude mk2 ek2)%Q in
  isfinite (D * k1 / k2)%float = true
  /\ (Qabs (double_value (D * k1 / k2)%float - double_value D * ratio)
      <= two_roundings * Qabs (double_value D * ratio))%Q.
Proof.
  intros HD Hk1 Hk2 Hd1 Hd2 He1 He12 ratio.
  pose proof (magnitude_positive mk1 ek1) as P1.
  pose proof (magnitude_positive mk2 ek2) as P2.
  assert (Pr : (0 < ratio)%Q).
  { unfold ratio. apply Qlt_shift_div_l; [exact P2 | lra]. }
  unfold in_conversion_range in HD. rewrite orb_true_iff in HD.
  destruct HD as [HD|HD].
  - (* a zero Duration *)
    destruct (is_zero_SF D HD) as [s E].
    assert (Ec : Prim2SF (D * k1 / k2)%float = S754_zero s).
    { rewrite div_spec, mul_spec, E, Hk1, Hk2. cbn. rewrite !xorb_false_r. reflexivity. }
    unfold isfinite, double_value. rewrite Ec, E. split; [reflexivity|].
    cbn [SF2Q].
    assert (E0 : (0 - 0 * ratio == 0)%Q) by ring. rewrite E0.
    assert (E1 : (0 * ratio == 0)%Q) by ring. rewrite E1.
    cbn. discriminate.
  - destruct (mul_count_nearest D k1 (/ magnitude mk1 ek1) mk1 ek1 HD Hk1 Hd1 He1)
      as (s & m & e & mc & ec & ED & Ec & Hdc & He & Hec & Hnc).
    { field. lra. }
    destruct (SF64div_nearest s mc ec mk2 ek2 Hdc Hd2 ltac:(lia))
      as (mr & er & Ediv & _ & _ & Hnr).
    assert (Er : Prim2SF (D * k1 / k2)%float = S754_finite s mr er)
      by (rewrite div_spec, Ec, Hk2; exact Ediv).
    unfold isfinite, double_value. rewrite Er, ED. split; [reflexivity|].
    pose proof (nearest53_error _ _ Hnc) as Errc.
    pose proof (nearest53_error _ _ Hnr) as Errr.
    pose proof (magnitude_positive m e) as Pm.
    pose proof (magnitude_positive mc ec) as Pc.
    pose proof (magnitude_positive mr er) as Prr.
    set (x := (magnitude m e * ratio)%Q).
    set (w := (magnitude mc ec / magnitude mk2 ek2)%Q) in *.
    assert (Ex : (magnitude m e / / magnitude mk1 ek1 / magnitude mk2 ek2 == x)%Q)
      by (unfold x, ratio; field; split; lra).
    assert (Hwx : (Qabs (w - x) <= (1 # 2 ^ 53) * x)%Q).
    { assert (Ew : (w - x == (magnitude mc ec - magnitude m e / / magnitude mk1 ek1)
                            * / magnitude mk2 ek2)%Q)
        by (rewrite <- Ex; unfold w; field; split; lra).
      rewrite Ew, Qabs_Qmult, (Qabs_pos (/ magnitude mk2 ek2))
        by (apply Qlt_le_weak, Qinv_lt_0_compat, P2).
      assert (Ex' : ((1 # 2 ^ 53) * x
                     == (1 # 2 ^ 53) * (magnitude m e / / magnitude mk1 ek1)
                        * / magnitude mk2 ek2)%Q)
        by (rewrite <- Ex; field; split; lra).
      rewrite Ex'. apply Qmult_le_compat_r; [exact Errc|].
      apply Qlt_le_weak, Qinv_lt_0_compat, P2. }
    assert (Px : (0 < x)%Q) by (unfold x; apply Qmult_lt_0_compat; assumption).
    assert (Hfinal : (Qabs (magnitude mr er - x) <= two_roundings * x)%Q).
    { unfold two_roundings.
      change (1 # 2 ^ 53)%Q with (1 # 9007199254740992)%Q in *.
      change (1 # 2 ^ 52)%Q with (1 # 4503599627370496)%Q.
      change (1 # 2 ^ 106)%Q with (1 # 81129638414606681695789005144064)%Q.
      revert Errr Hwx. generalize (magnitude mr er). intros r.
      do 3 (apply Qabs_case; intros ?); intros; lra. }
    rewrite !SF2Q_magnitude. destruct s.
    + assert (E1 : (- magnitude mr er - - magnitude m e * ratio == - (magnitude mr er - x))%Q)
        by (unfold x; ring).
      assert (E2 : (- magnitude m e * ratio == - x)%Q) by (unfold x; ring).
      rewrite E1, E2, !Qabs_opp, (Qabs_pos x) by lra. exact Hfinal.
    + fold x. rewrite (Qabs_pos x) by lra. exact Hfinal.
Qed.

(** * The accuracy of a measurement *)

(** *** Subtraction of time points *)

Lemma Zdigits2_le (p j : Z) : 0 < p < 2 ^ j -> Zdigits2 p <= j.
Proof.
  intros [H0 H1]. pose proof (Zdigits2_bounds p H0) as [Hb _].
  destruct (Z_le_gt_dec (Zdigits2 p) j) as [H|H]; [exact H|]. exfalso.
  destruct (Z_lt_le_dec j 0) as [Hj|Hj].
  - rewrite Z.pow_neg_r in H1 by exact Hj. lia.
  - pose proof (Z.pow_le_mono_r 2 j (Zdigits2 p - 1)). lia.
Qed.

(** The difference of two floats of that range, the greater first, is
    finite and is their exact difference up to one rounding. *)
Lemma SF64sub_close (x y : spec_float) :
  in_exponent_range x -> in_exponent_range y ->
  (SF2Q x <= SF2Q y)%Q ->
  is_finite_SF (SF64sub y x) = true
  /\ (Qabs (SF2Q (SF64sub y x) - (SF2Q y - SF2Q x)) <= (1 # 2 ^ 53) * (SF2Q y - SF2Q x))%Q.
Proof.
  intros Hx Hy Hle.
  assert (Hexact : forall r : spec_float,
             is_finite_SF r = true -> (SF2Q r == SF2Q y - SF2Q x)%Q ->
             is_finite_SF r = true
             /\ (Qabs (SF2Q r - (SF2Q y - SF2Q x)) <= (1 # 2 ^ 53) * (SF2Q y - SF2Q x))%Q).
  { intros r Hr Er. split; [exact Hr|]. rewrite Er.
    assert (E0 : (SF2Q y - SF2Q x - (SF2Q y - SF2Q x) == 0)%Q) by ring.
    rewrite E0. change (Qabs 0) with 0%Q.
    change (1 # 2 ^ 53)%Q with (1 # 9007199254740992)%Q. lra. }
  destruct x as [sx| | |sx mx ex]; try contradiction;
    destruct y as [sy| | |sy my ey]; try contradiction.
  - apply Hexact; [destruct sx, sy; reflexivity|].
    destruct sx, sy; cbn; reflexivity.
  - apply Hexact; [reflexivity|]. change (SF2Q (S754_zero sx)) with 0%Q.
    cbn [SF64sub SFsub]. ring.
  - apply Hexact; [reflexivity|]. change (SF2Q (S754_zero sy)) with 0%Q.
    cbn [SF64sub SFsub]. rewrite !SF2Q_magnitude. destruct sx; cbn [negb]; ring.
  - cbn [in_exponent_range] in Hx, Hy. destruct Hx as [Hdx Hex]. destruct Hy as [Hdy Hey].
    unfold SF64sub, SFsub. set (ez := Z.min ey ex).
    pose proof (SF2Q_aligned sx mx ex ez ltac:(unfold ez; lia)) as Ex.
    pose proof (SF2Q_aligned sy my ey ez ltac:(unfold ez; lia)) as Ey.
    destruct (shl_align_value mx ex ez ltac:(unfold ez; lia)) as [Vx _].
    destruct (shl_align_value my ey ez ltac:(unfold ez; lia)) as [Vy _].
    set (X := cond_Zopp sx (Z.pos (fst (shl_align mx ex ez)))) in *.
    set (Y := cond_Zopp sy (Z.pos (fst (shl_align my ey ez)))) in *.
    assert (Ed : (SF2Q (S754_finite sy my ey) - SF2Q (S754_finite sx mx ex)
                  == inject_Z (Y - X) * 2 ^ ez)%Q)
      by (rewrite Ex, Ey, inject_Z_minus; ring).
    assert (HXY : X <= Y).
    { rewrite Ex, Ey in Hle. apply Qmult_le_r in Hle; [|apply Qpower_2_positive].
      rewrite <- Zle_Qle in Hle. exact Hle. }
    destruct (Y - X) as [|p|p] eqn:Ep; try lia.
    + apply Hexact; [reflexivity|]. rewrite Ed. cbn. ring.
    + cbn [binary_normalize].
      assert (Hp : Zpos p < 2 ^ (1023 - ez)).
      { assert (Hbx : Z.abs X < 2 ^ (53 + (ex - ez))).
        { pose proof (Zdigits2_bounds (Zpos mx) eq_refl) as [_ Hb].
          pose proof (Z.pow_le_mono_r 2 (Zdigits2 (Zpos mx)) 53 ltac:(lia) Hdx).
          rewrite Z.pow_add_r by (unfold ez; lia).
          pose proof (Z.pow_pos_nonneg 2 (ex - ez) ltac:(lia) ltac:(unfold ez; lia)).
          unfold X. rewrite Vx. destruct sx; cbn [cond_Zopp]; nia. }
        assert (Hby : Z.abs Y < 2 ^ (53 + (ey - ez))).
        { pose proof (Zdigits2_bounds (Zpos my) eq_refl) as [_ Hb].
          pose proof (Z.pow_le_mono_r 2 (Zdigits2 (Zpos my)) 53 ltac:(lia) Hdy).
          rewrite Z.pow_add_r by (unfold ez; lia).
          pose proof (Z.pow_pos_nonneg 2 (ey - ez) ltac:(lia) ltac:(unfold ez; lia)).
          unfold Y. rewrite Vy. destruct sy; cbn [cond_Zopp]; nia. }
        pose proof (Z.pow_le_mono_r 2 (53 + (ex - ez)) (1022 - ez) ltac:(lia) ltac:(lia)).
        pose proof (Z.pow_le_mono_r 2 (53 + (ey - ez)) (1022 - ez) ltac:(lia) ltac:(lia)).
        replace (1023 - ez) with ((1022 - ez) + 1) by lia.
        rewrite Z.pow_add_r by (unfold ez; lia). lia. }
      pose proof (Zdigits2_le (Zpos p) (1023 - ez) ltac:(lia)) as Hdp.
      assert (Hd1 : 0 < Zdigits2 (Zpos p)) by (cbn; lia).
      destruct (binary_round_nearest false p ez ltac:(unfold ez; lia) ltac:(lia))
        as (m'' & e'' & Hr & _ & _ & Hn).
      rewrite Hr. split; [reflexivity|].
      rewrite Ed. fold (magnitude p ez). rewrite SF2Q_magnitude.
      apply (nearest53_error _ _ Hn).
Qed.

(** The time point of a reading of the steady clock is the reading in
    seconds up to two roundings. *)
Lemma steady_time_point_close (n : Z) :
  Zdigits2 n <= 64 ->
  in_exponent_range (Prim2SF (Z_to_double n / 1e9)%float)
  /\ (Qabs (double_value (Z_to_double n / 1e9)%float - inject_Z n / 1000000000)
      <= two_roundings * (inject_Z (Z.abs n) / 1000000000))%Q.
Proof.
  intros Hd. destruct (Z.eq_dec n 0) as [->|Hn].
  - split; [exact I|]. vm_compute. discriminate.
  - destruct (steady_time_point_nearest n Hn Hd) as (m & e & y & E & Hdm & He & Hy & Ht).
    unfold double_value. rewrite E. split; [cbn [in_exponent_range]; lia|].
    pose proof (nearest53_error _ _ Hy) as Ey.
    pose proof (nearest53_error _ _ Ht) as Et.
    destruct (nearest53_positive _ _ Hy) as [Pa Py].
    change (inject_Z 1000000000) with 1000000000%Q in *.
    assert (Hmag : (Qabs (magnitude m e - inject_Z (Z.abs n) / 1000000000)
                    <= two_roundings * (inject_Z (Z.abs n) / 1000000000))%Q).
    { unfold two_roundings.
      change (1 # 2 ^ 53)%Q with (1 # 9007199254740992)%Q in *.
      change (1 # 2 ^ 52)%Q with (1 # 4503599627370496)%Q.
      change (1 # 2 ^ 106)%Q with (1 # 81129638414606681695789005144064)%Q.
      unfold Qdiv in *. change (/ 1000000000)%Q with (1 # 1000000000)%Q in *.
      revert Ey Et Pa Py. generalize (inject_Z (Z.abs n)) (magnitude m e). intros a t.
      do 3 (apply Qabs_case; intros ?); intros; lra. }
    rewrite SF2Q_magnitude.
    destruct (Z.ltb_spec n 0) as [Hneg|Hpos].
    + replace (Z.abs n) with (- n) in * by lia. rewrite inject_Z_opp in *.
      assert (E1 : (- magnitude m e - inject_Z n / 1000000000
                    == - (magnitude m e - - inject_Z n / 1000000000))%Q) by field.
      rewrite E1, Qabs_opp. exact Hmag.
    + replace (Z.abs n) with n in * by lia. exact Hmag.
Qed.

(** The accuracy of a subtraction of two time points of the steady
    clock. *)
Lemma steady_clock_difference_close (n0 n1 : Z) :
  Zdigits2 n0 <= 64 -> Zdigits2 n1 <= 64 -> n0 <= n1 ->
  let elapsed := (Z_to_double n1 / 1e9 - Z_to_double n0 / 1e9)%float in
  isfinite elapsed = true
  /\ (Qabs (double_value elapsed - inject_Z (n1 - n0) / 1000000000)
      <= (1 # 2 ^ 50) * (inject_Z (Z.max (Z.abs n0) (Z.abs n1)) / 1000000000))%Q.
Proof.
  intros Hd0 Hd1 Hle elapsed.
  destruct (steady_time_point_close n0 Hd0) as [R0 C0].
  destruct (steady_time_point_close n1 Hd1) as [R1 C1].
  destruct (steady_time_point_monotone n0 n1 Hd0 Hd1 Hle) as (_ & _ & Hv).
  destruct (SF64sub_close _ _ R0 R1 Hv) as [F Hsub].
  unfold isfinite, double_value, elapsed in *. rewrite sub_spec.
  split; [exact F|].
  set (M := Z.max (Z.abs n0) (Z.abs n1)).
  assert (H0 : (inject_Z (Z.abs n0) <= inject_Z M)%Q) by (rewrite <- Zle_Qle; unfold M; lia).
  assert (H1 : (inject_Z (Z.abs n1) <= inject_Z M)%Q) by (rewrite <- Zle_Qle; unfold M; lia).
  assert (A0 : (- inject_Z (Z.abs n0) <= inject_Z n0 <= inject_Z (Z.abs n0))%Q)
    by (rewrite <- inject_Z_opp, <- !Zle_Qle; lia).
  assert (A1 : (- inject_Z (Z.abs n1) <= inject_Z n1 <= inject_Z (Z.abs n1))%Q)
    by (rewrite <- inject_Z_opp, <- !Zle_Qle; lia).
  assert (P0 : (0 <= inject_Z (Z.abs n0))%Q)
    by (change 0%Q with (inject_Z 0); rewrite <- Zle_Qle; lia).
  assert (P1 : (0 <= inject_Z (Z.abs n1))%Q)
    by (change 0%Q with (inject_Z 0); rewrite <- Zle_Qle; lia).
  rewrite inject_Z_minus.
  unfold two_roundings in *.
  change (1 # 2 ^ 53)%Q with (1 # 9007199254740992)%Q in *.
  change (1 # 2 ^ 52)%Q with (1 # 4503599627370496)%Q in *.
  change (1 # 2 ^ 106)%Q with (1 # 81129638414606681695789005144064)%Q in *.
  change (1 # 2 ^ 50)%Q with (1 # 1125899906842624)%Q.
  unfold Qdiv in *. change (/ 1000000000)%Q with (1 # 1000000000)%Q in *.
  revert Hsub C0 C1 Hv H0 H1 A0 A1 P0 P1.
  generalize (SF2Q (SF64sub (Prim2SF (Z_to_double n1 / 1e9)%float)
                            (Prim2SF (Z_to_double n0 / 1e9)%float))).
  generalize (SF2Q (Prim2SF (Z_to_double n1 / 1e9)%float)).
  generalize (SF2Q (Prim2SF (Z_to_double n0 / 1e9)%float)).
  generalize (inject_Z (Z.abs n0)) (inject_Z (Z.abs n1)) (inject_Z n0) (inject_Z n1) (inject_Z M).
  intros a0 a1 q0 q1 m v0 v1 r.
  do 4 (apply Qabs_case; intros ?); intros; lra.
Qed.

(** *** The record of a measurement *)

Section RecordedDuration.

Context {World exception : Type}.
Variable Clock_now : World -> Z * World.
Variable MPI_Wtime : World -> double * World.
Variable BUILD_WITH_MPI_FLAG : bool.

(** The Duration in the record of either overload is the second time
    point minus the first. *)
Lemma record_duration_is_difference (s : timer.state World exception) t0 w1 w2 t1 w3 :
  clock_reading Clock_now MPI_Wtime BUILD_WITH_MPI_FLAG (timer.world s) = (t0, w1) ->
  clock_reading Clock_now MPI_Wtime BUILD_WITH_MPI_FLAG w2 = (t1, w3) ->
  (forall (toTime : timer.callable World exception unit) o record,
      toTime w1 = (o, w2) ->
      fst (timer.time_void Clock_now MPI_Wtime BUILD_WITH_MPI_FLAG toTime s)
      = timer.returned record ->
      timer.TimeResult_void.duration record = timer.TimePoint_sub t1 t0)
  /\
  (forall ResultType (ops : timer.constructors ResultType)
          (toTime : timer.callable World exception ResultType) m o record,
      timer.time Clock_now MPI_Wtime BUILD_WITH_MPI_FLAG ops toTime = compiles m ->
      toTime w1 = (o, w2) ->
      fst (m s) = timer.returned record ->
      timer.TimeResult.duration record = timer.TimePoint_sub t1 t0).
Proof.
  intros Hr0 Hr1. split.
  - intros toTime o record Hf.
    rewrite (time_void_run Clock_now MPI_Wtime BUILD_WITH_MPI_FLAG toTime s
               t0 w1 o w2 t1 w3 Hr0 Hf Hr1).
    cbn [fst]. destruct o as [[]|e]; [|discriminate]. intros [= <-]. reflexivity.
  - intros T ops toTime m o record Hm Hf.
    destruct (time_run_selected Clock_now MPI_Wtime BUILD_WITH_MPI_FLAG ops toTime m s
                t0 w1 o w2 t1 w3 Hm Hr0 Hf Hr1) as (ev & ctor & _ & Hrun).
    rewrite Hrun.
    destruct o as [v|e]; cbn [fst]; [|discriminate].
    destruct (fst (ctor v w3)); [|discriminate]. intros [= <-]. reflexivity.
Qed.

End RecordedDuration.

Section SteadyAccuracy.

Context {World exception : Type}.
Variable Clock_now : World -> Z * World.
Variable MPI_Wtime : World -> double * World.

(** X11. With the steady clock, for two readings [n0 <= n1] in nanoseconds:
    the Duration in the record is finite, and it differs from the exact
    [(n1 - n0) / 1e9] seconds by at most 2^-50 of the larger reading in
    seconds.  The readings are converted to seconds in [double] before
    they are subtracted, so the resolution of the measurement is set by
    the time since the epoch of the clock, not by the length of what is
    measured. *)
Theorem steady_clock_duration_accuracy (s : timer.state World exception)
    (n0 n1 : Z) (w1 w2 w3 : World) :
  Clock_now (timer.world s) = (n0, w1) ->
  Clock_now w2 = (n1, w3) ->
  in_range int64_t n0 = true ->
  in_range int64_t n1 = true ->
  n0 <= n1 ->
  let exact := (inject_Z (n1 - n0) / 1000000000)%Q in
  let since_epoch := (inject_Z (Z.max (Z.abs n0) (Z.abs n1)) / 1000000000)%Q in
  let accurate (d : timer.Duration) :=
    isfinite (chrono.count d) = true
    /\ (Qabs (double_value (chrono.count d) - exact) <= (1 # 2 ^ 50) * since_epoch)%Q in
  (forall (toTime : timer.callable World exception unit) o record,
      toTime w1 = (o, w2) ->
      fst (timer.time_void Clock_now MPI_Wtime false toTime s) = timer.returned record ->
      accurate (timer.TimeResult_void.duration record))
  /\
  (forall ResultType (ops : timer.constructors ResultType)
          (toTime : timer.callable World exception ResultType) m o record,
      timer.time Clock_now MPI_Wtime false ops toTime = compiles m ->
      toTime w1 = (o, w2) ->
      fst (m s) = timer.returned record ->
      accurate (timer.TimeResult.duration record)).
Proof.
  intros H0 H1 R0 R1 Hle exact since_epoch accurate.
  set (t0 := timer.Build_TimePoint
               (chrono.Build_duration (T := timer.Duration_t) (Z_to_double n0 / 1e9)%float)).
  set (t1 := timer.Build_TimePoint
               (chrono.Build_duration (T := timer.Duration_t) (Z_to_double n1 / 1e9)%float)).
  assert (Hr0 : clock_reading Clock_now MPI_Wtime false (timer.world s) = (t0, w1))
    by (unfold clock_reading; rewrite H0; reflexivity).
  assert (Hr1 : clock_reading Clock_now MPI_Wtime false w2 = (t1, w3))
    by (unfold clock_reading; rewrite H1; reflexivity).
  assert (Hacc : accurate (timer.TimePoint_sub t1 t0)).
  { exact (steady_clock_difference_close n0 n1 (int64_digits n0 R0) (int64_digits n1 R1) Hle). }
  destruct (record_duration_is_difference Clock_now MPI_Wtime false s t0 w1 w2 t1 w3 Hr0 Hr1)
    as [Hvoid Hvalue].
  split.
  - intros toTime o record Hf Hrec. rewrite (Hvoid toTime o record Hf Hrec). exact Hacc.
  - intros T ops toTime m o record Hm Hf Hrec.
    rewrite (Hvalue T ops toTime m o record Hm Hf Hrec). exact Hacc.
Qed.

End SteadyAccuracy.

(** *** The displays of the demo *)

(** X12. The demo shows one Duration as seconds computed from its count in
    microseconds and in milliseconds, and as milliseconds computed from
    its count in microseconds.  Each of the three is finite and is the
    exact value (the Duration, or 1000 times the Duration) up to two
    roundings of binary64. *)
Theorem demo_conversions_agree (D : double) :
  in_conversion_range D = true ->
  exists a b c,
    seconds_from_microseconds D = Some a
    /\ seconds_from_milliseconds D = Some b
    /\ milliseconds_from_microseconds D = Some c
    /\ isfinite a = true /\ isfinite b = true /\ isfinite c = true
    /\ (Qabs (double_value a - double_value D) <= two_roundings * Qabs (double_value D))%Q
    /\ (Qabs (double_value b - double_value D) <= two_roundings * Qabs (double_value D))%Q
    /\ (Qabs (double_value c - double_value D * 1000)
        <= two_roundings * Qabs (double_value D * 1000))%Q.
Proof.
  intros HD.
  exists (D * 1000000 / 1000000)%float, (D * 1000 / 1000)%float, (D * 1000000 / 1000)%float.
  split; [reflexivity|]. split; [reflexivity|]. split; [reflexivity|].
  destruct (mul_div_close D 1000000%float 1000000%float 8589934592000000 (-33) 8589934592000000 (-33)
              HD eq_refl eq_refl eq_refl eq_refl ltac:(lia) ltac:(lia)) as [Fa Ha].
  destruct (mul_div_close D 1000%float 1000%float 8796093022208000 (-43) 8796093022208000 (-43)
              HD eq_refl eq_refl eq_refl eq_refl ltac:(lia) ltac:(lia)) as [Fb Hb].
  destruct (mul_div_close D 1000000%float 1000%float 8589934592000000 (-33) 8796093022208000 (-43)
              HD eq_refl eq_refl eq_refl eq_refl ltac:(lia) ltac:(lia)) as [Fc Hc].
  split; [exact Fa|]. split; [exact Fb|]. split; [exact Fc|].
  assert (E1 : forall m e, (magnitude m e / magnitude m e == 1)%Q).
  { intros m e. pose proof (magnitude_positive m e). field. lra. }
  assert (E2 : (magnitude 8589934592000000 (-33) / magnitude 8796093022208000 (-43) == 1000)%Q)
    by (vm_compute; reflexivity).
  cbv zeta in Ha, Hb, Hc.
  rewrite E1, Qmult_1_r in Ha, Hb. rewrite E2 in Hc.
  split; [exact Ha|]. split; [exact Hb | exact Hc].
Qed.

(** *** An integer tick shown as a [double] *)

(** The view over an integer-tick unit, asked for a [double]: the
    conversion to [double] of the tick that [duration_cast] stored. *)
Lemma view_as_double_of_tick (P : ratio.t) (D : double) :
  view_as ty_double (integer_tick P) D
  = compiles (option_map (fun z => v_double (Z_to_double z))
                (double_to_int int64_t (scaled P D))).
Proof.
  unfold view_as, timer.TimeResult_void.getDurationView,
    timer.TimeResult_void.getDuration.
  rewrite duration_cast_from_Duration.
  cbn [integer_tick chrono.Rep chrono.Period chrono.rep_cast record_of
       timer.TimeResult_void.duration chrono.count].
  destruct (double_to_int int64_t (scaled P D)) as [z|]; reflexivity.
Qed.

(** The [double] of an integer below 2^53 in magnitude is that integer. *)
Lemma Z_to_double_exact (z : Z) :
  Z.abs z < 2 ^ 53 ->
  isfinite (Z_to_double z) = true /\ (double_value (Z_to_double z) == inject_Z z)%Q.
Proof.
  intros Hz. destruct (Z.eq_dec z 0) as [->|Hn]; [split; reflexivity|].
  assert (Hd : Zdigits2 z <= 1023).
  { assert (Ea : Zdigits2 (Z.abs z) = Zdigits2 z) by (destruct z; reflexivity).
    rewrite <- Ea. pose proof (Zdigits2_le (Z.abs z) 53 ltac:(lia)). lia. }
  destruct (Z_to_double_nearest z Hn Hd) as (m & e & E & _ & _ & Hnear).
  unfold isfinite, double_value. rewrite E. split; [reflexivity|].
  assert (Ea : (inject_Z (Z.abs z) == inject_Z (Z.abs z) * 2 ^ 0)%Q)
    by (change (2 ^ 0)%Q with 1%Q; ring).
  pose proof (nearest53_exact _ _ (Z.abs z) 0 Hnear Ea Hz) as Hex.
  rewrite SF2Q_magnitude.
  destruct (Z.ltb_spec z 0) as [Hneg|Hpos]; rewrite Hex.
  - replace (Z.abs z) with (- z) by lia. rewrite inject_Z_opp. ring.
  - replace (Z.abs z) with z by lia. reflexivity.
Qed.

(** X13. The example of the header's documentation,
    [getDurationView<std::chrono::seconds>().as<double>()], and the same
    in every unit of the integer-tick catalogue: the result is the count
    truncated toward zero, as a [double]; the fraction of the unit is
    gone before the conversion to [double].  The [double] is that whole
    number exactly when it is below 2^53 in magnitude. *)
Theorem integer_tick_view_as_double (U : chrono.duration_type) (D c : double) :
  In U integer_tick_catalogue ->
  double_count U D = Some c ->
  isfinite c = true ->
  Z.abs (Qtruncate (double_value c)) < 2 ^ 53 ->
  exists r,
    view_as ty_double U D = compiles (Some (v_double r))
    /\ r = Z_to_double (Qtruncate (double_value c))
    /\ isfinite r = true
    /\ (double_value r == inject_Z (Qtruncate (double_value c)))%Q.
Proof.
  intros HU Hc F Hz.
  destruct (integer_tick_twin U HU) as [_ E].
  rewrite double_count_scaled in Hc. injection Hc as <-.
  exists (Z_to_double (Qtruncate (double_value (scaled (chrono.Period U) D)))).
  split.
  - rewrite E at 1. rewrite view_as_double_of_tick, (double_to_int_truncates _ _ F).
    replace (in_range int64_t _) with true; [reflexivity|].
    symmetry. unfold in_range. rewrite andb_true_iff, !Z.leb_le. cbn [int_min int_max]. lia.
  - split; [reflexivity|]. apply Z_to_double_exact, Hz.
Qed.

(** ** Instances *)

(** 750 ms and one second, in milliseconds. *)
Lemma views_preserve_order_witness :
  in_conversion_range 0.75%float = true
  /\ in_conversion_range 1%float = true
  /\ (double_value 0.75%float <= double_value 1%float)%Q
  /\ (exists c c',
         view_as ty_double timer.milliseconds 0.75%float = compiles (Some (v_double c))
         /\ view_as ty_double timer.milliseconds 1%float = compiles (Some (v_double c'))
         /\ (double_value c <= double_value c')%Q)
  /\ In chrono.milliseconds integer_tick_catalogue
  /\ view_as (ty_int int64_t) chrono.milliseconds 0.75%float
     = compiles (Some (v_int int64_t 750))
  /\ view_as (ty_int int64_t) chrono.milliseconds 1%float
     = compiles (Some (v_int int64_t 1000))
  /\ 750 <= 1000.
Proof.
  assert (H1 : in_conversion_range 0.75%float = true) by reflexivity.
  assert (H2 : in_conversion_range 1%float = true) by reflexivity.
  assert (H3 : (double_value 0.75%float <= double_value 1%float)%Q) by (vm_compute; discriminate).
  do 3 (split; [assumption|]).
  split.
  - apply (proj1 (views_preserve_order 0.75%float 1%float H1 H2 H3) timer.milliseconds).
    cbn. auto.
  - assert (H4 : In chrono.milliseconds integer_tick_catalogue) by (cbn; auto).
    assert (H5 : view_as (ty_int int64_t) chrono.milliseconds 0.75%float
                 = compiles (Some (v_int int64_t 750))) by reflexivity.
    assert (H6 : view_as (ty_int int64_t) chrono.milliseconds 1%float
                 = compiles (Some (v_int int64_t 1000))) by reflexivity.
    do 3 (split; [assumption|]).
    exact (proj2 (views_preserve_order 0.75%float 1%float H1 H2 H3)
             chrono.milliseconds 750 1000 H4 H5 H6).
Defined.

(** 750 ms in nanoseconds. *)
Lemma integer_tick_views_are_defined_witness :
  In chrono.nanoseconds integer_tick_catalogue
  /\ in_conversion_range 0.75%float = true
  /\ (Qabs (double_value 0.75%float) <= 9223372036)%Q
  /\ (exists z c,
         view_as (ty_int int64_t) chrono.nanoseconds 0.75%float = compiles (Some (v_int int64_t z))
         /\ double_count chrono.nanoseconds 0.75%float = Some c
         /\ z = Qtruncate (double_value c)
         /\ - 2 ^ 63 < z < 2 ^ 63)
  /\ view_as (ty_int int64_t) chrono.nanoseconds 9223372037%float = compiles None.
Proof.
  assert (H1 : In chrono.nanoseconds integer_tick_catalogue) by (cbn; auto).
  assert (H2 : in_conversion_range 0.75%float = true) by reflexivity.
  assert (H3 : (Qabs (double_value 0.75%float) <= 9223372036)%Q) by (vm_compute; discriminate).
  do 3 (split; [assumption|]).
  exact (integer_tick_views_are_defined chrono.nanoseconds 0.75%float H1 H2 H3).
Defined.

(** 750 ms are 750 milliseconds, exactly. *)
Lemma whole_counts_are_exact_witness :
  in_conversion_range 0.75%float = true
  /\ Z.abs 750 < 2 ^ 53
  /\ (double_value 0.75%float == inject_Z 750 * scale chrono.milliseconds)%Q
  /\ view_as (ty_int int64_t) chrono.milliseconds 0.75%float = compiles (Some (v_int int64_t 750)).
Proof.
  assert (H1 : in_conversion_range 0.75%float = true) by reflexivity.
  assert (H2 : Z.abs 750 < 2 ^ 53) by (cbn; lia).
  assert (H3 : (double_value 0.75%float == inject_Z 750 * scale chrono.milliseconds)%Q)
    by (vm_compute; reflexivity).
  do 3 (split; [assumption|]).
  apply (proj2 (whole_counts_are_exact 0.75%float 750 H1 H2) chrono.milliseconds); [|exact H3].
  cbn. auto.
Defined.

(** The demo's [doLongTask] under [time], steady clock: 750 000 123 ns
    between the readings. *)
Lemma steady_clock_duration_accuracy_witness :
  let w2 := demo.sleep_for 750000000 demo.initial_world in
  demo.Clock_now (timer.world demo.initial_state) = (1000000000, demo.initial_world)
  /\ demo.Clock_now w2 = (1750000123, w2)
  /\ in_range int64_t 1000000000 = true
  /\ in_range int64_t 1750000123 = true
  /\ 1000000000 <= 1750000123
  /\ exists record,
       fst (timer.time_void demo.Clock_now demo.MPI_Wtime false demo.doLongTask
              demo.initial_state) = timer.returned record
       /\ isfinite (chrono.count (timer.TimeResult_void.duration record)) = true
       /\ (Qabs (double_value (chrono.count (timer.TimeResult_void.duration record))
                 - inject_Z (1750000123 - 1000000000) / 1000000000)
           <= (1 # 2 ^ 50)
              * (inject_Z (Z.max (Z.abs 1000000000) (Z.abs 1750000123)) / 1000000000))%Q.
Proof.
  intros w2.
  assert (H0 : demo.Clock_now (timer.world demo.initial_state)
               = (1000000000, demo.initial_world)) by reflexivity.
  assert (H1 : demo.Clock_now w2 = (1750000123, w2)) by reflexivity.
  assert (R0 : in_range int64_t 1000000000 = true) by reflexivity.
  assert (R1 : in_range int64_t 1750000123 = true) by reflexivity.
  assert (Hle : 1000000000 <= 1750000123) by lia.
  do 5 (split; [assumption|]).
  eexists. split; [reflexivity|].
  exact (proj1 (steady_clock_duration_accuracy demo.Clock_now demo.MPI_Wtime
                  demo.initial_state 1000000000 1750000123 demo.initial_world w2 w2
                  H0 H1 R0 R1 Hle)
           demo.doLongTask (timer.returns tt) _ eq_refl eq_refl).
Defined.

(** 750 ms on the displays of the demo. *)
Lemma demo_conversions_agree_witness :
  in_conversion_range 0.75%float = true
  /\ exists a b c,
       seconds_from_microseconds 0.75%float = Some a
       /\ seconds_from_milliseconds 0.75%float = Some b
       /\ milliseconds_from_microseconds 0.75%float = Some c
       /\ isfinite a = true /\ isfinite b = true /\ isfinite c = true
       /\ (Qabs (double_value a - double_value 0.75%float)
           <= two_roundings * Qabs (double_value 0.75%float))%Q
       /\ (Qabs (double_value b - double_value 0.75%float)
           <= two_roundings * Qabs (double_value 0.75%float))%Q
       /\ (Qabs (double_value c - double_value 0.75%float * 1000)
           <= two_roundings * Qabs (double_value 0.75%float * 1000))%Q.
Proof.
  assert (H : in_conversion_range 0.75%float = true) by reflexivity.
  split; [exact H|].
  exact (demo_conversions_agree 0.75%float H).
Defined.

(** 1.5 seconds is shown as 1. *)
Lemma integer_tick_view_as_double_witness :
  In chrono.seconds integer_tick_catalogue
  /\ double_count chrono.seconds 1.5%float = Some 1.5%float
  /\ isfinite 1.5%float = true
  /\ Z.abs (Qtruncate (double_value 1.5%float)) < 2 ^ 53
  /\ exists r,
       view_as ty_double chrono.seconds 1.5%float = compiles (Some (v_double r))
       /\ r = Z_to_double (Qtruncate (double_value 1.5%float))
       /\ isfinite r = true
       /\ (double_value r == inject_Z (Qtruncate (double_value 1.5%float)))%Q.
Proof.
  assert (H1 : In chrono.seconds integer_tick_catalogue) by (cbn; auto 10).
  assert (H2 : double_count chrono.seconds 1.5%float = Some 1.5%float) by reflexivity.
  assert (H3 : isfinite 1.5%float = true) by reflexivity.
  assert (H4 : Z.abs (Qtruncate (double_value 1.5%float)) < 2 ^ 53) by (vm_compute; reflexivity).
  do 4 (split; [assumption|]).
  exact (integer_tick_view_as_double chrono.seconds 1.5%float 1.5%float H1 H2 H3 H4).
Defined.
